(** * GitHub Copilot integration of Flowise: device flow and token caching

    A shallow embedding of
    - [packages/components/nodes/chatmodels/ChatGitHubCopilot/ChatGitHubCopilot.ts]
      (module [Copilot]: expiry normalisation, the two in-memory expiry
      caches and the Copilot token acquisition; module [CopilotModels]:
      base URL, model cache key and model list normalisation; module
      [CopilotList]: the model list request and [listModels]);
    - [packages/server/src/routes/github-copilot/index.ts]
      (module [DeviceFlow]): configuration resolution and the two device
      flow request handlers;
    - [packages/components/src/modelLoader.ts] (module [ModelLoader]): the
      model file and the lists read from it.

    Conventions.
    - A JavaScript [number] is a finite binary64 number, held as the
      rational ([Q]) it stands for. Division and addition round their exact
      result to the nearest binary64 number, ties to even ([double]);
      comparison and [Math.floor] are exact. [NaN] and the infinities are
      outside the model: no operation of the code reaches them from finite
      operands (a division by 1000, an addition of 300 to a time in
      seconds).
    - [Date.now()] is a time value: an integer number of milliseconds
      ([Z]).
    - A JavaScript object used as a string-keyed record is a
      [gmap string JVal]; a property that is absent reads as [JUndefined].
    - Code that awaits collaborators is a program of the free monad [Prog]
      over the calls it makes; a handler gives the calls their meaning in
      a world, and any call may reject (throw). *)

From Stdlib Require Import ZArith QArith Qround Qpower Lia Lqa Ascii.
From stdpp Require Import base strings gmap sorting.

Local Open Scope string_scope.
Local Set Warnings "-register-all".

(** ** JavaScript values *)

Module JS.

Inductive JVal : Type :=
| JUndefined
| JNull
| JBool (b : bool)
| JNum (n : Q)
| JStr (s : string)
| JArray (items : list JVal)
| JObject (fields : list (string * JVal)).

(** A string-keyed JavaScript object. *)
Abbreviation JObj := (gmap string JVal).

(** [!!v]: the truthiness used by [||], [&&], [!] and [if]. *)
Definition truthy (v : JVal) : bool :=
  match v with
  | JUndefined | JNull => false
  | JBool b => b
  | JNum n => negb (Qeq_bool n 0)
  | JStr s => negb (String.eqb s "")
  | JArray _ | JObject _ => true
  end.

(** [a || b] *)
Definition js_or (a b : JVal) : JVal := if truthy a then a else b.

(** [o.k] on an object *)
Definition prop (o : JObj) (k : string) : JVal := default JUndefined (o !! k).

(** [o?.k] where [o] may be [undefined] *)
Definition opt_prop (o : option JObj) (k : string) : JVal :=
  match o with
  | Some obj => prop obj k
  | None => JUndefined
  end.

(** [v === 'lit'] for a string literal *)
Definition strict_eq_str (v : JVal) (lit : string) : bool :=
  match v with
  | JStr s => String.eqb s lit
  | _ => false
  end.

(** A [string | undefined] read as a value. *)
Definition of_opt_string (o : option string) : JVal :=
  match o with
  | Some s => JStr s
  | None => JUndefined
  end.

(** [x > y] on numbers *)
Definition Qgtb (x y : Q) : bool := negb (Qle_bool x y).

(** *** Arithmetic on numbers

    The binary64 numbers around a positive [x] are the multiples of
    [2^e], where [e] leaves 53 significant bits and is never below -1074
    (the subnormal numbers). The result of an operation is the multiple
    nearest to the exact result; of two nearest ones, the even multiple. *)

Definition pow2 (k : Z) : Q := 2 ^ k.

(** The integer [l] with [2^l <= x < 2^(l+1)], for a positive [x]. *)
Definition ilog2 (x : Q) : Z :=
  let l := (Z.log2 (Qnum x) - Z.log2 (Zpos (Qden x)))%Z in
  if Qle_bool (pow2 l) x then l else (l - 1)%Z.

(** The nearest integer, ties to even. *)
Definition rne (q : Q) : Z :=
  let f := Qfloor q in
  match ((q - inject_Z f) ?= (1 # 2))%Q with
  | Lt => f
  | Gt => (f + 1)%Z
  | Eq => if Z.even f then f else (f + 1)%Z
  end.

Definition ulpExponent (x : Q) : Z := Z.max (ilog2 x - 52) (-1074).

Definition roundPositive (x : Q) : Q :=
  inject_Z (rne (x / pow2 (ulpExponent x))) * pow2 (ulpExponent x).

(** The binary64 number that the exact result [x] is rounded to. *)
Definition double (x : Q) : Q :=
  match Qnum x with
  | Z0 => 0
  | Zpos _ => roundPositive x
  | Zneg _ => - roundPositive (- x)
  end.

(** What a rejected promise or a [throw] carries. [JsError] is an
    [Error] object with its message, as [new Error(m)] makes it or as a
    collaborator rejects with; [JsTypeError] is the [TypeError] of the
    language, thrown when the code reads a property of [null] or calls
    what is not a function; [JsThrown] is a value that is not an [Error]. *)
Inductive Exn : Type :=
| JsError (message : string)
| JsTypeError (message : string)
| JsThrown.

End JS.
Export JS.

(** ** Programs over collaborator calls *)

Inductive Prog (E : Type -> Type) (R : Type) : Type :=
| Ret (r : R)
| Throw (e : Exn)
| Vis {X : Type} (ev : E X) (k : X -> Prog E R).

Arguments Ret {E R} r.
Arguments Throw {E R} e.
Arguments Vis {E R X} ev k.

Fixpoint bind {E : Type -> Type} {A B : Type} (p : Prog E A) (f : A -> Prog E B)
  : Prog E B :=
  match p with
  | Ret a => f a
  | Throw e => Throw e
  | Vis ev k => Vis ev (fun x => bind (k x) f)
  end.

Definition call {E : Type -> Type} {X : Type} (ev : E X) : Prog E X := Vis ev Ret.

Declare Scope prog_scope.
Delimit Scope prog_scope with prog.
Notation "x <- c ;; k" := (bind c (fun x => k))
  (at level 100, c at next level, right associativity) : prog_scope.
Notation "c ;;; k" := (bind c (fun _ => k))
  (at level 100, right associativity) : prog_scope.

(** A handler runs one call in a world; it returns the call's value or
    what it threw, and the world after the call. *)
Definition Handler (E : Type -> Type) (W : Type) : Type :=
  forall X : Type, E X -> W -> (Exn + X) * W.

Fixpoint run {E : Type -> Type} {W R : Type} (h : Handler E W) (p : Prog E R) (w : W)
  : (Exn + R) * W :=
  match p with
  | Ret r => (inr r, w)
  | Throw e => (inl e, w)
  | Vis ev k =>
      match h _ ev w with
      | (inl e, w') => (inl e, w')
      | (inr x, w') => run h (k x) w'
      end
  end.

(** The calls a run performs, in order; a call that throws is the last. *)
Definition Logged (E : Type -> Type) : Type := { X : Type & E X }.

Definition logged {E : Type -> Type} {X : Type} (ev : E X) : Logged E := existT X ev.

Fixpoint trace {E : Type -> Type} {W R : Type} (h : Handler E W) (p : Prog E R) (w : W)
  : list (Logged E) :=
  match p with
  | Ret _ | Throw _ => []
  | Vis ev k =>
      logged ev ::
      match h _ ev w with
      | (inl _, _) => []
      | (inr x, w') => trace h (k x) w'
      end
  end.

(** A program that has no [throw] of its own: whatever its calls
    answer, it ends in [Ret]. *)
Fixpoint throwFree {E : Type -> Type} {R : Type} (p : Prog E R) : Prop :=
  match p with
  | Ret _ => True
  | Throw _ => False
  | Vis _ k => forall x, throwFree (k x)
  end.

(** ** ChatGitHubCopilot.ts *)

Module Copilot.

Definition COPILOT_TOKEN_URL : string := "https://api.github.com/copilot_internal/v2/token".
Definition DEFAULT_BASE_URL : string := "https://api.githubcopilot.com".
Definition TOKEN_REFRESH_BUFFER_SECONDS : Q := 300.
Definition COPILOT_MODEL_CACHE_TTL_MS : Z := 15 * 60 * 1000.

Definition COPILOT_HEADERS : list (string * string) :=
  [ ("Editor-Version", "vscode/1.96.2");
    ("Editor-Plugin-Version", "copilot-chat/0.23.1");
    ("User-Agent", "GithubCopilot/1.255.0");
    ("vscode-editorid", "vscode-chat");
    ("vscode-machineid", "default") ].

(** Entries of [copilotTokenCache]. *)
Record CachedToken : Type := mkCachedToken { token : string; expiresAt : Q }.

Record INodeOptionsValue : Type := mkOption { label : string; name : string }.

(** Entries of [copilotModelCache]. *)
Record CachedModels : Type :=
  mkCachedModels { models : list INodeOptionsValue; modelsExpiresAt : Q }.

(** The two properties of the credential data that the token lookup
    reads, at the types the source gives them. *)
Record ICommonObject : Type := mkCredentialData {
  copilotToken : option string;
  copilotTokenExpiresAt : option Q
}.

Definition normalizeExpiresAt (expiresAt : Q) : Q :=
  if Qgtb expiresAt 1000000000000 then inject_Z (Qfloor (double (expiresAt / 1000)))
  else expiresAt.

(** The response of [fetch]: [resp_text] is what [response.text()] gives,
    [resp_json] what [response.json()] gives; either may reject. *)
Record TokenPayload : Type := mkTokenPayload { payload_token : string; expires_at : Q }.

Record FetchResponse : Type := mkFetchResponse {
  resp_ok : bool;
  resp_status : string;  (* the status code, as the error message prints it *)
  resp_statusText : string;
  resp_text : Exn + string;
  resp_json : Exn + TokenPayload
}.

Inductive CopilotE : Type -> Type :=
| DateNow : CopilotE Z
| TokenCacheGet (cacheKey : string) : CopilotE (option CachedToken)
| TokenCacheSet (cacheKey : string) (entry : CachedToken) : CopilotE unit
| ModelCacheGet (cacheKey : string) : CopilotE (option CachedModels)
| ModelCacheSet (cacheKey : string) (entry : CachedModels) : CopilotE unit
| ModelCacheDelete (cacheKey : string) : CopilotE unit
| Fetch (url : string) (headers : list (string * string)) : CopilotE FetchResponse.

Local Open Scope prog_scope.

(** [Date.now() / 1000 + TOKEN_REFRESH_BUFFER_SECONDS] *)
Definition refreshDeadline (now : Z) : Q :=
  double (double (inject_Z now / 1000) + TOKEN_REFRESH_BUFFER_SECONDS).

Definition getCachedCopilotModels (cacheKey : string)
  : Prog CopilotE (option (list INodeOptionsValue)) :=
  cached <- call (ModelCacheGet cacheKey) ;;
  match cached with
  | Some c =>
      now <- call DateNow ;;
      if Qgtb (modelsExpiresAt c) (inject_Z now) then Ret (Some (models c))
      else (call (ModelCacheDelete cacheKey) ;;; Ret None)
  | None => Ret None
  end.

Definition cacheCopilotModels (cacheKey : string) (ms : list INodeOptionsValue)
  : Prog CopilotE unit :=
  match ms with
  | [] => Ret tt
  | _ =>
      now <- call DateNow ;;
      call (ModelCacheSet cacheKey
              (mkCachedModels ms (inject_Z (now + COPILOT_MODEL_CACHE_TTL_MS))))
  end.

(** The second half of [getCachedCopilotToken]: the token stored in the
    credential data. *)
Definition storedCopilotToken (cacheKey : string) (credentialData : ICommonObject)
  : Prog CopilotE (option string) :=
  match copilotToken credentialData, copilotTokenExpiresAt credentialData with
  | Some storedToken, Some storedExpiresAt =>
      if truthy (JStr storedToken) && truthy (JNum storedExpiresAt) then
        let normalizedExpiresAt := normalizeExpiresAt storedExpiresAt in
        now <- call DateNow ;;
        if Qgtb normalizedExpiresAt (refreshDeadline now) then
          call (TokenCacheSet cacheKey (mkCachedToken storedToken normalizedExpiresAt)) ;;;
          Ret (Some storedToken)
        else Ret None
      else Ret None
  | _, _ => Ret None
  end.

Definition getCachedCopilotToken (cacheKey : string) (credentialData : ICommonObject)
  : Prog CopilotE (option string) :=
  cached <- call (TokenCacheGet cacheKey) ;;
  match cached with
  | Some c =>
      now <- call DateNow ;;
      if Qgtb (expiresAt c) (refreshDeadline now) then Ret (Some (token c))
      else storedCopilotToken cacheKey credentialData
  | None => storedCopilotToken cacheKey credentialData
  end.

Definition fetchCopilotToken (githubAccessToken : string) : Prog CopilotE CachedToken :=
  response <- call (Fetch COPILOT_TOKEN_URL
                      (("Authorization", "token " ++ githubAccessToken) :: COPILOT_HEADERS)) ;;
  if negb (resp_ok response) then
    match resp_text response with
    | inl e => Throw e
    | inr errorText =>
        Throw (JsError ("Failed to get Copilot token: " ++ resp_status response ++ " "
                        ++ resp_statusText response ++ " - " ++ errorText))
    end
  else
    match resp_json response with
    | inl e => Throw e
    | inr data => Ret (mkCachedToken (payload_token data) (normalizeExpiresAt (expires_at data)))
    end.

(** The last three lines of [getCopilotToken]: exchange, cache, return. *)
Definition exchangeAndCache (cacheKey githubAccessToken : string) : Prog CopilotE string :=
  fetched <- fetchCopilotToken githubAccessToken ;;
  call (TokenCacheSet cacheKey fetched) ;;;
  Ret (token fetched).

Definition getCopilotToken (cacheKey githubAccessToken : string)
    (credentialData : ICommonObject) : Prog CopilotE string :=
  cached <- getCachedCopilotToken cacheKey credentialData ;;
  match cached with
  | Some t => if truthy (JStr t) then Ret t else exchangeAndCache cacheKey githubAccessToken
  | None => exchangeAndCache cacheKey githubAccessToken
  end.

(** *** The process the module runs in *)

Record FetchRequest : Type := mkFetchRequest {
  req_url : string;
  req_headers : list (string * string)
}.

(** Module state and the number of clock readings so far. *)
Record World : Type := mkWorld {
  copilotTokenCache : gmap string CachedToken;
  copilotModelCache : gmap string CachedModels;
  clockReads : nat
}.

(** The outside: what the [n]-th reading of the clock shows (a time
    value, in milliseconds) and what the network answers. *)
Record Platform : Type := mkPlatform {
  clock : nat -> Z;
  network : FetchRequest -> Exn + FetchResponse
}.

Definition handle (pf : Platform) : Handler CopilotE World :=
  fun X ev =>
    match ev in CopilotE X return World -> (Exn + X) * World with
    | DateNow => fun w =>
        (inr (clock pf (clockReads w)),
         mkWorld (copilotTokenCache w) (copilotModelCache w) (S (clockReads w)))
    | TokenCacheGet k => fun w => (inr (copilotTokenCache w !! k), w)
    | TokenCacheSet k v => fun w =>
        (inr tt,
         mkWorld (<[k := v]> (copilotTokenCache w)) (copilotModelCache w) (clockReads w))
    | ModelCacheGet k => fun w => (inr (copilotModelCache w !! k), w)
    | ModelCacheSet k v => fun w =>
        (inr tt,
         mkWorld (copilotTokenCache w) (<[k := v]> (copilotModelCache w)) (clockReads w))
    | ModelCacheDelete k => fun w =>
        (inr tt,
         mkWorld (copilotTokenCache w) (delete k (copilotModelCache w)) (clockReads w))
    | Fetch url headers => fun w =>
        (network pf (mkFetchRequest url headers), w)
    end.

(** *** Vocabulary of the properties *)

(** The refresh deadline at the clock reading [now] (milliseconds), in
    seconds: the binary64 number that [now / 1000 + 300] evaluates to. *)
Definition deadline (now : Z) : Q := double (double (inject_Z now / 1000) + 300).

(** An expiry is fresh at a clock reading when it lies beyond the refresh
    deadline of that reading, and stale otherwise. *)
Definition fresh (now : Z) (expiry : Q) : Prop := (deadline now < expiry)%Q.
Definition stale (now : Z) (expiry : Q) : Prop := (expiry <= deadline now)%Q.

(** An expiry in seconds: as it is up to 10^12, and beyond that the
    whole part of the binary64 quotient by 1000. *)
Definition expirySeconds (e : Q) : Q :=
  if Qle_bool e 1000000000000 then e else inject_Z (Qfloor (double (e / 1000))).

(** The credential data holds the stored token [t] with the stored
    expiry [e], and the token is fresh at [now]. *)
Definition storedFresh (now : Z) (credentialData : ICommonObject) (t : string) (e : Q)
  : Prop :=
  copilotToken credentialData = Some t /\
  copilotTokenExpiresAt credentialData = Some e /\
  t <> "" /\ ~ (e == 0)%Q /\
  fresh now (expirySeconds e).

Definition noStoredFresh (now : Z) (credentialData : ICommonObject) : Prop :=
  forall t e, ~ storedFresh now credentialData t e.

(** The clock reading at which [getCachedCopilotToken] examines the
    stored token: the second reading when the cache has an entry for the
    key (the first one served the entry), the first reading otherwise. *)
Definition storedCheckTime (pf : Platform) (w : World) (cacheKey : string) : Z :=
  clock pf (match copilotTokenCache w !! cacheKey with
            | Some _ => S (clockReads w)
            | None => clockReads w
            end).

(** The cache has no fresh entry for the key. *)
Definition noFreshEntry (pf : Platform) (w : World) (cacheKey : string) : Prop :=
  forall c, copilotTokenCache w !! cacheKey = Some c ->
            stale (clock pf (clockReads w)) (expiresAt c).

(** The calls to the exchange endpoint among the calls of a run. *)
Definition isFetch (l : Logged CopilotE) : bool :=
  match projT2 l with
  | Fetch _ _ => true
  | _ => false
  end.

Definition exchangeCalls (tr : list (Logged CopilotE)) : list (Logged CopilotE) :=
  List.filter isFetch tr.

Definition exchangeRequest (githubAccessToken : string) : FetchRequest :=
  mkFetchRequest COPILOT_TOKEN_URL
    (("Authorization", "token " ++ githubAccessToken) :: COPILOT_HEADERS).

(** *** Sample processes *)

(** A clock that stands at 1000 s, and a network that is down. *)
Definition offline : Platform :=
  mkPlatform (fun _ => 1000000%Z) (fun _ => inl (JsError "network down")).

(** The same clock, and an exchange endpoint that answers with [payload]. *)
Definition online (payload : TokenPayload) : Platform :=
  mkPlatform (fun _ => 1000000%Z)
    (fun _ => inr (mkFetchResponse true "200" "OK" (inr "") (inr payload))).


Definition emptyWorld : World := mkWorld ∅ ∅ 0.

Definition holding (cacheKey : string) (entry : CachedToken) : World :=
  mkWorld {[ cacheKey := entry ]} ∅ 0.

Definition holdingModels (cacheKey : string) (entry : CachedModels) : World :=
  mkWorld ∅ {[ cacheKey := entry ]} 0.

Definition noStored : ICommonObject := mkCredentialData None None.

(** The process after one [getCopilotToken] from empty caches, when the
    exchange endpoint answers with the empty string as token. *)
Definition afterEmptyExchange : World :=
  snd (run (handle (online (mkTokenPayload "" 2000)))
         (getCopilotToken "cred-1" "gho_abc" noStored) emptyWorld).

End Copilot.

(** ** routes/github-copilot/index.ts *)

Module DeviceFlow.

Definition DEFAULT_GITHUB_DEVICE_FLOW_CLIENT_ID : string := "Iv1.b507a08c87ecfe98".
Definition DEFAULT_GITHUB_DEVICE_FLOW_SCOPE : string := "read:user workflow repo".
Definition DEVICE_CODE_URL : string := "https://github.com/login/device/code".
Definition ACCESS_TOKEN_URL : string := "https://github.com/login/oauth/access_token".

(** [process.env.NAME] *)
Definition env_var (env : gmap string string) (name : string) : JVal :=
  of_opt_string (env !! name).

Record DeviceFlowConfig : Type := mkConfig { clientId : JVal; scope : JVal }.

Definition resolveDeviceFlowConfig (env : gmap string string) (credentialData : JObj)
  : DeviceFlowConfig :=
  {| clientId :=
       js_or (js_or (js_or (prop credentialData "deviceFlowClientId")
                           (prop credentialData "clientId"))
                    (env_var env "GITHUB_DEVICE_FLOW_CLIENT_ID"))
             (JStr DEFAULT_GITHUB_DEVICE_FLOW_CLIENT_ID);
     scope :=
       js_or (js_or (js_or (prop credentialData "deviceFlowScope")
                           (prop credentialData "scope"))
                    (env_var env "GITHUB_DEVICE_FLOW_SCOPE"))
             (JStr DEFAULT_GITHUB_DEVICE_FLOW_SCOPE) |}.

(** A [Date]: its time value and what [toISOString()] gives for it. *)
Record Date : Type := mkDate { epochMs : Z; toISOString : string }.

(** The columns of the [Credential] entity that the routes touch. *)
Record Credential : Type := mkCredential {
  id : string;
  encryptedData : string;
  updatedDate : Date
}.

Inductive ServerE : Type -> Type :=
| GetRepository : ServerE unit
| FindOneBy (credentialId : string) : ServerE (option Credential)
| DecryptCredentialData (encrypted : string) : ServerE JObj
| EncryptCredentialData (plain : JObj) : ServerE string
| AxiosPost (url : string) (data : JObj) (headers : list (string * string)) : ServerE JObj
| NewDate : ServerE Date
| Update (credentialId : string) (encrypted : string) (updated : Date) : ServerE unit.

(** What a route handler does with the request: [res.status(s).json(b)]
    or [next(new InternalFlowiseError(s, m))]. *)
Inductive Outcome : Type :=
| Respond (status : Z) (body : JObj)
| Next (statusCode : Z) (message : string).

Record Request : Type := mkRequest {
  params_credentialId : string;
  body : option JObj
}.

(** An object literal; no literal below repeats a key. *)
Definition obj (fields : list (string * JVal)) : JObj := list_to_map fields.

Definition JSON_HEADERS : list (string * string) :=
  [ ("Content-Type", "application/json"); ("Accept", "application/json") ].

Definition INTERNAL_SERVER_ERROR : Z := 500.

(** [error instanceof Error ? error.message : 'Unknown error'] *)
Definition errorMessage (e : Exn) : string :=
  match e with
  | JsError m | JsTypeError m => m
  | JsThrown => "Unknown error"
  end.

Definition missingClientId : Outcome :=
  Respond 400 (obj [ ("success", JBool false);
                     ("message", JStr "Missing GitHub device flow client ID") ]).

Definition credentialNotFound : Outcome :=
  Respond 404 (obj [ ("success", JBool false); ("message", JStr "Credential not found") ]).

Local Open Scope prog_scope.

(** The [try] block of [router.post('/device/:credentialId')]. *)
Definition startDeviceFlow_try (env : gmap string string) (req : Request)
  : Prog ServerE Outcome :=
  let credentialId := params_credentialId req in
  call GetRepository ;;;
  credential <- call (FindOneBy credentialId) ;;
  match credential with
  | None => Ret credentialNotFound
  | Some credential =>
      decryptedData <- call (DecryptCredentialData (encryptedData credential)) ;;
      let cfg := resolveDeviceFlowConfig env decryptedData in
      if negb (truthy (clientId cfg)) then Ret missingClientId
      else
        response <- call (AxiosPost DEVICE_CODE_URL
                            (obj [ ("client_id", clientId cfg); ("scope", scope cfg) ])
                            JSON_HEADERS) ;;
        Ret (Respond 200
               (response ∪ obj [ ("success", JBool true);
                                 ("credentialId", JStr credentialId) ]))
  end.

(** [{ ...decryptedData, githubAccessToken, githubTokenType,
      githubTokenScope, githubTokenReceivedAt }] *)
Definition updatedCredentialData (decryptedData tokenData : JObj) (receivedAt : Date)
  : JObj :=
  <["githubTokenReceivedAt" := JStr (toISOString receivedAt)]>
    (<["githubTokenScope" := prop tokenData "scope"]>
       (<["githubTokenType" := prop tokenData "token_type"]>
          (<["githubAccessToken" := prop tokenData "access_token"]> decryptedData))).

(** [req.body?.deviceCode || req.body?.device_code] *)
Definition deviceCodeOf (req : Request) : JVal :=
  js_or (opt_prop (body req) "deviceCode") (opt_prop (body req) "device_code").

Definition tokenRequest (clientId deviceCode : JVal) : JObj :=
  obj [ ("client_id", clientId); ("device_code", deviceCode);
        ("grant_type", JStr "urn:ietf:params:oauth:grant-type:device_code") ].

(** What the poll route answers once the token endpoint has answered
    without an access token. *)
Definition answerWithoutToken (tokenData : JObj) : Outcome :=
  if strict_eq_str (prop tokenData "error") "authorization_pending"
     || strict_eq_str (prop tokenData "error") "slow_down"
  then
    Respond 200 (obj [ ("success", JBool false);
                       ("status", prop tokenData "error");
                       ("error_description", prop tokenData "error_description") ])
  else
    Respond 400 (obj [ ("success", JBool false);
                       ("status", js_or (prop tokenData "error") (JStr "unknown_error"));
                       ("message", js_or (prop tokenData "error_description")
                                         (JStr "Device flow failed")) ]).

(** The block under [if (tokenData.access_token)]: store the token in
    the credential and answer "authorized". *)
Definition persistToken (credentialId : string) (credential : Credential)
    (decryptedData tokenData : JObj) : Prog ServerE Outcome :=
  receivedAt <- call NewDate ;;
  encrypted <- call (EncryptCredentialData
                       (updatedCredentialData decryptedData tokenData receivedAt)) ;;
  updated <- call NewDate ;;
  call (Update (id credential) encrypted updated) ;;;
  Ret (Respond 200 (obj [ ("success", JBool true);
                          ("status", JStr "authorized");
                          ("credentialId", JStr credentialId) ])).

(** The [try] block of [router.post('/device/poll/:credentialId')]. *)
Definition pollDeviceFlow_try (env : gmap string string) (req : Request)
  : Prog ServerE Outcome :=
  let credentialId := params_credentialId req in
  let deviceCode := deviceCodeOf req in
  if negb (truthy deviceCode) then
    Ret (Respond 400 (obj [ ("success", JBool false);
                            ("message", JStr "Missing deviceCode in request body") ]))
  else
    call GetRepository ;;;
    credential <- call (FindOneBy credentialId) ;;
    match credential with
    | None => Ret credentialNotFound
    | Some credential =>
        decryptedData <- call (DecryptCredentialData (encryptedData credential)) ;;
        let cfg := resolveDeviceFlowConfig env decryptedData in
        if negb (truthy (clientId cfg)) then Ret missingClientId
        else
          tokenData <- call (AxiosPost ACCESS_TOKEN_URL
                               (tokenRequest (clientId cfg) deviceCode) JSON_HEADERS) ;;
          if truthy (prop tokenData "access_token")
          then persistToken credentialId credential decryptedData tokenData
          else Ret (answerWithoutToken tokenData)
    end.

(** *** The server the routes run in *)

(** The credential table and the number of dates taken so far. *)
Record ServerWorld : Type := mkServerWorld {
  credentials : list Credential;
  datesTaken : nat
}.

(** The outside: the environment of the process, the clock, the crypto
    helpers, the upstream server, and the faults of the database. *)
Record ServerPlatform : Type := mkServerPlatform {
  processEnv : gmap string string;
  serverClock : nat -> Date;
  decryptCredentialData : string -> Exn + JObj;
  encryptCredentialData : JObj -> Exn + string;
  axiosPost : string -> JObj -> list (string * string) -> Exn + JObj;
  repositoryFault : option Exn;
  findFault : string -> option Exn;
  updateFault : string -> option Exn
}.

(** [findOneBy({ id })]: the first row with that id. *)
Definition findOneBy (rows : list Credential) (credentialId : string) : option Credential :=
  List.find (fun c => String.eqb (id c) credentialId) rows.

(** [update(id, { encryptedData, updatedDate })]: every row with that id. *)
Definition update (rows : list Credential) (credentialId encrypted : string) (updated : Date)
  : list Credential :=
  List.map (fun c => if String.eqb (id c) credentialId
                     then mkCredential (id c) encrypted updated else c) rows.

Definition orFault {X : Type} (fault : option Exn) (x : X) : Exn + X :=
  match fault with
  | Some e => inl e
  | None => inr x
  end.

Definition serve (pf : ServerPlatform) : Handler ServerE ServerWorld :=
  fun X ev =>
    match ev in ServerE X return ServerWorld -> (Exn + X) * ServerWorld with
    | GetRepository => fun w => (orFault (repositoryFault pf) tt, w)
    | FindOneBy cid => fun w =>
        (orFault (findFault pf cid) (findOneBy (credentials w) cid), w)
    | DecryptCredentialData enc => fun w => (decryptCredentialData pf enc, w)
    | EncryptCredentialData plain => fun w => (encryptCredentialData pf plain, w)
    | AxiosPost url data headers => fun w => (axiosPost pf url data headers, w)
    | NewDate => fun w =>
        (inr (serverClock pf (datesTaken w)),
         mkServerWorld (credentials w) (S (datesTaken w)))
    | Update cid enc d => fun w =>
        match updateFault pf cid with
        | Some e => (inl e, w)
        | None => (inr tt, mkServerWorld (update (credentials w) cid enc d) (datesTaken w))
        end
    end.

(** A route: the [try] block, and [next] with the wrapped error in the
    [catch]. *)
Definition route (pf : ServerPlatform) (errorPrefix : string) (p : Prog ServerE Outcome)
    (w : ServerWorld) : Outcome * ServerWorld :=
  match run (serve pf) p w with
  | (inr o, w') => (o, w')
  | (inl e, w') => (Next INTERNAL_SERVER_ERROR (errorPrefix ++ errorMessage e), w')
  end.

Definition startDeviceFlow (pf : ServerPlatform) (req : Request) (w : ServerWorld)
  : Outcome * ServerWorld :=
  route pf "GitHub device flow init error: " (startDeviceFlow_try (processEnv pf) req) w.

Definition pollDeviceFlow (pf : ServerPlatform) (req : Request) (w : ServerWorld)
  : Outcome * ServerWorld :=
  route pf "GitHub device flow polling error: " (pollDeviceFlow_try (processEnv pf) req) w.

(** *** Vocabulary of the properties *)

(** The first candidate that is set (truthy), in the order given, and the
    fallback when none is. *)
Fixpoint byPrecedence (candidates : list JVal) (fallback : JVal) : JVal :=
  match candidates with
  | [] => fallback
  | v :: rest => if truthy v then v else byPrecedence rest fallback
  end.

(** A poll gets as far as the token endpoint, which answers with
    [tokenData]: the request carries a device code, the repository is
    there, the credential is found and decrypts to [decryptedData], and
    the POST to the token endpoint succeeds. *)
Definition tokenEndpointAnswers (pf : ServerPlatform) (w : ServerWorld) (req : Request)
    (credential : Credential) (decryptedData tokenData : JObj) : Prop :=
  truthy (deviceCodeOf req) = true /\
  repositoryFault pf = None /\
  findFault pf (params_credentialId req) = None /\
  findOneBy (credentials w) (params_credentialId req) = Some credential /\
  decryptCredentialData pf (encryptedData credential) = inr decryptedData /\
  axiosPost pf ACCESS_TOKEN_URL
    (tokenRequest (clientId (resolveDeviceFlowConfig (processEnv pf) decryptedData))
                  (deviceCodeOf req))
    JSON_HEADERS = inr tokenData.

(** The four properties that a successful poll sets. *)
Definition tokenFields : list string :=
  [ "githubAccessToken"; "githubTokenType"; "githubTokenScope"; "githubTokenReceivedAt" ].

(** *** Sample servers *)

Definition sampleDate (n : nat) : Date :=
  mkDate (1700000000000 + Z.of_nat n) "2023-11-14T22:13:20.000Z".

(** One credential without overrides; every blob decrypts to [stored],
    every bag encrypts to ["sealed"], and the upstream answers every
    POST with [answer]. *)
Definition sampleServer (stored answer : JObj) : ServerPlatform :=
  mkServerPlatform ∅ sampleDate (fun _ => inr stored) (fun _ => inr "sealed")
    (fun _ _ _ => inr answer) None (fun _ => None) (fun _ => None).

Definition sampleWorld : ServerWorld :=
  mkServerWorld [ mkCredential "cred-1" "blob" (sampleDate 0) ] 0.

Definition pollRequest (deviceCode : string) : Request :=
  mkRequest "cred-1" (Some {[ "deviceCode" := JStr deviceCode ]}).

End DeviceFlow.

(** ** ChatGitHubCopilot.ts: base URL, cache key and model list *)

Module CopilotModels.
Import Copilot.

(** [s.replace(/\/+$/, '')]: [s] without its trailing slashes. *)
Fixpoint stripTrailingSlashes (s : string) : string :=
  match s with
  | EmptyString => EmptyString
  | String c rest =>
      let rest' := stripTrailingSlashes rest in
      if Ascii.eqb c "/"%char && String.eqb rest' "" then "" else String c rest'
  end.

(** [l.join(sep)] *)
Fixpoint join (sep : string) (l : list string) : string :=
  match l with
  | [] => ""
  | [x] => x
  | x :: rest => x ++ sep ++ join sep rest
  end.

(** The order of the default [sort()]: strings compared code unit by
    code unit. *)
Definition codeUnitLe (a b : string) : Prop := String.leb a b = true.

#[global] Instance codeUnitLe_dec : RelDecision codeUnitLe.
Proof. intros a b. unfold codeUnitLe. apply _. Defined.

(** A headers object: its properties in insertion order, every name
    once. *)
Abbreviation Headers := (list (string * string)).

(** [additionalHeaders[key]] for a key of the object *)
Fixpoint headerValue (h : Headers) (key : string) : string :=
  match h with
  | [] => ""
  | (k, v) :: rest => if String.eqb k key then v else headerValue rest key
  end.

Definition buildModelCacheKey (tokenCacheKey baseUrl : string)
    (additionalHeaders : option Headers) : string :=
  match additionalHeaders with
  | None => "copilot-models:" ++ tokenCacheKey ++ ":" ++ baseUrl
  | Some h =>
      let headerKey :=
        join "|" (List.map (fun key : string => (key ++ ":" ++ headerValue h key)%string)
                    (merge_sort codeUnitLe (List.map fst h))) in
      "copilot-models:" ++ tokenCacheKey ++ ":" ++ baseUrl ++ ":" ++ headerKey
  end.

(** [a ?? b] *)
Definition nullish (v : JVal) : bool :=
  match v with
  | JUndefined | JNull => true
  | _ => false
  end.

Definition js_coalesce (a b : JVal) : JVal := if nullish a then b else a.

Fixpoint assoc (fields : list (string * JVal)) (key : string) : JVal :=
  match fields with
  | [] => JUndefined
  | (k, v) :: rest => if String.eqb k key then v else assoc rest key
  end.

(** [v.key] where [v] is not [null] or [undefined], and [v?.key]: only
    an object literal has the properties read here. *)
Definition member (v : JVal) (key : string) : JVal :=
  match v with
  | JObject fields => assoc fields key
  | _ => JUndefined
  end.

(** The two locals of [normalizeCopilotModels]. *)
Record Collected : Type := mkCollected {
  options : list INodeOptionsValue;
  seen : gset string
}.

Section WithTrim.

(** [String.prototype.trim], which the source takes from the language. *)
Variable trim : string -> string.

Definition normalizeBaseUrl (baseUrl : option string) : string :=
  match baseUrl with
  | None => DEFAULT_BASE_URL
  | Some url =>
      let trimmed := trim url in
      if negb (truthy (JStr trimmed)) then DEFAULT_BASE_URL
      else stripTrailingSlashes trimmed
  end.

(** [addModel]; a call of [.trim] on a value that is not a string is a
    [TypeError]. *)
Definition addModel (name label : JVal) (st : Collected) : Exn + Collected :=
  if negb (truthy name) then inr st
  else
    match name with
    | JStr n =>
        let trimmed := trim n in
        if negb (truthy (JStr trimmed)) || bool_decide (trimmed ∈ seen st) then inr st
        else
          let seen' := {[ trimmed ]} ∪ seen st in
          match label with
          | JUndefined | JNull =>
              inr (mkCollected (options st ++ [mkOption trimmed trimmed]) seen')
          | JStr l =>
              let shown := if truthy (JStr (trim l)) then trim l else trimmed in
              inr (mkCollected (options st ++ [mkOption shown trimmed]) seen')
          | _ => inl (JsTypeError "label.trim is not a function")
          end
    | _ => inl (JsTypeError "name.trim is not a function")
    end.

Definition readItem (item : JVal) (st : Collected) : Exn + Collected :=
  if negb (truthy item) then inr st
  else
    match item with
    | JStr _ => addModel item JUndefined st
    | JObject _ | JArray _ =>
        addModel
          (js_coalesce (js_coalesce (js_coalesce (member item "id") (member item "name"))
                                    (member item "model"))
                       (member item "slug"))
          (js_coalesce (js_coalesce (member item "label") (member item "display_name"))
                       (member item "displayName"))
          st
    | _ => inr st
    end.

(** [items.forEach(readItem)] *)
Fixpoint forEach (items : list JVal) (st : Collected) : Exn + Collected :=
  match items with
  | [] => inr st
  | item :: rest =>
      match readItem item st with
      | inl e => inl e
      | inr st' => forEach rest st'
      end
  end.

Definition collect (items : list JVal) : Exn + list INodeOptionsValue :=
  match forEach items (mkCollected [] ∅) with
  | inl e => inl e
  | inr st => inr (options st)
  end.

Definition normalizeCopilotModels (payload : JVal) : Exn + list INodeOptionsValue :=
  match payload with
  | JArray items => collect items
  | _ =>
      match member payload "data", member payload "models", member payload "items" with
      | JArray data, _, _ => collect data
      | _, JArray models, _ => collect models
      | _, _, JArray items => collect items
      | _, _, _ => inr []
      end
  end.

End WithTrim.

(** *** Vocabulary of the properties *)

(** The string ends with a slash. *)
Definition endsWithSlash (s : string) : Prop := exists front : string, s = front ++ "/".

(** [n] slashes. *)
Fixpoint slashes (n : nat) : string :=
  match n with
  | O => ""
  | S m => String "/"%char (slashes m)
  end.

(** An item that [readItem] passes over or reads without a type error:
    the name it offers is a string or falsy, and the label it offers is a
    string or nullish. *)
Definition readable (item : JVal) : Prop :=
  match item with
  | JObject _ | JArray _ =>
      let name := js_coalesce (js_coalesce (js_coalesce (member item "id")
                                                        (member item "name"))
                                           (member item "model"))
                              (member item "slug") in
      let label := js_coalesce (js_coalesce (member item "label")
                                            (member item "display_name"))
                               (member item "displayName") in
      (truthy name = false \/ exists n, name = JStr n) /\
      (nullish label = true \/ exists l, label = JStr l)
  | _ => True
  end.

(** The array that [normalizeCopilotModels] reads from a payload: the
    payload itself, or the first array among its [data], [models] and
    [items]; nothing when there is none. *)
Definition listed (payload : JVal) : list JVal :=
  match payload with
  | JArray items => items
  | _ =>
      match member payload "data", member payload "models", member payload "items" with
      | JArray data, _, _ => data
      | _, JArray models, _ => models
      | _, _, JArray items => items
      | _, _, _ => []
      end
  end.

(** The name that an object item offers. *)
Definition offeredName (item : JVal) : JVal :=
  js_coalesce (js_coalesce (js_coalesce (member item "id") (member item "name"))
                           (member item "model"))
              (member item "slug").

(** What [forEach] keeps true of the two locals: the names collected are
    distinct, [seen] holds exactly those names, and no name or label is
    empty. *)
Definition wellCollected (st : Collected) : Prop :=
  NoDup (name <$> options st) /\
  (forall n, n ∈ seen st <-> n ∈ (name <$> options st)) /\
  Forall (fun o => name o <> "" /\ label o <> "") (options st).

(** A sample [trim]: it removes the spaces at both ends. *)
Fixpoint trimLeft (s : string) : string :=
  match s with
  | String " "%char rest => trimLeft rest
  | _ => s
  end.

Fixpoint trimRight (s : string) : string :=
  match s with
  | EmptyString => EmptyString
  | String c rest =>
      let rest' := trimRight rest in
      if Ascii.eqb c " "%char && String.eqb rest' "" then "" else String c rest'
  end.

Definition trimSpaces (s : string) : string := trimRight (trimLeft s).

End CopilotModels.

(** ** modelLoader.ts *)

Module ModelLoader.
Import CopilotModels.

Inductive MODEL_TYPE : Type := CHAT | LLM | EMBEDDING.

(** The string value of the enum member. *)
Definition category_key (category : MODEL_TYPE) : string :=
  match category with
  | CHAT => "chat"
  | LLM => "llm"
  | EMBEDDING => "embedding"
  end.

Definition DEFAULT_MODEL_LIST_URL : string :=
  "https://raw.githubusercontent.com/FlowiseAI/Flowise/main/packages/components/models.json".

(** What [axios.get] resolves to. *)
Record HttpResponse : Type := mkHttpResponse { http_status : Z; http_data : JVal }.

(** The calls of the loader. A call that may reject gives what it threw
    or its value, so that the [try] blocks of the source can catch it. *)
Inductive LoaderE : Type -> Type :=
| AxiosGet (url : string) : LoaderE (Exn + HttpResponse)
| ExistsSync (path : string) : LoaderE bool
| ReadFile (path : string) : LoaderE (Exn + string).

(** What the source takes from the language and the process: the
    protocol that [new URL(s)] finds ([None] when it throws),
    [JSON.parse], [String(e)] for a caught value, the environment variable
    and the two paths joined from [__dirname]. *)
Record Runtime : Type := mkRuntime {
  urlProtocol : string -> option string;
  JSON_parse : string -> Exn + JVal;
  toString : Exn -> string;
  MODEL_LIST_CONFIG_JSON : option string;
  modelsJsonNear : string;
  modelsJsonFar : string
}.

Local Open Scope prog_scope.

Definition getModelsJSONPath (rt : Runtime) : Prog LoaderE string :=
  near <- call (ExistsSync (modelsJsonNear rt)) ;;
  if (near : bool) then Ret (modelsJsonNear rt)
  else
    far <- call (ExistsSync (modelsJsonFar rt)) ;;
    if (far : bool) then Ret (modelsJsonFar rt) else Ret "".

Definition getCategoryModels (models : JVal) (category : MODEL_TYPE) : list JVal :=
  match member models (category_key category) with
  | JArray categoryModels => categoryModels
  | _ => []
  end.

Definition isValidUrl (rt : Runtime) (urlString : string) : bool :=
  match urlProtocol rt urlString with
  | None => false
  | Some protocol => String.eqb protocol "http:" || String.eqb protocol "https:"
  end.

(** The [try] block of [getRawModelFile]. *)
Definition loadConfiguredModelFile (rt : Runtime) (modelFile : string)
  : Prog LoaderE (Exn + JVal) :=
  if isValidUrl rt modelFile then
    resp <- call (AxiosGet modelFile) ;;
    match resp with
    | inl e => Ret (inl e)
    | inr r =>
        if Z.eqb (http_status r) 200 && truthy (http_data r) then Ret (inr (http_data r))
        else Ret (inl (JsError "Error fetching model list"))
    end
  else
    present <- call (ExistsSync modelFile) ;;
    if (present : bool) then
      models <- call (ReadFile modelFile) ;;
      match models with
      | inl e => Ret (inl e)
      | inr text =>
          if truthy (JStr text) then Ret (JSON_parse rt text)
          else Ret (inl (JsError "Model file does not exist or is empty"))
      end
    else Ret (inl (JsError "Model file does not exist or is empty")).

Definition getRawModelFile (rt : Runtime) : Prog LoaderE (Exn + JVal) :=
  let modelFile := default DEFAULT_MODEL_LIST_URL (MODEL_LIST_CONFIG_JSON rt) in
  attempt <- loadConfiguredModelFile rt modelFile ;;
  match attempt with
  | inr models => Ret (inr models)
  | inl _ =>
      path <- getModelsJSONPath rt ;;
      models <- call (ReadFile path) ;;
      match models with
      | inl e => Ret (inl e)
      | inr text =>
          if truthy (JStr text) then Ret (JSON_parse rt text) else Ret (inr (JObject []))
      end
  end.

Definition getDefaultModelFile (rt : Runtime) : Prog LoaderE JVal :=
  path <- getModelsJSONPath rt ;;
  models <- call (ReadFile path) ;;
  match models with
  | inl _ => Ret (JObject [])
  | inr text =>
      if truthy (JStr text) then
        match JSON_parse rt text with
        | inl _ => Ret (JObject [])
        | inr parsed => Ret parsed
        end
      else Ret (JObject [])
  end.

(** [models.find((model) => model.name === name)]; reading [name] off
    [null] or [undefined] is a [TypeError]. *)
Fixpoint findByName (models : list JVal) (name : string) : Exn + JVal :=
  match models with
  | [] => inr JUndefined
  | model :: rest =>
      match model with
      | JNull => inl (JsTypeError "Cannot read properties of null (reading 'name')")
      | JUndefined =>
          inl (JsTypeError "Cannot read properties of undefined (reading 'name')")
      | _ =>
          if strict_eq_str (member model "name") name then inr model
          else findByName rest name
      end
  end.

Definition getModelConfig (rt : Runtime) (category : MODEL_TYPE) (name : string)
  : Prog LoaderE (Exn + JVal) :=
  models <- getRawModelFile rt ;;
  match models with
  | inl e => Ret (inl e)
  | inr models =>
      match findByName (getCategoryModels models category) name with
      | inl e => Ret (inl e)
      | inr modelConfig =>
          if negb (truthy modelConfig) then
            fallbackModels <- getDefaultModelFile rt ;;
            Ret (findByName (getCategoryModels fallbackModels category) name)
          else Ret (inr modelConfig)
      end
  end.

Definition getModels (rt : Runtime) (category : MODEL_TYPE) (name : string)
  : Prog LoaderE (Exn + list JVal) :=
  modelConfig <- getModelConfig rt category name ;;
  match modelConfig with
  | inl e => Ret (inl (JsError ("Error: getModels - " ++ toString rt e)))
  | inr modelConfig =>
      if negb (truthy modelConfig) then Ret (inr [])
      else
        match member modelConfig "models" with
        | JArray models => Ret (inr models)
        | _ => Ret (inr [])
        end
  end.

Definition getRegions (rt : Runtime) (category : MODEL_TYPE) (name : string)
  : Prog LoaderE (Exn + list JVal) :=
  modelConfig <- getModelConfig rt category name ;;
  match modelConfig with
  | inl e => Ret (inl (JsError ("Error: getRegions - " ++ toString rt e)))
  | inr modelConfig =>
      if negb (truthy modelConfig) then Ret (inr [])
      else
        match member modelConfig "regions" with
        | JArray regions => Ret (inr regions)
        | _ => Ret (inr [])
        end
  end.

(** *** The machine the loader runs on *)

(** The disk and the web, as the loader sees them. *)
Record Outside : Type := mkOutside {
  web : string -> Exn + HttpResponse;
  existsSync : string -> bool;
  readFile : string -> Exn + string
}.

Definition load (out : Outside) : Handler LoaderE unit :=
  fun X ev =>
    match ev in LoaderE X return unit -> (Exn + X) * unit with
    | AxiosGet url => fun w => (inr (web out url), w)
    | ExistsSync path => fun w => (inr (existsSync out path), w)
    | ReadFile path => fun w => (inr (readFile out path), w)
    end.

(** What a loader program returns on the machine. *)
Definition result {R : Type} (out : Outside) (p : Prog LoaderE R) : Exn + R :=
  fst (run (load out) p tt).

(** The calls it makes. *)
Definition calls {R : Type} (out : Outside) (p : Prog LoaderE R) : list (Logged LoaderE) :=
  trace (load out) p tt.

(** *** Vocabulary of the properties *)

(** [path] is what [getModelsJSONPath] looks for: the first of the two
    candidate paths that exists, and the empty path when neither does. *)
Definition defaultModelsPath (out : Outside) (rt : Runtime) (path : string) : Prop :=
  (existsSync out (modelsJsonNear rt) = true /\ path = modelsJsonNear rt) \/
  (existsSync out (modelsJsonNear rt) = false /\
   existsSync out (modelsJsonFar rt) = true /\ path = modelsJsonFar rt) \/
  (existsSync out (modelsJsonNear rt) = false /\
   existsSync out (modelsJsonFar rt) = false /\ path = "").

(** The configured model file cannot be loaded: it is a URL and the
    request fails, or answers with another status than 200 or with no
    data; or it is not a URL and the file is missing, unreadable, empty
    or not JSON. *)
Definition configuredFileFails (out : Outside) (rt : Runtime) : Prop :=
  let modelFile := default DEFAULT_MODEL_LIST_URL (MODEL_LIST_CONFIG_JSON rt) in
  (isValidUrl rt modelFile = true /\
   ((exists e, web out modelFile = inl e) \/
    (exists r, web out modelFile = inr r /\
               (http_status r <> 200%Z \/ truthy (http_data r) = false)))) \/
  (isValidUrl rt modelFile = false /\
   (existsSync out modelFile = false \/
    (existsSync out modelFile = true /\
     ((exists e, readFile out modelFile = inl e) \/
      readFile out modelFile = inr "" \/
      (exists text e, readFile out modelFile = inr text /\ text <> "" /\
                      JSON_parse rt text = inl e))))).

(** A model file is well formed for a category when the list it holds
    for the category has no [null] entry. *)
Definition noNullEntry (models : list JVal) : Prop :=
  Forall (fun model => model <> JNull /\ model <> JUndefined) models.

(** *** Sample machines *)

(** A runtime in which every string that starts with "https://" is an
    https URL and nothing else is a URL, every text parses to [parsed],
    and no model file is configured. *)
Definition sampleRuntime (parsed : JVal) : Runtime :=
  mkRuntime (fun s => if String.prefix "https://" s then Some "https:" else None)
            (fun _ => inr parsed)
            (fun e => match e with
                      | JsError m => "Error: " ++ m
                      | JsTypeError m => "TypeError: " ++ m
                      | JsThrown => "undefined"
                      end)
            None "/app/dist/models.json" "/app/models.json".

(** A machine without network whose only file is /app/models.json. *)
Definition offlineMachine : Outside :=
  mkOutside (fun _ => inl (JsError "getaddrinfo ENOTFOUND"))
            (fun path => String.eqb path "/app/models.json")
            (fun path => if String.eqb path "/app/models.json" then inr "{...}"
                         else inl (JsError "ENOENT: no such file or directory")).

(** A machine on which every URL answers 200 with [data]. *)
Definition onlineMachine (data : JVal) : Outside :=
  mkOutside (fun _ => inr (mkHttpResponse 200 data))
            (fun path => String.eqb path "/app/models.json")
            (fun path => if String.eqb path "/app/models.json" then inr "{...}"
                         else inl (JsError "ENOENT: no such file or directory")).

(** A model file with one chat provider. *)
Definition sampleModelFile : JVal :=
  JObject [ ("chat",
     JArray [ JObject [ ("name", JStr "chatOpenAI"); ("models", JArray [ JStr "gpt-4o" ]) ];
              JObject [ ("name", JStr "chatGitHubCopilot");
                        ("models", JArray [ JObject [ ("label", JStr "gpt-4o");
                                                      ("name", JStr "gpt-4o") ] ]) ] ]) ].

End ModelLoader.

(** ** ChatGitHubCopilot.ts: listing the models *)

Module CopilotList.
Import Copilot CopilotModels.

Definition COPILOT_MODEL_LIST_PATH : string := "/models".

(** [obj[key] = value] on a headers object: a property that exists keeps
    its place and takes the value, a new one comes last. *)
Fixpoint assign (h : Headers) (key value : string) : Headers :=
  match h with
  | [] => [ (key, value) ]
  | (k, v) :: rest =>
      if String.eqb k key then (k, value) :: rest else (k, v) :: assign rest key value
  end.

(** [{ ...h, ...more }] *)
Definition spread (h more : Headers) : Headers :=
  List.fold_left (fun acc kv => assign acc (fst kv) (snd kv)) more h.

(** The response of [fetch] on the model list: as [FetchResponse], with
    the JSON of any shape; [text()] and [json()] may reject. *)
Record ModelsResponse : Type := mkModelsResponse {
  models_ok : bool;
  models_status : string;
  models_statusText : string;
  models_text : Exn + string;
  models_json : Exn + JVal
}.

(** The [baseOptions] input: absent, an object of headers, or a text. *)
Inductive BaseOptions : Type :=
| NoBaseOptions
| HeadersObject (h : Headers)
| HeadersText (text : string).

(** The properties of the node data that [listModels] reads, at the
    types the source gives them. *)
Record INodeData : Type := mkNodeData {
  inputs_credentialId : option string;
  credential : option string;
  inputs_basepath : option string;
  inputs_baseOptions : BaseOptions
}.

(** What [listModels] takes from elsewhere: [trim] and [JSON.parse] of
    the language, [String(e)] for a caught value, the fallback list of
    [getModels(MODEL_TYPE.CHAT, 'chatGitHubCopilot')], the helpers
    [getCredentialData] and [getCredentialParam('githubAccessToken', ..)]
    of the components' utilities, and the model list endpoint. *)
Record ListPlatform : Type := mkListPlatform {
  core : Platform;
  trim : string -> string;
  parseHeaders : string -> Exn + option Headers;
  describe : Exn -> string;
  fallbackList : Exn + list JVal;
  getCredentialData : string -> Exn + ICommonObject;
  githubAccessTokenOf : ICommonObject -> INodeData -> option string;
  modelsEndpoint : FetchRequest -> Exn + ModelsResponse
}.

Definition parseAdditionalHeaders (lp : ListPlatform) (baseOptions : BaseOptions)
  : Exn + option Headers :=
  match baseOptions with
  | NoBaseOptions => inr None
  | HeadersObject h => inr (Some h)
  | HeadersText text =>
      if negb (truthy (JStr text)) then inr None
      else
        match parseHeaders lp text with
        | inl exception =>
            inl (JsError ("Invalid JSON in the GitHub Copilot's Additional Headers: "
                          ++ describe lp exception))
        | inr parsed => inr parsed
        end
  end.

Definition modelsRequest (lp : ListPlatform) (copilotToken baseUrl : string)
    (additionalHeaders : option Headers) : FetchRequest :=
  mkFetchRequest
    (normalizeBaseUrl (trim lp) (Some baseUrl) ++ COPILOT_MODEL_LIST_PATH)
    (spread (spread [ ("Authorization", "Bearer " ++ copilotToken);
                      ("Accept", "application/json") ]
                    COPILOT_HEADERS)
            (default [] additionalHeaders)).

Definition fetchCopilotModels (lp : ListPlatform) (copilotToken baseUrl : string)
    (additionalHeaders : option Headers) : Exn + list INodeOptionsValue :=
  match modelsEndpoint lp (modelsRequest lp copilotToken baseUrl additionalHeaders) with
  | inl e => inl e
  | inr response =>
      if negb (models_ok response) then
        match models_text response with
        | inl e => inl e
        | inr errorText =>
            inl (JsError ("Failed to get Copilot models: " ++ models_status response ++ " "
                          ++ models_statusText response ++ " - " ++ errorText))
        end
      else
        match models_json response with
        | inl e => inl e
        | inr data => normalizeCopilotModels (trim lp) data
        end
  end.

(** An option as the value the caller receives. *)
Definition optionValue (o : INodeOptionsValue) : JVal :=
  JObject [ ("label", JStr (label o)); ("name", JStr (name o)) ].

(** The [try] block of [listModels] and its [catch]: every failure of
    the token exchange and of the model fetch ends in the fallback list. *)
Definition listFetchedModels (lp : ListPlatform) (fallbackModels : list JVal)
    (tokenCacheKey githubAccessToken : string) (credentialData : ICommonObject)
    (baseUrl : string) (additionalHeaders : option Headers) (cacheKey : string) (w : World)
  : list JVal * World :=
  match run (handle (core lp))
            (getCopilotToken tokenCacheKey githubAccessToken credentialData) w with
  | (inl _, w1) => (fallbackModels, w1)
  | (inr copilotToken, w1) =>
      match fetchCopilotModels lp copilotToken baseUrl additionalHeaders with
      | inl _ => (fallbackModels, w1)
      | inr [] => (fallbackModels, w1)
      | inr models =>
          (optionValue <$> models,
           snd (run (handle (core lp)) (cacheCopilotModels cacheKey models) w1))
      end
  end.

Definition listModels (lp : ListPlatform) (nodeData : INodeData) (w : World)
  : (Exn + list JVal) * World :=
  match fallbackList lp with
  | inl e => (inl e, w)
  | inr fallbackModels =>
      let credentialId :=
        js_or (of_opt_string (inputs_credentialId nodeData))
              (of_opt_string (credential nodeData)) in
      match credentialId with
      | JStr credentialId =>
          if negb (truthy (JStr credentialId)) then (inr fallbackModels, w)
          else
            match getCredentialData lp credentialId with
            | inl e => (inl e, w)
            | inr credentialData =>
                match githubAccessTokenOf lp credentialData nodeData with
                | None => (inr fallbackModels, w)
                | Some githubAccessToken =>
                    if negb (truthy (JStr githubAccessToken)) then (inr fallbackModels, w)
                    else
                      let baseUrl := normalizeBaseUrl (trim lp) (inputs_basepath nodeData) in
                      match parseAdditionalHeaders lp (inputs_baseOptions nodeData) with
                      | inl e => (inl e, w)
                      | inr additionalHeaders =>
                          let tokenCacheKey :=
                            if truthy (JStr credentialId) then credentialId
                            else githubAccessToken in
                          let cacheKey :=
                            buildModelCacheKey tokenCacheKey baseUrl additionalHeaders in
                          match run (handle (core lp)) (getCachedCopilotModels cacheKey) w with
                          | (inr (Some cachedModels), w1) =>
                              (inr (optionValue <$> cachedModels), w1)
                          | (_, w1) =>
                              let '(models, w2) :=
                                listFetchedModels lp fallbackModels tokenCacheKey
                                  githubAccessToken credentialData baseUrl
                                  additionalHeaders cacheKey w1 in
                              (inr models, w2)
                          end
                      end
                end
            end
      | _ => (inr fallbackModels, w)
      end
  end.

(** *** Vocabulary of the properties *)

(** The node data names a credential that holds an access token, and the
    additional headers can be read: [listModels] gets as far as the model
    cache, with this credential id, credential data, access token and
    headers. *)
Definition listsWith (lp : ListPlatform) (nodeData : INodeData) (fallbackModels : list JVal)
    (credentialId : string) (credentialData : ICommonObject) (githubAccessToken : string)
    (additionalHeaders : option Headers) : Prop :=
  fallbackList lp = inr fallbackModels /\
  js_or (of_opt_string (inputs_credentialId nodeData)) (of_opt_string (credential nodeData))
  = JStr credentialId /\
  credentialId <> "" /\
  getCredentialData lp credentialId = inr credentialData /\
  githubAccessTokenOf lp credentialData nodeData = Some githubAccessToken /\
  githubAccessToken <> "" /\
  parseAdditionalHeaders lp (inputs_baseOptions nodeData) = inr additionalHeaders.

(** The key under which [listModels] caches the list. *)
Definition modelCacheKey (lp : ListPlatform) (nodeData : INodeData) (credentialId : string)
    (additionalHeaders : option Headers) : string :=
  buildModelCacheKey credentialId
    (normalizeBaseUrl (trim lp) (inputs_basepath nodeData)) additionalHeaders.

(** *** Sample platforms *)

(** One credential "cred-1" with an access token; the token exchange
    answers with a token that expires at 2000 s, and the model list
    endpoint answers with [payload]. *)
Definition listing (payload : JVal) : ListPlatform :=
  mkListPlatform (online (mkTokenPayload "tid=1" 2000)) trimSpaces
    (fun _ => inr None)
    (fun e => match e with
              | JsError m => "Error: " ++ m
              | JsTypeError m => "TypeError: " ++ m
              | JsThrown => "undefined"
              end)
    (inr [ JObject [ ("label", JStr "gpt-4o"); ("name", JStr "gpt-4o") ] ])
    (fun _ => inr noStored)
    (fun _ _ => Some "gho_abc")
    (fun _ => inr (mkModelsResponse true "200" "OK" (inr "") (inr payload))).

(** The same, with the network down for both endpoints. *)
Definition unplugged : ListPlatform :=
  mkListPlatform offline trimSpaces
    (fun _ => inr None)
    (fun e => match e with
              | JsError m => "Error: " ++ m
              | JsTypeError m => "TypeError: " ++ m
              | JsThrown => "undefined"
              end)
    (inr [ JObject [ ("label", JStr "gpt-4o"); ("name", JStr "gpt-4o") ] ])
    (fun _ => inr noStored)
    (fun _ _ => Some "gho_abc")
    (fun _ => inl (JsError "network down")).

Definition nodeOf (credentialId : string) : INodeData :=
  mkNodeData None (Some credentialId) None NoBaseOptions.

(** The platform [lp] with other answers of the two endpoints. *)
Definition withNetwork (lp : ListPlatform)
    (exchange : FetchRequest -> Exn + FetchResponse)
    (endpoint : FetchRequest -> Exn + ModelsResponse) : ListPlatform :=
  mkListPlatform (mkPlatform (clock (core lp)) exchange) (trim lp) (parseHeaders lp)
    (describe lp) (fallbackList lp) (getCredentialData lp) (githubAccessTokenOf lp) endpoint.

End CopilotList.

(** * Properties *)

(** ** Running programs *)

Section RunLemmas.
Context {E : Type -> Type} {W : Type} (h : Handler E W).

Lemma run_bind {A B : Type} (p : Prog E A) (f : A -> Prog E B) (w : W) :
  run h (bind p f) w =
  match run h p w with
  | (inl e, w') => (inl e, w')
  | (inr a, w') => run h (f a) w'
  end.
Proof.
  revert w. induction p as [a | e | X ev k IH]; intros w; simpl; try reflexivity.
  destruct (h X ev w) as [[e | x] w']; [reflexivity | apply IH].
Qed.

Lemma trace_bind {A B : Type} (p : Prog E A) (f : A -> Prog E B) (w : W) :
  trace h (bind p f) w =
  (trace h p w ++
   match run h p w with
   | (inl _, _) => []
   | (inr a, w') => trace h (f a) w'
   end)%list.
Proof.
  revert w. induction p as [a | e | X ev k IH]; intros w; simpl; try reflexivity.
  destruct (h X ev w) as [[e | x] w']; [reflexivity | by rewrite IH].
Qed.
End RunLemmas.

(** ** Comparisons on numbers *)

Lemma Qgtb_true (x y : Q) : Qgtb x y = true <-> (y < x)%Q.
Proof.
  unfold Qgtb. rewrite negb_true_iff. split.
  - intros Hb. apply Qnot_le_lt. intros Hle. apply Qle_bool_iff in Hle. congruence.
  - intros Hlt. destruct (Qle_bool x y) eqn:Hb; [| reflexivity].
    apply Qle_bool_iff in Hb. exfalso. exact (Qlt_not_le _ _ Hlt Hb).
Qed.

Lemma Qgtb_false (x y : Q) : Qgtb x y = false <-> (x <= y)%Q.
Proof.
  unfold Qgtb. rewrite negb_false_iff. apply Qle_bool_iff.
Qed.

Lemma truthy_JStr (s : string) : truthy (JStr s) = true <-> s <> "".
Proof.
  simpl. rewrite negb_true_iff. split.
  - intros Hb ->. discriminate.
  - intros Hne. destruct (String.eqb_spec s ""); [contradiction | reflexivity].
Qed.

Lemma truthy_JNum (n : Q) : truthy (JNum n) = true <-> ~ (n == 0)%Q.
Proof.
  simpl. rewrite negb_true_iff. split.
  - intros Hb Heq. apply Qeq_bool_iff in Heq. congruence.
  - intros Hne. destruct (Qeq_bool n 0) eqn:Hb; [| reflexivity].
    apply Qeq_bool_iff in Hb. contradiction.
Qed.

(** ** Rounding to binary64 *)

Local Open Scope Q_scope.

Lemma pow2_pos (k : Z) : 0 < pow2 k.
Proof. apply Qpower_0_lt. reflexivity. Qed.

Lemma pow2_add (a b : Z) : pow2 (a + b) == pow2 a * pow2 b.
Proof. apply Qpower_plus. discriminate. Qed.

Lemma pow2_Z (k : Z) : (0 <= k)%Z -> pow2 k == inject_Z (2 ^ k).
Proof. intros Hk. unfold pow2. symmetry. apply (Zpower_Qpower 2 k Hk). Qed.

Lemma pow2_le (a b : Z) : (a <= b)%Z -> pow2 a <= pow2 b.
Proof. intros H. apply Qpower_le_compat_l; [exact H | discriminate]. Qed.

Lemma pow2_lt_inv (a b : Z) : pow2 a < pow2 b -> (a < b)%Z.
Proof. intros H. apply (Qpower_lt_compat_l_inv 2); [exact H | reflexivity]. Qed.

Lemma pow2_opp (k : Z) : pow2 (- k) * pow2 k == 1.
Proof.
  rewrite <- pow2_add. replace (- k + k)%Z with 0%Z by lia. reflexivity.
Qed.

(** A multiple of 2^e is an integer multiple of any smaller power. *)
Lemma on_grid (z e E : Z) :
  (E <= e)%Z -> inject_Z z * pow2 e == inject_Z (z * 2 ^ (e - E)) * pow2 E.
Proof.
  intros HE. rewrite inject_Z_mult, <- (pow2_Z (e - E)) by lia.
  rewrite <- Qmult_assoc, <- pow2_add. replace (e - E + E)%Z with e by lia. reflexivity.
Qed.


Lemma ilog2_spec (x : Q) : 0 < x -> pow2 (ilog2 x) <= x /\ x < pow2 (ilog2 x + 1).
Proof.
  intros Hx. destruct x as [a b].
  assert (0 < a)%Z as Ha by (unfold Qlt in Hx; cbn in Hx; lia).
  unfold ilog2. cbn [Qnum Qden].
  pose proof (Z.log2_spec a Ha) as [Ha1 Ha2].
  pose proof (Z.log2_spec (Zpos b) eq_refl) as [Hb1 Hb2].
  pose proof (Z.log2_nonneg a) as Hla. pose proof (Z.log2_nonneg (Zpos b)) as Hlb.
  set (la := Z.log2 a) in *. set (lb := Z.log2 (Zpos b)) in *.
  rewrite <- Z.add_1_r in Ha2, Hb2.
  assert (pow2 la <= inject_Z a) as HA1.
  { rewrite pow2_Z by exact Hla. rewrite <- Zle_Qle. exact Ha1. }
  assert (inject_Z a < pow2 (la + 1)) as HA2.
  { rewrite pow2_Z by lia. rewrite <- Zlt_Qlt. exact Ha2. }
  assert (pow2 lb <= inject_Z (Zpos b)) as HB1.
  { rewrite pow2_Z by exact Hlb. rewrite <- Zle_Qle. exact Hb1. }
  assert (inject_Z (Zpos b) < pow2 (lb + 1)) as HB2.
  { rewrite pow2_Z by lia. rewrite <- Zlt_Qlt. exact Hb2. }
  assert (0 < inject_Z (Zpos b)) as HB0 by reflexivity.
  assert ((a # b) * inject_Z (Zpos b) == inject_Z a) as Hx'.
  { rewrite Qmake_Qdiv. field. discriminate. }
  set (x := a # b) in *.
  assert (x < pow2 (la - lb + 1)) as Hhigh.
  { apply (Qmult_lt_r _ _ (inject_Z (Zpos b)) HB0). rewrite Hx'.
    apply Qlt_le_trans with (pow2 (la + 1)); [exact HA2 |].
    replace (la + 1)%Z with ((la - lb + 1) + lb)%Z by lia. rewrite pow2_add.
    apply Qmult_le_l; [apply pow2_pos | exact HB1]. }
  assert (pow2 (la - lb - 1) <= x) as Hlow.
  { apply (Qmult_lt_0_le_reg_r _ _ (inject_Z (Zpos b)) HB0). rewrite Hx'.
    apply Qle_trans with (pow2 la); [| exact HA1].
    replace la with ((la - lb - 1) + (lb + 1))%Z at 2 by lia. rewrite pow2_add.
    apply Qmult_le_l; [apply pow2_pos | apply Qlt_le_weak, HB2]. }
  destruct (Qle_bool (pow2 (la - lb)) x) eqn:Htest.
  - apply Qle_bool_iff in Htest. split; [exact Htest | exact Hhigh].
  - split; [exact Hlow |].
    replace (la - lb - 1 + 1)%Z with (la - lb)%Z by lia.
    apply Qnot_le_lt. intros Hle. apply Qle_bool_iff in Hle. congruence.
Qed.

Lemma ilog2_lt (x : Q) (c : Z) : 0 < x -> x < pow2 c -> (ilog2 x < c)%Z.
Proof.
  intros Hx Hc. destruct (ilog2_spec x Hx) as [Hl _].
  apply pow2_lt_inv. exact (Qle_lt_trans _ _ _ Hl Hc).
Qed.

Lemma ilog2_ge (x : Q) (c : Z) : pow2 c <= x -> (c <= ilog2 x)%Z.
Proof.
  intros Hc. assert (0 < x) as Hx by exact (Qlt_le_trans _ _ _ (pow2_pos c) Hc).
  destruct (ilog2_spec x Hx) as [_ Hu].
  assert (c < ilog2 x + 1)%Z; [| lia].
  apply pow2_lt_inv. exact (Qle_lt_trans _ _ _ Hc Hu).
Qed.

(** Rounding to the nearest integer. *)

Lemma rne_bounds (q : Q) : (Qfloor q <= rne q <= Qfloor q + 1)%Z.
Proof. unfold rne. destruct (_ ?= _)%Q; [destruct (Z.even _) | |]; lia. Qed.

Lemma rne_ge_int (q : Q) (k : Z) : inject_Z k <= q -> (k <= rne q)%Z.
Proof.
  intros Hk. apply Qfloor_resp_le in Hk. rewrite Qfloor_Z in Hk.
  pose proof (rne_bounds q). lia.
Qed.

Lemma rne_le_int (q : Q) (k : Z) : q <= inject_Z k -> (rne q <= k)%Z.
Proof.
  intros Hk. pose proof (Qfloor_le q) as Hf.
  assert (Qfloor q <= k)%Z as Hfk.
  { rewrite Zle_Qle. exact (Qle_trans _ _ _ Hf Hk). }
  unfold rne. set (f := Qfloor q) in *.
  assert (0 < q - inject_Z f -> (f + 1 <= k)%Z) as Hup.
  { intros Hpos. assert (f < k)%Z; [| lia]. rewrite Zlt_Qlt. lra. }
  destruct (Qcompare_spec (q - inject_Z f) (1 # 2)) as [He | Hl | Hg].
  - destruct (Z.even f); [exact Hfk |]. apply Hup. lra.
  - exact Hfk.
  - apply Hup. lra.
Qed.

Lemma rne_error (q : Q) : q - (1 # 2) <= inject_Z (rne q) /\ inject_Z (rne q) <= q + (1 # 2).
Proof.
  pose proof (Qfloor_le q) as Hf. pose proof (Qlt_floor q) as Hc.
  rewrite inject_Z_plus in Hc. change (inject_Z 1) with 1 in Hc.
  unfold rne. set (f := Qfloor q) in *.
  destruct (Qcompare_spec (q - inject_Z f) (1 # 2)) as [He | Hl | Hg].
  - destruct (Z.even f); [| rewrite inject_Z_plus; change (inject_Z 1) with 1];
      split; lra.
  - split; lra.
  - rewrite inject_Z_plus. change (inject_Z 1) with 1. split; lra.
Qed.

(** Rounding a positive number. *)

Lemma roundPositive_ge (x : Q) (k : Z) :
  inject_Z k * pow2 (ulpExponent x) <= x -> inject_Z k * pow2 (ulpExponent x) <= roundPositive x.
Proof.
  intros Hk. unfold roundPositive. pose proof (pow2_pos (ulpExponent x)) as Hs.
  apply Qmult_le_r; [exact Hs |]. rewrite <- Zle_Qle. apply rne_ge_int.
  apply Qle_shift_div_l; assumption.
Qed.

Lemma roundPositive_le (x : Q) (k : Z) :
  x <= inject_Z k * pow2 (ulpExponent x) -> roundPositive x <= inject_Z k * pow2 (ulpExponent x).
Proof.
  intros Hk. unfold roundPositive. pose proof (pow2_pos (ulpExponent x)) as Hs.
  apply Qmult_le_r; [exact Hs |]. rewrite <- Zle_Qle. apply rne_le_int.
  apply Qle_shift_div_r; assumption.
Qed.

Lemma roundPositive_error (x : Q) :
  x - pow2 (ulpExponent x - 1) <= roundPositive x /\
  roundPositive x <= x + pow2 (ulpExponent x - 1).
Proof.
  unfold roundPositive. pose proof (pow2_pos (ulpExponent x)) as Hs.
  set (s := pow2 (ulpExponent x)) in *.
  assert (pow2 (ulpExponent x - 1) == s * (1 # 2)) as ->.
  { unfold Z.sub. rewrite pow2_add. reflexivity. }
  destruct (rne_error (x / s)) as [Hl Hu].
  assert (x == (x / s) * s) as Hxs by (field; lra).
  set (q := x / s) in *. set (m := inject_Z (rne q)) in *.
  assert ((q - (1 # 2)) * s <= m * s) as Hl' by (apply Qmult_le_r; assumption).
  assert (m * s <= (q + (1 # 2)) * s) as Hu' by (apply Qmult_le_r; assumption).
  split; lra.
Qed.

Lemma double_positive (x : Q) : 0 < x -> double x = roundPositive x.
Proof.
  intros Hx.
  destruct x as [[| p | p] d]; [| reflexivity |]; unfold Qlt in Hx; cbn in Hx; lia.
Qed.

Lemma ulpExponent_le (x : Q) (c : Z) :
  0 < x -> x < pow2 (c + 53) -> (-1074 <= c)%Z -> (ulpExponent x <= c)%Z.
Proof.
  intros Hx Hc Hmin. pose proof (ilog2_lt x _ Hx Hc). unfold ulpExponent. lia.
Qed.

Lemma ulpExponent_normal (x : Q) :
  1 <= x -> ulpExponent x = (ilog2 x - 52)%Z /\ pow2 (ulpExponent x + 52) <= x.
Proof.
  intros Hx. pose proof (ilog2_ge x 0 Hx) as Hl.
  assert (ulpExponent x = ilog2 x - 52)%Z as -> by (unfold ulpExponent; lia).
  split; [reflexivity |]. replace (ilog2 x - 52 + 52)%Z with (ilog2 x) by lia.
  apply ilog2_spec. lra.
Qed.

Lemma double_zero (x : Q) : x == 0 -> double x = 0.
Proof.
  destruct x as [[| p | p] d]; [reflexivity | |]; intros H; unfold Qeq in H; cbn in H; lia.
Qed.

Lemma double_le_grid (x : Q) (z e : Z) :
  0 < x -> x < pow2 (e + 53) -> (-1074 <= e)%Z ->
  x <= inject_Z z * pow2 e -> double x <= inject_Z z * pow2 e.
Proof.
  intros Hx He Hmin Hz. pose proof (ulpExponent_le x e Hx He Hmin) as HE.
  rewrite (double_positive x Hx). rewrite (on_grid z e _ HE) in Hz |- *.
  apply roundPositive_le; assumption.
Qed.

Lemma double_ge_grid (x : Q) (z e : Z) :
  0 < x -> x < pow2 (e + 53) -> (-1074 <= e)%Z ->
  inject_Z z * pow2 e <= x -> inject_Z z * pow2 e <= double x.
Proof.
  intros Hx He Hmin Hz. pose proof (ulpExponent_le x e Hx He Hmin) as HE.
  rewrite (double_positive x Hx). rewrite (on_grid z e _ HE) in Hz |- *.
  apply roundPositive_ge; assumption.
Qed.

Lemma double_error (x : Q) (e : Z) :
  0 <= x -> x < pow2 (e + 53) -> (-1074 <= e)%Z ->
  x - pow2 (e - 1) <= double x /\ double x <= x + pow2 (e - 1).
Proof.
  intros Hx He Hmin. destruct (Qlt_le_dec 0 x) as [Hpos | Hneg].
  - pose proof (ulpExponent_le x e Hpos He Hmin) as HE.
    rewrite (double_positive x Hpos).
    destruct (roundPositive_error x) as [Hl Hu].
    assert (pow2 (ulpExponent x - 1) <= pow2 (e - 1)) as Hp by (apply pow2_le; lia).
    split; lra.
  - assert (x == 0) as H0 by lra. rewrite (double_zero x H0).
    pose proof (pow2_pos (e - 1)). split; lra.
Qed.

Lemma Qfloor_unique (y : Q) (q : Z) :
  inject_Z q <= y -> y < inject_Z (q + 1) -> Qfloor y = q.
Proof.
  intros Hl Hu. apply Qfloor_resp_le in Hl. rewrite Qfloor_Z in Hl.
  pose proof (Qfloor_le y) as Hf.
  assert (Qfloor y < q + 1)%Z; [| lia].
  rewrite Zlt_Qlt. exact (Qle_lt_trans _ _ _ Hf Hu).
Qed.

(** Whole milliseconds up to the largest time value: the quotient by
    1000, rounded, has the whole seconds of the exact quotient. *)
Lemma floor_double_milliseconds (n : Z) :
  (0 < n <= 8640000000000000)%Z ->
  Qfloor (double (inject_Z n / 1000)) = (n / 1000)%Z.
Proof.
  intros [Hlow Hhigh].
  pose proof (Z.div_mod n 1000 ltac:(lia)) as Hdiv.
  pose proof (Z.mod_pos_bound n 1000 ltac:(lia)) as Hmod.
  set (q := (n / 1000)%Z) in *. set (r := (n mod 1000)%Z) in *.
  assert (inject_Z n == 1000 * inject_Z q + inject_Z r) as Hn.
  { rewrite Hdiv, inject_Z_plus, inject_Z_mult. reflexivity. }
  assert (0 <= inject_Z r) as Hr0 by (change 0 with (inject_Z 0); rewrite <- Zle_Qle; lia).
  assert (inject_Z r <= 999) as Hr1
    by (change 999 with (inject_Z 999); rewrite <- Zle_Qle; lia).
  assert (0 < inject_Z n) as Hn0 by (change 0 with (inject_Z 0); rewrite <- Zlt_Qlt; lia).
  assert (inject_Z n <= 8640000000000000) as Hn1
    by (change 8640000000000000 with (inject_Z 8640000000000000); rewrite <- Zle_Qle; lia).
  set (x := inject_Z n / 1000).
  assert (x == inject_Z n * (1 # 1000)) as Hx by reflexivity.
  assert (0 < x) as Hx0 by lra.
  assert (pow2 (-10 + 53) == 8796093022208) as Hp43 by reflexivity.
  assert (x < pow2 (-10 + 53)) as Hx1 by lra.
  assert (pow2 (-10) == 1 # 1024) as Hp10 by reflexivity.
  apply Qfloor_unique.
  - assert (inject_Z (q * 1024) * pow2 (-10) <= double x) as H.
    { apply double_ge_grid; try assumption; [lia |].
      rewrite inject_Z_mult, Hp10. change (inject_Z 1024) with 1024. lra. }
    rewrite inject_Z_mult, Hp10 in H. change (inject_Z 1024) with 1024 in H. lra.
  - assert (double x <= inject_Z ((q + 1) * 1024 + -1) * pow2 (-10)) as H.
    { apply double_le_grid; try assumption; [lia |].
      rewrite inject_Z_plus, inject_Z_mult, inject_Z_plus, Hp10.
      change (inject_Z 1024) with 1024. change (inject_Z 1) with 1.
      change (inject_Z (-1)) with (-1). lra. }
    rewrite inject_Z_plus, inject_Z_mult, inject_Z_plus, Hp10 in H.
    change (inject_Z 1024) with 1024 in H. change (inject_Z 1) with 1 in H.
    change (inject_Z (-1)) with (-1) in H.
    rewrite inject_Z_plus. change (inject_Z 1) with 1. lra.
Qed.

(** From 1 on, rounding moves a number by at most its 2^-53-th part. *)
Lemma double_relative (x : Q) :
  1 <= x -> x * (1 - pow2 (-53)) <= double x /\ double x <= x * (1 + pow2 (-53)).
Proof.
  intros Hx. rewrite (double_positive x) by lra.
  destruct (roundPositive_error x) as [Hl Hu].
  destruct (ulpExponent_normal x Hx) as [_ Hn].
  assert (pow2 (ulpExponent x - 1) == pow2 (ulpExponent x + 52) * pow2 (-53)) as Hp.
  { rewrite <- pow2_add. replace (ulpExponent x + 52 + -53)%Z with (ulpExponent x - 1)%Z by lia.
    reflexivity. }
  assert (pow2 (ulpExponent x + 52) * pow2 (-53) <= x * pow2 (-53)) as Hq.
  { apply Qmult_le_r; [apply pow2_pos | exact Hn]. }
  split; lra.
Qed.

Lemma double_le_int (x : Q) (n : Z) :
  0 < x -> x < pow2 53 -> x <= inject_Z n -> double x <= inject_Z n.
Proof.
  intros Hx H53 Hn.
  assert (inject_Z n == inject_Z n * pow2 0) as Hg by (unfold pow2; cbn; ring).
  rewrite Hg in Hn |- *. apply double_le_grid; try assumption. lia.
Qed.

Local Close Scope Q_scope.

(** ** ChatGitHubCopilot.ts: expiry normalisation and the caches *)

Module CopilotProofs.
Import Copilot.

Local Arguments double : simpl never.
Local Arguments refreshDeadline : simpl never.
Local Arguments normalizeExpiresAt : simpl never.

(** The code's deadline and normalisation are the ones of the
    vocabulary. *)
Lemma fresh_iff (now : Z) (e : Q) : Qgtb e (refreshDeadline now) = true <-> fresh now e.
Proof. apply Qgtb_true. Qed.

Lemma stale_iff (now : Z) (e : Q) : Qgtb e (refreshDeadline now) = false <-> stale now e.
Proof. apply Qgtb_false. Qed.

Lemma normalizeExpiresAt_expirySeconds (e : Q) : normalizeExpiresAt e = expirySeconds e.
Proof.
  unfold normalizeExpiresAt, expirySeconds, Qgtb. by destruct (Qle_bool e 1000000000000).
Qed.

(** For a time value that is not negative, the deadline is the exact
    [now / 1000 + 300] up to 1/512. *)
Lemma deadline_margin (now : Z) :
  (0 <= now <= 8640000000000000)%Z ->
  (inject_Z now / 1000 + 300 - (1 # 512) <= deadline now)%Q /\
  (deadline now <= inject_Z now / 1000 + 300 + (1 # 512))%Q.
Proof.
  intros [Hlow Hhigh]. unfold deadline.
  assert (0 <= inject_Z now)%Q as Hn0 by (change 0%Q with (inject_Z 0); rewrite <- Zle_Qle; lia).
  assert (inject_Z now <= 8640000000000000)%Q as Hn1.
  { change 8640000000000000%Q with (inject_Z 8640000000000000). rewrite <- Zle_Qle. lia. }
  set (x := (inject_Z now / 1000)%Q).
  assert (x == inject_Z now * (1 # 1000))%Q as Hx by reflexivity.
  assert (pow2 (-10 + 53) == 8796093022208)%Q as Hp43 by reflexivity.
  assert (pow2 (-9 + 53) == 17592186044416)%Q as Hp44 by reflexivity.
  assert (pow2 (-10 - 1) == 1 # 2048)%Q as Hp11 by reflexivity.
  assert (pow2 (-9 - 1) == 1 # 1024)%Q as Hp10 by reflexivity.
  destruct (double_error x (-10)) as [Hl1 Hu1]; [lra | lra | lia |].
  rewrite Hp11 in Hl1, Hu1.
  destruct (double_error (double x + 300) (-9)) as [Hl2 Hu2]; [lra | lra | lia |].
  rewrite Hp10 in Hl2, Hu2.
  split; lra.
Qed.

Lemma run_storedCopilotToken_hit (pf : Platform) (w : World) (k : string)
    (cd : ICommonObject) (t : string) (e : Q) :
  storedFresh (clock pf (clockReads w)) cd t e ->
  run (handle pf) (storedCopilotToken k cd) w =
  (inr (Some t),
   mkWorld (<[k := mkCachedToken t (expirySeconds e)]> (copilotTokenCache w))
           (copilotModelCache w) (S (clockReads w))).
Proof.
  intros (Ht & He & Hne & Hnz & Hfresh). unfold storedCopilotToken.
  rewrite Ht, He.
  apply truthy_JStr in Hne. apply truthy_JNum in Hnz. rewrite Hne, Hnz.
  rewrite <- normalizeExpiresAt_expirySeconds in Hfresh |- *.
  apply fresh_iff in Hfresh. cbn. rewrite Hfresh. reflexivity.
Qed.

Lemma run_storedCopilotToken_miss (pf : Platform) (w : World) (k : string)
    (cd : ICommonObject) :
  noStoredFresh (clock pf (clockReads w)) cd ->
  fst (run (handle pf) (storedCopilotToken k cd) w) = inr None /\
  copilotTokenCache (snd (run (handle pf) (storedCopilotToken k cd) w)) = copilotTokenCache w /\
  copilotModelCache (snd (run (handle pf) (storedCopilotToken k cd) w)) = copilotModelCache w.
Proof.
  intros Hno. unfold storedCopilotToken.
  destruct (copilotToken cd) as [t |] eqn:Ht; [| by cbn].
  destruct (copilotTokenExpiresAt cd) as [e |] eqn:He; [| by cbn].
  destruct (truthy (JStr t)) eqn:Htt; [| by cbn].
  destruct (truthy (JNum e)) eqn:Hte; [| by cbn].
  cbn.
  destruct (Qgtb (normalizeExpiresAt e) (refreshDeadline (clock pf (clockReads w)))) eqn:Hf;
    [| by cbn].
  exfalso. apply (Hno t e). repeat split; try assumption.
  - by apply truthy_JStr.
  - by apply truthy_JNum.
  - rewrite <- normalizeExpiresAt_expirySeconds. by apply fresh_iff.
Qed.

Lemma run_getCachedCopilotToken (pf : Platform) (w : World) (k : string)
    (cd : ICommonObject) :
  run (handle pf) (getCachedCopilotToken k cd) w =
  match copilotTokenCache w !! k with
  | Some c =>
      let w1 := mkWorld (copilotTokenCache w) (copilotModelCache w) (S (clockReads w)) in
      if Qgtb (expiresAt c) (refreshDeadline (clock pf (clockReads w)))
      then (inr (Some (token c)), w1)
      else run (handle pf) (storedCopilotToken k cd) w1
  | None => run (handle pf) (storedCopilotToken k cd) w
  end.
Proof.
  unfold getCachedCopilotToken. cbn.
  destruct (copilotTokenCache w !! k) as [c |]; cbn.
  - destruct (Qgtb (expiresAt c) (refreshDeadline (clock pf (clockReads w)))); cbn.
    + reflexivity.
    + reflexivity.
  - by destruct w.
Qed.

Lemma no_exchange_in_storedCopilotToken (pf : Platform) (w : World) (k : string)
    (cd : ICommonObject) :
  exchangeCalls (trace (handle pf) (storedCopilotToken k cd) w) = [].
Proof.
  unfold storedCopilotToken.
  destruct (copilotToken cd) as [t |]; [| reflexivity].
  destruct (copilotTokenExpiresAt cd) as [e |]; [| reflexivity].
  destruct (truthy (JStr t) && truthy (JNum e)); [| reflexivity].
  cbn. by destruct (Qgtb _ _).
Qed.

Lemma no_exchange_in_getCachedCopilotToken (pf : Platform) (w : World) (k : string)
    (cd : ICommonObject) :
  exchangeCalls (trace (handle pf) (getCachedCopilotToken k cd) w) = [].
Proof.
  unfold getCachedCopilotToken. cbn.
  destruct (copilotTokenCache w !! k) as [c |]; cbn.
  - destruct (Qgtb (expiresAt c) _); cbn; [reflexivity |].
    apply no_exchange_in_storedCopilotToken.
  - destruct w. apply no_exchange_in_storedCopilotToken.
Qed.

(** C5, the claim as stated fails: the quotient is rounded before the
    floor is taken. 144115188075856992 is a binary64 number above 10^12;
    the floor of its exact quotient by 1000 is 144115188075856, and
    [normalizeExpiresAt] returns 144115188075857, which is more than the
    quotient itself. *)
Lemma normalizeExpiresAt_rounds_before_floor :
  (double 144115188075856992 == 144115188075856992)%Q /\
  (1000000000000 < 144115188075856992)%Q /\
  Qfloor (144115188075856992 / 1000) = 144115188075856%Z /\
  normalizeExpiresAt 144115188075856992 = 144115188075857%Q /\
  (144115188075856992 / 1000 < normalizeExpiresAt 144115188075856992)%Q.
Proof.
  split; [by vm_compute |]. split; [reflexivity |]. split; [by vm_compute |].
  split; by vm_compute.
Qed.

(** C5, amended. Up to 10^12 the result of [normalizeExpiresAt] is [e]
    itself. Above 10^12 it is the floor of the binary64 quotient of [e] by
    1000: for a whole number of milliseconds up to 8.64 * 10^15, the
    largest time value, that is the floor of the exact quotient
    [e / 1000]; for every [e] it is a whole number within
    [e / 1000 * 2^-53 + 1] of the exact quotient. In particular
    1893456000000 becomes 1893456000 and 1893456000 is unchanged. *)
Theorem normalizeExpiresAt_seconds (e : Q) :
  ((1000000000000 < e)%Q ->
     normalizeExpiresAt e = inject_Z (Qfloor (double (e / 1000))) /\
     (e / 1000 * (1 - pow2 (-53)) - 1 < normalizeExpiresAt e)%Q /\
     (normalizeExpiresAt e <= e / 1000 * (1 + pow2 (-53)))%Q) /\
  (forall n : Z,
     (1000000000000 < n <= 8640000000000000)%Z ->
     normalizeExpiresAt (inject_Z n) = inject_Z (n / 1000)) /\
  ((e <= 1000000000000)%Q -> normalizeExpiresAt e = e) /\
  normalizeExpiresAt 1893456000000 = 1893456000%Q /\
  normalizeExpiresAt 1893456000 = 1893456000%Q.
Proof.
  split; [| split; [| split; [| split]]].
  - intros Hbig. unfold normalizeExpiresAt. pose proof Hbig as Hb.
    apply Qgtb_true in Hb. rewrite Hb. split; [reflexivity |].
    assert (1 <= e / 1000)%Q as Hx.
    { apply Qle_shift_div_l; [reflexivity |]. apply Qlt_le_weak.
      eapply Qle_lt_trans; [| exact Hbig]. discriminate. }
    destruct (double_relative (e / 1000) Hx) as [Hl Hu].
    pose proof (Qfloor_le (double (e / 1000))) as Hf.
    pose proof (Qlt_floor (double (e / 1000))) as Hc.
    rewrite inject_Z_plus in Hc. change (inject_Z 1) with 1%Q in Hc.
    split; lra.
  - intros n [Hlow Hhigh]. unfold normalizeExpiresAt.
    assert (Qgtb (inject_Z n) 1000000000000 = true) as ->.
    { apply Qgtb_true. change 1000000000000%Q with (inject_Z 1000000000000).
      rewrite <- Zlt_Qlt. exact Hlow. }
    by rewrite floor_double_milliseconds by lia.
  - intros Hle. unfold normalizeExpiresAt. apply Qgtb_false in Hle. by rewrite Hle.
  - by vm_compute.
  - by vm_compute.
Qed.

Lemma normalizeExpiresAt_seconds_witness :
  normalizeExpiresAt 1700000000123 = 1700000000%Q /\
  normalizeExpiresAt (3 # 2) = (3 # 2)%Q.
Proof.
  split.
  - apply (proj1 (proj2 (normalizeExpiresAt_seconds 0)) 1700000000123%Z). lia.
  - apply (proj1 (proj2 (proj2 (normalizeExpiresAt_seconds (3 # 2))))). discriminate.
Defined.




Lemma storedFresh_or_not (now : Z) (cd : ICommonObject) :
  (exists t e, storedFresh now cd t e) \/ noStoredFresh now cd.
Proof.
  unfold noStoredFresh, storedFresh.
  destruct (copilotToken cd) as [t |]; [| right; intros t e (? & _); discriminate].
  destruct (copilotTokenExpiresAt cd) as [e |];
    [| right; intros t' e (_ & ? & _); discriminate].
  destruct (truthy (JStr t)) eqn:Ht.
  2:{ right. intros t' e' (Heq & _ & Hne & _). injection Heq as <-.
      apply truthy_JStr in Hne. congruence. }
  destruct (truthy (JNum e)) eqn:He.
  2:{ right. intros t' e' (_ & Heq & _ & Hnz & _). injection Heq as <-.
      apply truthy_JNum in Hnz. congruence. }
  destruct (Qgtb (expirySeconds e) (refreshDeadline now)) eqn:Hf.
  - left. exists t, e. repeat split.
    + by apply truthy_JStr.
    + by apply truthy_JNum.
    + by apply fresh_iff.
  - right. intros t' e' (_ & Heq & _ & _ & Hfresh). injection Heq as <-.
    apply fresh_iff in Hfresh. congruence.
Qed.

Lemma run_getCachedCopilotModels_stale (pf : Platform) (w : World) (k : string)
    (m : CachedModels) :
  copilotModelCache w !! k = Some m ->
  (modelsExpiresAt m <= inject_Z (clock pf (clockReads w)))%Q ->
  run (handle pf) (getCachedCopilotModels k) w =
  (inr None,
   mkWorld (copilotTokenCache w) (delete k (copilotModelCache w)) (S (clockReads w))).
Proof.
  intros Hk Hstale. unfold getCachedCopilotModels. cbn. rewrite Hk. cbn.
  apply Qgtb_false in Hstale. by rewrite Hstale.
Qed.

(** C2, the claim as stated fails for the token cache: with the clock at
    1000 s, an entry that expires at 1300 s is stale, the lookup returns
    [undefined], and the entry is still in the cache afterwards. *)
Lemma stale_token_entry_is_kept :
  (expiresAt (mkCachedToken "old" 1300) <= inject_Z (clock offline 0) / 1000 + 300)%Q /\
  stale (clock offline 0) (expiresAt (mkCachedToken "old" 1300)) /\
  fst (run (handle offline) (getCachedCopilotToken "cred-1" noStored)
         (holding "cred-1" (mkCachedToken "old" 1300))) = inr None /\
  copilotTokenCache
    (snd (run (handle offline) (getCachedCopilotToken "cred-1" noStored)
            (holding "cred-1" (mkCachedToken "old" 1300)))) !! "cred-1"
  = Some (mkCachedToken "old" 1300).
Proof.
  split; [by vm_compute |]. split; [by vm_compute |]. split; by vm_compute.
Qed.

(** C2, amended. A stale entry is never served. For the token cache
    ([getCachedCopilotToken], stale when the expiry is at most the refresh
    deadline, the binary64 number that [now / 1000 + 300] evaluates to,
    which for a time value from 0 on is within 1/512 of the exact sum) the
    lookup returns [undefined] and leaves the cache as it is, unless the
    credential data holds a fresh stored token: then that token is
    returned and takes the place of the stale entry, with its expiry in
    seconds. For the model cache ([getCachedCopilotModels], stale when the
    expiry is at most now in milliseconds) the lookup returns [undefined]
    and deletes the entry, so the cache holds nothing for the key
    afterwards. *)
Theorem stale_entry_lookup (pf : Platform) (w : World) (k : string) (cd : ICommonObject) :
  (forall c,
     copilotTokenCache w !! k = Some c ->
     stale (clock pf (clockReads w)) (expiresAt c) ->
     (noStoredFresh (clock pf (S (clockReads w))) cd /\
      fst (run (handle pf) (getCachedCopilotToken k cd) w) = inr None /\
      copilotTokenCache (snd (run (handle pf) (getCachedCopilotToken k cd) w))
      = copilotTokenCache w) \/
     (exists t e,
        storedFresh (clock pf (S (clockReads w))) cd t e /\
        fst (run (handle pf) (getCachedCopilotToken k cd) w) = inr (Some t) /\
        copilotTokenCache (snd (run (handle pf) (getCachedCopilotToken k cd) w))
        = <[k := mkCachedToken t (expirySeconds e)]> (copilotTokenCache w))) /\
  (forall m,
     copilotModelCache w !! k = Some m ->
     (modelsExpiresAt m <= inject_Z (clock pf (clockReads w)))%Q ->
     fst (run (handle pf) (getCachedCopilotModels k) w) = inr None /\
     copilotModelCache (snd (run (handle pf) (getCachedCopilotModels k) w))
     = delete k (copilotModelCache w) /\
     copilotModelCache (snd (run (handle pf) (getCachedCopilotModels k) w)) !! k = None) /\
  (forall now : Z,
     (0 <= now <= 8640000000000000)%Z ->
     (inject_Z now / 1000 + 300 - (1 # 512) <= deadline now)%Q /\
     (deadline now <= inject_Z now / 1000 + 300 + (1 # 512))%Q).
Proof.
  split; [| split; [| exact deadline_margin]].
  - intros c Hk Hstale. rewrite run_getCachedCopilotToken, Hk. cbn zeta.
    apply stale_iff in Hstale. rewrite Hstale.
    destruct (storedFresh_or_not (clock pf (S (clockReads w))) cd) as [(t & e & Hs) | Hno].
    + right. exists t, e. split; [exact Hs |].
      by rewrite (run_storedCopilotToken_hit pf
                    (mkWorld (copilotTokenCache w) (copilotModelCache w) (S (clockReads w)))
                    k cd t e Hs).
    + left. split; [exact Hno |].
      destruct (run_storedCopilotToken_miss pf
                  (mkWorld (copilotTokenCache w) (copilotModelCache w) (S (clockReads w)))
                  k cd Hno) as (-> & -> & _).
      by split.
  - intros m Hk Hstale. rewrite (run_getCachedCopilotModels_stale pf w k m Hk Hstale).
    cbn. repeat split. apply lookup_delete_eq.
Qed.

Lemma stale_entry_lookup_witness :
  fst (run (handle offline) (getCachedCopilotToken "cred-1" noStored)
         (holding "cred-1" (mkCachedToken "old" 1300))) = inr None /\
  copilotModelCache
    (snd (run (handle offline) (getCachedCopilotModels "m")
            (holdingModels "m" (mkCachedModels [mkOption "GPT-4o" "gpt-4o"] 1000000))))
    !! "m" = None.
Proof.
  split.
  - destruct (proj1 (stale_entry_lookup offline
                       (holding "cred-1" (mkCachedToken "old" 1300)) "cred-1" noStored)
                (mkCachedToken "old" 1300) eq_refl)
      as [(_ & Hr & _) | (t & e & (Ht & _) & _)].
    + by vm_compute.
    + exact Hr.
    + discriminate Ht.
  - apply (proj1 (proj2 (stale_entry_lookup offline
                    (holdingModels "m" (mkCachedModels [mkOption "GPT-4o" "gpt-4o"] 1000000))
                    "m" noStored))
             (mkCachedModels [mkOption "GPT-4o" "gpt-4o"] 1000000) eq_refl).
    discriminate.
Defined.

(** The lookup when the cache has no fresh entry for the key. *)
Lemma run_getCachedCopilotToken_seed (pf : Platform) (w : World) (k : string)
    (cd : ICommonObject) (t : string) (e : Q) :
  noFreshEntry pf w k ->
  storedFresh (storedCheckTime pf w k) cd t e ->
  fst (run (handle pf) (getCachedCopilotToken k cd) w) = inr (Some t) /\
  copilotTokenCache (snd (run (handle pf) (getCachedCopilotToken k cd) w))
  = <[k := mkCachedToken t (expirySeconds e)]> (copilotTokenCache w).
Proof.
  unfold noFreshEntry, storedCheckTime. intros Hno Hs.
  rewrite run_getCachedCopilotToken.
  destruct (copilotTokenCache w !! k) as [c |] eqn:Hk; cbn zeta.
  - specialize (Hno c eq_refl). apply stale_iff in Hno. rewrite Hno.
    by rewrite (run_storedCopilotToken_hit pf
                  (mkWorld (copilotTokenCache w) (copilotModelCache w) (S (clockReads w)))
                  k cd t e Hs).
  - by rewrite (run_storedCopilotToken_hit pf w k cd t e Hs).
Qed.

Lemma run_getCachedCopilotToken_miss (pf : Platform) (w : World) (k : string)
    (cd : ICommonObject) :
  noFreshEntry pf w k ->
  noStoredFresh (storedCheckTime pf w k) cd ->
  fst (run (handle pf) (getCachedCopilotToken k cd) w) = inr None /\
  copilotTokenCache (snd (run (handle pf) (getCachedCopilotToken k cd) w))
  = copilotTokenCache w.
Proof.
  unfold noFreshEntry, storedCheckTime. intros Hno Hs.
  rewrite run_getCachedCopilotToken.
  destruct (copilotTokenCache w !! k) as [c |] eqn:Hk; cbn zeta.
  - specialize (Hno c eq_refl). apply stale_iff in Hno. rewrite Hno.
    destruct (run_storedCopilotToken_miss pf
                (mkWorld (copilotTokenCache w) (copilotModelCache w) (S (clockReads w)))
                k cd Hs) as (-> & -> & _).
    by split.
  - destruct (run_storedCopilotToken_miss pf w k cd Hs) as (-> & -> & _). by split.
Qed.

Lemma exchangeCalls_exchangeAndCache (pf : Platform) (w : World) (k gh : string) :
  exchangeCalls (trace (handle pf) (exchangeAndCache k gh) w)
  = [logged (Fetch COPILOT_TOKEN_URL
               (("Authorization", "token " ++ gh) :: COPILOT_HEADERS))].
Proof.
  unfold exchangeAndCache, fetchCopilotToken. cbn.
  destruct (network pf _) as [e | response]; cbn; [reflexivity |].
  destruct (resp_ok response); cbn; [| by destruct (resp_text response)].
  by destruct (resp_json response).
Qed.

Lemma run_exchangeAndCache (pf : Platform) (w : World) (k gh : string)
    (status statusText : string) (text : Exn + string) (payload : TokenPayload) :
  network pf (exchangeRequest gh)
  = inr (mkFetchResponse true status statusText text (inr payload)) ->
  run (handle pf) (exchangeAndCache k gh) w =
  (inr (payload_token payload),
   mkWorld (<[k := mkCachedToken (payload_token payload)
                                 (expirySeconds (expires_at payload))]>
              (copilotTokenCache w))
           (copilotModelCache w) (clockReads w)).
Proof.
  unfold exchangeRequest. intros Hnet.
  unfold exchangeAndCache, fetchCopilotToken. cbn. rewrite Hnet. cbn.
  by rewrite normalizeExpiresAt_expirySeconds.
Qed.

(** C7, the claim as stated fails. Starting from empty caches, an
    exchange that answers with the empty string as token leaves a fresh
    entry in the cache; the next [getCopilotToken] for the key finds that
    fresh entry and still calls the exchange endpoint. *)
Lemma fresh_entry_with_empty_token_is_exchanged_again :
  copilotTokenCache afterEmptyExchange !! "cred-1" = Some (mkCachedToken "" 2000) /\
  fresh (clock (online (mkTokenPayload "" 2000)) (clockReads afterEmptyExchange)) 2000 /\
  (inject_Z (clock (online (mkTokenPayload "" 2000)) (clockReads afterEmptyExchange)) / 1000
   + 300 < 2000)%Q /\
  exchangeCalls (trace (handle (online (mkTokenPayload "" 2000)))
                   (getCopilotToken "cred-1" "gho_abc" noStored) afterEmptyExchange)
  = [logged (Fetch COPILOT_TOKEN_URL
               (("Authorization", "token gho_abc") :: COPILOT_HEADERS))].
Proof.
  split; [by vm_compute |]. split; [by vm_compute |]. split; by vm_compute.
Qed.

(** C7, amended. [getCopilotToken] consults its sources in this order;
    an expiry is fresh when it is beyond the refresh deadline, the
    binary64 number that [now / 1000 + 300] evaluates to, which for a time
    value from 0 on is within 1/512 of the exact sum.
    (1) A fresh cache entry for the key whose token is not the empty
    string is returned as it is: no exchange call, caches unchanged.
    (2) Otherwise, when the cache has no fresh entry and the credential
    data holds a stored token (not empty, with a stored expiry that is
    not zero) whose expiry in seconds is fresh, that token is written into
    the cache under the key, with the expiry in seconds, and returned,
    without an exchange call.
    (3) Otherwise, that is when neither source has a fresh token or the
    fresh cache entry's token is the empty string, the exchange endpoint
    is called exactly once; when it answers with a token, that token is
    cached under the key with its expiry in seconds and returned. *)
Theorem getCopilotToken_sources (pf : Platform) (w : World) (k gh : string)
    (cd : ICommonObject) :
  (forall c,
     copilotTokenCache w !! k = Some c ->
     fresh (clock pf (clockReads w)) (expiresAt c) ->
     token c <> "" ->
     run (handle pf) (getCopilotToken k gh cd) w
     = (inr (token c),
        mkWorld (copilotTokenCache w) (copilotModelCache w) (S (clockReads w))) /\
     exchangeCalls (trace (handle pf) (getCopilotToken k gh cd) w) = []) /\
  (forall t e,
     noFreshEntry pf w k ->
     storedFresh (storedCheckTime pf w k) cd t e ->
     fst (run (handle pf) (getCopilotToken k gh cd) w) = inr t /\
     copilotTokenCache (snd (run (handle pf) (getCopilotToken k gh cd) w))
     = <[k := mkCachedToken t (expirySeconds e)]> (copilotTokenCache w) /\
     exchangeCalls (trace (handle pf) (getCopilotToken k gh cd) w) = []) /\
  ((noFreshEntry pf w k /\ noStoredFresh (storedCheckTime pf w k) cd) \/
   (exists c, copilotTokenCache w !! k = Some c /\
              fresh (clock pf (clockReads w)) (expiresAt c) /\ token c = "") ->
   exchangeCalls (trace (handle pf) (getCopilotToken k gh cd) w)
   = [logged (Fetch COPILOT_TOKEN_URL
                (("Authorization", "token " ++ gh) :: COPILOT_HEADERS))] /\
   forall status statusText text payload,
     network pf (exchangeRequest gh)
     = inr (mkFetchResponse true status statusText text (inr payload)) ->
     fst (run (handle pf) (getCopilotToken k gh cd) w) = inr (payload_token payload) /\
     copilotTokenCache (snd (run (handle pf) (getCopilotToken k gh cd) w))
     = <[k := mkCachedToken (payload_token payload)
                            (expirySeconds (expires_at payload))]>
         (copilotTokenCache w)) /\
  (forall now : Z,
     (0 <= now <= 8640000000000000)%Z ->
     (inject_Z now / 1000 + 300 - (1 # 512) <= deadline now)%Q /\
     (deadline now <= inject_Z now / 1000 + 300 + (1 # 512))%Q).
Proof.
  unfold getCopilotToken, exchangeCalls.
  rewrite run_bind, trace_bind, List.filter_app.
  fold (exchangeCalls (trace (handle pf) (getCachedCopilotToken k cd) w)).
  rewrite no_exchange_in_getCachedCopilotToken. cbn [app].
  split; [| split; [| split; [| exact deadline_margin]]].
  - intros c Hk Hfresh Hne. rewrite run_getCachedCopilotToken, Hk. cbn zeta.
    apply fresh_iff in Hfresh. rewrite Hfresh.
    apply truthy_JStr in Hne. rewrite Hne. by split.
  - intros t e Hno Hs.
    destruct (run_getCachedCopilotToken_seed pf w k cd t e Hno Hs) as [Hr Hc].
    destruct (run (handle pf) (getCachedCopilotToken k cd) w) as [r w'].
    cbn in Hr, Hc. subst r.
    destruct Hs as (_ & _ & Hne & _). apply truthy_JStr in Hne. rewrite Hne.
    by repeat split.
  - intros [[Hno Hs] | (c & Hk & Hfresh & Hempty)].
    + destruct (run_getCachedCopilotToken_miss pf w k cd Hno Hs) as [Hr Hc].
      destruct (run (handle pf) (getCachedCopilotToken k cd) w) as [r w'].
      cbn in Hr, Hc. subst r.
      split; [apply exchangeCalls_exchangeAndCache |].
      intros status statusText text payload Hnet.
      rewrite (run_exchangeAndCache pf w' k gh status statusText text payload Hnet).
      cbn. by rewrite Hc.
    + rewrite run_getCachedCopilotToken, Hk. cbn zeta.
      apply fresh_iff in Hfresh. rewrite Hfresh, Hempty. cbn [truthy String.eqb negb].
      split; [apply exchangeCalls_exchangeAndCache |].
      intros status statusText text payload Hnet.
      by rewrite (run_exchangeAndCache pf _ k gh status statusText text payload Hnet).
Qed.

Lemma getCopilotToken_sources_witness :
  fst (run (handle offline) (getCopilotToken "cred-1" "gho_abc" noStored)
         (holding "cred-1" (mkCachedToken "tok" 2000))) = inr "tok" /\
  fst (run (handle offline)
         (getCopilotToken "cred-1" "gho_abc"
            (mkCredentialData (Some "kept") (Some 2000000000000%Q)))
         emptyWorld) = inr "kept" /\
  fst (run (handle (online (mkTokenPayload "new" 2000)))
         (getCopilotToken "cred-1" "gho_abc" noStored)
         (holding "cred-1" (mkCachedToken "old" 1300))) = inr "new".
Proof.
  split; [| split].
  - rewrite (proj1 (proj1 (getCopilotToken_sources offline
                             (holding "cred-1" (mkCachedToken "tok" 2000))
                             "cred-1" "gho_abc" noStored)
                      (mkCachedToken "tok" 2000) eq_refl ltac:(by vm_compute)
                      ltac:(discriminate))).
    reflexivity.
  - apply (proj1 (proj2 (getCopilotToken_sources offline emptyWorld "cred-1" "gho_abc"
                           (mkCredentialData (Some "kept") (Some 2000000000000%Q)))))
      with (e := 2000000000000%Q).
    + intros c Hc. discriminate Hc.
    + split; [reflexivity |]. split; [reflexivity |]. split; [discriminate |].
      split; [discriminate | by vm_compute].
  - refine (proj1 (proj2 (proj1 (proj2 (proj2 (getCopilotToken_sources
                                          (online (mkTokenPayload "new" 2000))
                                          (holding "cred-1" (mkCachedToken "old" 1300))
                                          "cred-1" "gho_abc" noStored))) _)
                     "200" "OK" (inr "") (mkTokenPayload "new" 2000) eq_refl)).
    left. split.
    + intros c Hc. change (Some (mkCachedToken "old" 1300) = Some c) in Hc.
      injection Hc as <-. by vm_compute.
    + intros t e [Ht _]. discriminate Ht.
Defined.

End CopilotProofs.

(** ** routes/github-copilot/index.ts: configuration and the poll route *)

Module DeviceFlowProofs.
Import DeviceFlow.

(** Two string literals that differ. *)
Ltac distinct_keys := apply String.eqb_neq; reflexivity.

Lemma truthy_js_or_r (a b : JVal) : truthy b = true -> truthy (js_or a b) = true.
Proof. intros Hb. unfold js_or. by destruct (truthy a) eqn:Ha. Qed.

Lemma js_or_byPrecedence (a b c d : JVal) :
  js_or (js_or (js_or a b) c) d = byPrecedence [a; b; c] d.
Proof.
  unfold js_or. cbn [byPrecedence].
  destruct (truthy a) eqn:Ha; [by rewrite !Ha |].
  destruct (truthy b) eqn:Hb; [by rewrite !Hb |].
  by destruct (truthy c).
Qed.

Lemma prop_absent (o : JObj) (k : string) : o !! k = None -> prop o k = JUndefined.
Proof. intros H. unfold prop. by rewrite H. Qed.

Lemma findOneBy_id (rows : list Credential) (cid : string) (c : Credential) :
  findOneBy rows cid = Some c -> id c = cid.
Proof.
  unfold findOneBy. intros H. apply List.find_some in H as [_ H].
  by apply String.eqb_eq.
Qed.

Lemma findOneBy_update (rows : list Credential) (cid enc : string) (d : Date)
    (c : Credential) :
  findOneBy rows cid = Some c ->
  findOneBy (update rows cid enc d) cid = Some (mkCredential cid enc d).
Proof.
  unfold findOneBy, update. induction rows as [| r rows IH]; cbn; [discriminate |].
  destruct (String.eqb (id r) cid) eqn:Hr; cbn.
  - intros _. pose proof Hr as Heq. apply String.eqb_eq in Heq.
    rewrite Heq, String.eqb_refl. reflexivity.
  - rewrite Hr. exact IH.
Qed.

Lemma findOneBy_update_ne (rows : list Credential) (cid other enc : string) (d : Date) :
  other <> cid ->
  findOneBy (update rows cid enc d) other = findOneBy rows other.
Proof.
  intros Hne. unfold findOneBy, update. induction rows as [| r rows IH]; cbn; [reflexivity |].
  destruct (String.eqb (id r) cid) eqn:Hr; cbn.
  - apply String.eqb_eq in Hr.
    assert (String.eqb (id r) other = false) as ->.
    { apply String.eqb_neq. congruence. }
    exact IH.
  - by rewrite IH.
Qed.

(** A poll that reaches the token endpoint continues with the answer. *)
Lemma run_pollDeviceFlow_try (pf : ServerPlatform) (w : ServerWorld) (req : Request)
    (credential : Credential) (decryptedData tokenData : JObj) :
  tokenEndpointAnswers pf w req credential decryptedData tokenData ->
  run (serve pf) (pollDeviceFlow_try (processEnv pf) req) w =
  run (serve pf)
    (if truthy (prop tokenData "access_token")
     then persistToken (params_credentialId req) credential decryptedData tokenData
     else Ret (answerWithoutToken tokenData)) w.
Proof.
  intros (Hcode & Hrepo & Hfind & Hrow & Hdec & Hpost).
  unfold pollDeviceFlow_try. rewrite Hcode. cbn.
  rewrite Hrepo, Hfind. cbn. rewrite Hrow. cbn. rewrite Hdec.
  rewrite truthy_js_or_r by reflexivity. cbn.
  unfold resolveDeviceFlowConfig in Hpost. cbn in Hpost. rewrite Hpost.
  reflexivity.
Qed.

Lemma trace_pollDeviceFlow_try (pf : ServerPlatform) (w : ServerWorld) (req : Request)
    (credential : Credential) (decryptedData tokenData : JObj) :
  tokenEndpointAnswers pf w req credential decryptedData tokenData ->
  trace (serve pf) (pollDeviceFlow_try (processEnv pf) req) w =
  logged GetRepository ::
  logged (FindOneBy (params_credentialId req)) ::
  logged (DecryptCredentialData (encryptedData credential)) ::
  logged (AxiosPost ACCESS_TOKEN_URL
            (tokenRequest (clientId (resolveDeviceFlowConfig (processEnv pf) decryptedData))
                          (deviceCodeOf req))
            JSON_HEADERS) ::
  trace (serve pf)
    (if truthy (prop tokenData "access_token")
     then persistToken (params_credentialId req) credential decryptedData tokenData
     else Ret (answerWithoutToken tokenData)) w.
Proof.
  intros (Hcode & Hrepo & Hfind & Hrow & Hdec & Hpost).
  unfold pollDeviceFlow_try. rewrite Hcode. cbn.
  rewrite Hrepo, Hfind. cbn. rewrite Hrow. cbn. rewrite Hdec.
  rewrite truthy_js_or_r by reflexivity. cbn.
  unfold resolveDeviceFlowConfig in Hpost. cbn in Hpost. rewrite Hpost.
  reflexivity.
Qed.

Lemma run_persistToken (pf : ServerPlatform) (w : ServerWorld) (cid : string)
    (credential : Credential) (decryptedData tokenData : JObj) (encrypted : string) :
  encryptCredentialData pf
    (updatedCredentialData decryptedData tokenData (serverClock pf (datesTaken w)))
  = inr encrypted ->
  updateFault pf (id credential) = None ->
  run (serve pf) (persistToken cid credential decryptedData tokenData) w =
  (inr (Respond 200 (obj [ ("success", JBool true); ("status", JStr "authorized");
                           ("credentialId", JStr cid) ])),
   mkServerWorld
     (update (credentials w) (id credential) encrypted (serverClock pf (S (datesTaken w))))
     (S (S (datesTaken w)))).
Proof.
  intros Henc Hupd. unfold persistToken. cbn. rewrite Henc. cbn. by rewrite Hupd.
Qed.

Lemma trace_persistToken (pf : ServerPlatform) (w : ServerWorld) (cid : string)
    (credential : Credential) (decryptedData tokenData : JObj) (encrypted : string) :
  encryptCredentialData pf
    (updatedCredentialData decryptedData tokenData (serverClock pf (datesTaken w)))
  = inr encrypted ->
  trace (serve pf) (persistToken cid credential decryptedData tokenData) w =
  [ logged NewDate;
    logged (EncryptCredentialData
              (updatedCredentialData decryptedData tokenData (serverClock pf (datesTaken w))));
    logged NewDate;
    logged (Update (id credential) encrypted (serverClock pf (S (datesTaken w)))) ].
Proof.
  intros Henc. unfold persistToken. cbn. rewrite Henc. cbn.
  by destruct (updateFault pf (id credential)).
Qed.

Lemma strict_eq_str_true (v : JVal) (lit : string) :
  strict_eq_str v lit = true <-> v = JStr lit.
Proof.
  destruct v; cbn; try (split; [discriminate | congruence]).
  rewrite String.eqb_eq. split; congruence.
Qed.

Lemma js_or_truthy (a b : JVal) : truthy a = true -> js_or a b = a.
Proof. intros Ha. unfold js_or. by rewrite Ha. Qed.

Lemma js_or_falsy (a b : JVal) : truthy a = false -> js_or a b = b.
Proof. intros Ha. unfold js_or. by rewrite Ha. Qed.

(** C3, the claim as stated fails. The token endpoint answers
    [{error: "access_denied"}], with no description; the route answers
    400 with the message "Device flow failed", which is not the upstream
    description (there is none). *)
Lemma terminal_error_without_description :
  tokenEndpointAnswers (sampleServer ∅ {[ "error" := JStr "access_denied" ]}) sampleWorld
    (pollRequest "dc-1") (mkCredential "cred-1" "blob" (sampleDate 0)) ∅
    {[ "error" := JStr "access_denied" ]} /\
  ({[ "error" := JStr "access_denied" ]} : JObj) !! "access_token" = None /\
  ({[ "error" := JStr "access_denied" ]} : JObj) !! "error_description" = None /\
  fst (pollDeviceFlow (sampleServer ∅ {[ "error" := JStr "access_denied" ]})
         (pollRequest "dc-1") sampleWorld)
  = Respond 400 (obj [ ("success", JBool false); ("status", JStr "access_denied");
                       ("message", JStr "Device flow failed") ]).
Proof.
  split; [| split; [| split]]; try reflexivity.
  repeat split.
Qed.

(** C3, amended. When the token endpoint answers without an
    [access_token] field: if the [error] is "authorization_pending" or
    "slow_down", the poll route answers 200 with
    [{success: false, status: error, error_description}] and does not
    throw; for any other [error] it answers 400 with, as [status], the
    upstream error code, or "unknown_error" when the error is missing or
    empty, and, as [message], the upstream description, or
    "Device flow failed" when the description is missing or empty. In
    both cases the credentials are left as they are. *)
Theorem pollDeviceFlow_without_token (pf : ServerPlatform) (w : ServerWorld) (req : Request)
    (credential : Credential) (decryptedData tokenData : JObj) :
  tokenEndpointAnswers pf w req credential decryptedData tokenData ->
  tokenData !! "access_token" = None ->
  (prop tokenData "error" = JStr "authorization_pending" \/
   prop tokenData "error" = JStr "slow_down" ->
   pollDeviceFlow pf req w =
   (Respond 200 (obj [ ("success", JBool false);
                       ("status", prop tokenData "error");
                       ("error_description", prop tokenData "error_description") ]),
    w)) /\
  (prop tokenData "error" <> JStr "authorization_pending" ->
   prop tokenData "error" <> JStr "slow_down" ->
   exists status message,
     pollDeviceFlow pf req w =
     (Respond 400 (obj [ ("success", JBool false); ("status", status);
                         ("message", message) ]), w) /\
     (truthy (prop tokenData "error") = true -> status = prop tokenData "error") /\
     (truthy (prop tokenData "error") = false -> status = JStr "unknown_error") /\
     (truthy (prop tokenData "error_description") = true ->
        message = prop tokenData "error_description") /\
     (truthy (prop tokenData "error_description") = false ->
        message = JStr "Device flow failed")).
Proof.
  intros Hreach Hnone. unfold pollDeviceFlow, route.
  rewrite (run_pollDeviceFlow_try pf w req credential decryptedData tokenData Hreach).
  rewrite (prop_absent _ _ Hnone). cbn [truthy run]. unfold answerWithoutToken.
  split.
  - intros Herr.
    assert (strict_eq_str (prop tokenData "error") "authorization_pending"
            || strict_eq_str (prop tokenData "error") "slow_down" = true) as ->; [| reflexivity].
    apply orb_true_iff. by rewrite !strict_eq_str_true.
  - intros Hp Hs.
    assert (strict_eq_str (prop tokenData "error") "authorization_pending"
            || strict_eq_str (prop tokenData "error") "slow_down" = false) as ->.
    { apply orb_false_iff. split; apply not_true_is_false; by rewrite strict_eq_str_true. }
    eexists _, _. split; [reflexivity |].
    repeat split; intros H; by rewrite ?(js_or_truthy _ _ H), ?(js_or_falsy _ _ H).
Qed.

Lemma pollDeviceFlow_without_token_witness :
  pollDeviceFlow (sampleServer ∅ {[ "error" := JStr "slow_down" ]})
    (pollRequest "dc-1") sampleWorld
  = (Respond 200 (obj [ ("success", JBool false); ("status", JStr "slow_down");
                        ("error_description", JUndefined) ]), sampleWorld) /\
  pollDeviceFlow
    (sampleServer ∅ {[ "error" := JStr "expired_token";
                       "error_description" := JStr "The device code has expired." ]})
    (pollRequest "dc-1") sampleWorld
  = (Respond 400 (obj [ ("success", JBool false); ("status", JStr "expired_token");
                        ("message", JStr "The device code has expired.") ]), sampleWorld).
Proof.
  split.
  - apply (proj1 (pollDeviceFlow_without_token
                    (sampleServer ∅ {[ "error" := JStr "slow_down" ]}) sampleWorld
                    (pollRequest "dc-1") (mkCredential "cred-1" "blob" (sampleDate 0)) ∅
                    {[ "error" := JStr "slow_down" ]}
                    ltac:(repeat split) eq_refl)).
    right. reflexivity.
  - destruct (proj2 (pollDeviceFlow_without_token
                       (sampleServer ∅ {[ "error" := JStr "expired_token";
                                          "error_description" :=
                                            JStr "The device code has expired." ]})
                       sampleWorld (pollRequest "dc-1")
                       (mkCredential "cred-1" "blob" (sampleDate 0)) ∅
                       {[ "error" := JStr "expired_token";
                          "error_description" := JStr "The device code has expired." ]}
                       ltac:(repeat split) eq_refl)
                ltac:(discriminate) ltac:(discriminate))
      as (status & message & Hrun & Hstatus & _ & Hmessage & _).
    rewrite Hrun, (Hstatus eq_refl), (Hmessage eq_refl). reflexivity.
Defined.

Lemma lookup_updatedCredentialData_other (decryptedData tokenData : JObj) (d : Date)
    (key : string) :
  key ∉ tokenFields ->
  updatedCredentialData decryptedData tokenData d !! key = decryptedData !! key.
Proof.
  unfold tokenFields. rewrite !not_elem_of_cons. intros (H1 & H2 & H3 & H4 & _).
  unfold updatedCredentialData. by rewrite !lookup_insert_ne.
Qed.

(** C4. When the token endpoint answers with a non-empty [access_token],
    the poll route stores that very token, with the token type, the token
    scope and the time of receipt, in the credential's attribute bag,
    writes the encrypted bag to the credential through the repository,
    and answers [{success: true, status: "authorized", credentialId}]. *)
Theorem pollDeviceFlow_persists_token (pf : ServerPlatform) (w : ServerWorld) (req : Request)
    (credential : Credential) (decryptedData tokenData : JObj)
    (accessToken encrypted : string) :
  tokenEndpointAnswers pf w req credential decryptedData tokenData ->
  tokenData !! "access_token" = Some (JStr accessToken) ->
  accessToken <> "" ->
  encryptCredentialData pf
    (updatedCredentialData decryptedData tokenData (serverClock pf (datesTaken w)))
  = inr encrypted ->
  updateFault pf (id credential) = None ->
  fst (pollDeviceFlow pf req w)
  = Respond 200 (obj [ ("success", JBool true); ("status", JStr "authorized");
                       ("credentialId", JStr (params_credentialId req)) ]) /\
  findOneBy (credentials (snd (pollDeviceFlow pf req w))) (params_credentialId req)
  = Some (mkCredential (params_credentialId req) encrypted (serverClock pf (S (datesTaken w)))) /\
  updatedCredentialData decryptedData tokenData (serverClock pf (datesTaken w))
    !! "githubAccessToken" = Some (JStr accessToken) /\
  updatedCredentialData decryptedData tokenData (serverClock pf (datesTaken w))
    !! "githubTokenType" = Some (prop tokenData "token_type") /\
  updatedCredentialData decryptedData tokenData (serverClock pf (datesTaken w))
    !! "githubTokenScope" = Some (prop tokenData "scope") /\
  updatedCredentialData decryptedData tokenData (serverClock pf (datesTaken w))
    !! "githubTokenReceivedAt" = Some (JStr (toISOString (serverClock pf (datesTaken w)))) /\
  trace (serve pf) (pollDeviceFlow_try (processEnv pf) req) w =
  [ logged GetRepository;
    logged (FindOneBy (params_credentialId req));
    logged (DecryptCredentialData (encryptedData credential));
    logged (AxiosPost ACCESS_TOKEN_URL
              (tokenRequest (clientId (resolveDeviceFlowConfig (processEnv pf) decryptedData))
                            (deviceCodeOf req))
              JSON_HEADERS);
    logged NewDate;
    logged (EncryptCredentialData
              (updatedCredentialData decryptedData tokenData (serverClock pf (datesTaken w))));
    logged NewDate;
    logged (Update (params_credentialId req) encrypted (serverClock pf (S (datesTaken w)))) ].
Proof.
  intros Hreach Htoken Hne Henc Hupd.
  assert (truthy (prop tokenData "access_token") = true) as Htruthy.
  { unfold prop. rewrite Htoken. by apply truthy_JStr. }
  pose proof Hreach as (_ & _ & _ & Hrow & _).
  pose proof (findOneBy_id _ _ _ Hrow) as Hid.
  unfold pollDeviceFlow, route.
  rewrite (run_pollDeviceFlow_try pf w req credential decryptedData tokenData Hreach).
  rewrite (trace_pollDeviceFlow_try pf w req credential decryptedData tokenData Hreach).
  rewrite Htruthy.
  rewrite (run_persistToken pf w _ credential decryptedData tokenData encrypted Henc Hupd).
  rewrite (trace_persistToken pf w _ credential decryptedData tokenData encrypted Henc).
  rewrite Hid. cbn [fst snd credentials].
  split; [reflexivity |].
  split; [by apply findOneBy_update with (c := credential) |].
  unfold updatedCredentialData.
  split; [| split; [| split; [| split]]].
  - rewrite !lookup_insert_ne by distinct_keys. rewrite lookup_insert_eq.
    unfold prop. by rewrite Htoken.
  - rewrite !lookup_insert_ne by distinct_keys. by rewrite lookup_insert_eq.
  - rewrite !lookup_insert_ne by distinct_keys. by rewrite lookup_insert_eq.
  - by rewrite lookup_insert_eq.
  - reflexivity.
Qed.

Lemma pollDeviceFlow_persists_token_witness :
  fst (pollDeviceFlow
         (sampleServer ∅ {[ "access_token" := JStr "gho_abc"; "token_type" := JStr "bearer";
                            "scope" := JStr "read:user" ]})
         (pollRequest "dc-1") sampleWorld)
  = Respond 200 (obj [ ("success", JBool true); ("status", JStr "authorized");
                       ("credentialId", JStr "cred-1") ]) /\
  findOneBy
    (credentials
       (snd (pollDeviceFlow
               (sampleServer ∅ {[ "access_token" := JStr "gho_abc";
                                  "token_type" := JStr "bearer";
                                  "scope" := JStr "read:user" ]})
               (pollRequest "dc-1") sampleWorld))) "cred-1"
  = Some (mkCredential "cred-1" "sealed" (sampleDate 1)).
Proof.
  pose proof (pollDeviceFlow_persists_token
                (sampleServer ∅ {[ "access_token" := JStr "gho_abc";
                                   "token_type" := JStr "bearer";
                                   "scope" := JStr "read:user" ]})
                sampleWorld (pollRequest "dc-1")
                (mkCredential "cred-1" "blob" (sampleDate 0)) ∅
                {[ "access_token" := JStr "gho_abc"; "token_type" := JStr "bearer";
                   "scope" := JStr "read:user" ]}
                "gho_abc" "sealed"
                ltac:(repeat split) eq_refl ltac:(discriminate) eq_refl eq_refl)
    as (Hanswer & Hrow & _).
  split; [exact Hanswer | exact Hrow].
Defined.

(** C9. On a successful poll the attribute bag that is encrypted and
    written back is the decrypted bag with the four properties
    [githubAccessToken], [githubTokenType], [githubTokenScope] and
    [githubTokenReceivedAt] set; every other property of the bag keeps
    the value it had, no other property appears, and no other credential
    is touched. *)
Theorem written_bag_frame (pf : ServerPlatform) (w : ServerWorld) (req : Request)
    (credential : Credential) (decryptedData tokenData : JObj) (encrypted : string) :
  tokenEndpointAnswers pf w req credential decryptedData tokenData ->
  truthy (prop tokenData "access_token") = true ->
  encryptCredentialData pf
    (updatedCredentialData decryptedData tokenData (serverClock pf (datesTaken w)))
  = inr encrypted ->
  updateFault pf (id credential) = None ->
  exists bag : JObj,
    logged (EncryptCredentialData bag)
      ∈ trace (serve pf) (pollDeviceFlow_try (processEnv pf) req) w /\
    encryptCredentialData pf bag = inr encrypted /\
    encryptedData <$> findOneBy (credentials (snd (pollDeviceFlow pf req w)))
                        (params_credentialId req) = Some encrypted /\
    bag !! "githubAccessToken" = Some (prop tokenData "access_token") /\
    bag !! "githubTokenType" = Some (prop tokenData "token_type") /\
    bag !! "githubTokenScope" = Some (prop tokenData "scope") /\
    bag !! "githubTokenReceivedAt" = Some (JStr (toISOString (serverClock pf (datesTaken w)))) /\
    (forall key : string, key ∉ tokenFields -> bag !! key = decryptedData !! key) /\
    dom bag = dom decryptedData ∪ list_to_set tokenFields /\
    (forall other : string,
       other <> params_credentialId req ->
       findOneBy (credentials (snd (pollDeviceFlow pf req w))) other
       = findOneBy (credentials w) other).
Proof.
  intros Hreach Htruthy Henc Hupd.
  pose proof Hreach as (_ & _ & _ & Hrow & _).
  pose proof (findOneBy_id _ _ _ Hrow) as Hid.
  exists (updatedCredentialData decryptedData tokenData (serverClock pf (datesTaken w))).
  unfold pollDeviceFlow, route.
  rewrite (run_pollDeviceFlow_try pf w req credential decryptedData tokenData Hreach).
  rewrite (trace_pollDeviceFlow_try pf w req credential decryptedData tokenData Hreach).
  rewrite Htruthy.
  rewrite (run_persistToken pf w _ credential decryptedData tokenData encrypted Henc Hupd).
  rewrite (trace_persistToken pf w _ credential decryptedData tokenData encrypted Henc).
  rewrite Hid. cbn [fst snd credentials].
  split.
  { do 5 apply list_elem_of_further. apply list_elem_of_here. }
  split; [exact Henc |].
  split.
  { by rewrite (findOneBy_update _ _ encrypted (serverClock pf (S (datesTaken w))) _ Hrow). }
  split; [| split; [| split; [| split; [| split; [| split]]]]].
  - unfold updatedCredentialData.
    rewrite !lookup_insert_ne by distinct_keys. by rewrite lookup_insert_eq.
  - unfold updatedCredentialData.
    rewrite !lookup_insert_ne by distinct_keys. by rewrite lookup_insert_eq.
  - unfold updatedCredentialData.
    rewrite !lookup_insert_ne by distinct_keys. by rewrite lookup_insert_eq.
  - unfold updatedCredentialData. by rewrite lookup_insert_eq.
  - intros key Hkey. by apply lookup_updatedCredentialData_other.
  - unfold updatedCredentialData, tokenFields. rewrite !dom_insert_L. cbn [list_to_set foldr].
    apply set_eq. intros x. rewrite !elem_of_union, !elem_of_singleton, elem_of_empty.
    tauto.
  - intros other Hother. by apply findOneBy_update_ne.
Qed.

Lemma written_bag_frame_witness :
  exists bag : JObj,
    bag !! "githubAccessToken" = Some (JStr "gho_abc") /\
    bag !! "note" = Some (JStr "kept") /\
    bag !! "absent" = None.
Proof.
  destruct (written_bag_frame
              (sampleServer {[ "note" := JStr "kept"; "githubAccessToken" := JStr "gho_old" ]}
                            {[ "access_token" := JStr "gho_abc" ]})
              sampleWorld (pollRequest "dc-1")
              (mkCredential "cred-1" "blob" (sampleDate 0))
              {[ "note" := JStr "kept"; "githubAccessToken" := JStr "gho_old" ]}
              {[ "access_token" := JStr "gho_abc" ]}
              "sealed"
              ltac:(repeat split) eq_refl eq_refl eq_refl)
    as (bag & _ & _ & _ & Htoken & _ & _ & _ & Hframe & _).
  exists bag. split; [exact Htoken |].
  split.
  - rewrite (Hframe "note"); [reflexivity |].
    unfold tokenFields. rewrite !not_elem_of_cons. repeat split; try discriminate.
    apply not_elem_of_nil.
  - rewrite (Hframe "absent"); [reflexivity |].
    unfold tokenFields. rewrite !not_elem_of_cons. repeat split; try discriminate.
    apply not_elem_of_nil.
Defined.

(** C6. [resolveDeviceFlowConfig] resolves the client id and the scope
    by precedence: the override stored in the credential
    ([deviceFlowClientId], then [clientId]; [deviceFlowScope], then
    [scope]), then the environment variable, then the built-in default.
    A stored override wins whatever the environment says; the environment
    variable wins over the default. With no override in the credential
    and the variable unset, the client id is "Iv1.b507a08c87ecfe98" and
    the scope is "read:user workflow repo". *)
Theorem resolveDeviceFlowConfig_precedence (env : gmap string string) (cd : JObj) :
  clientId (resolveDeviceFlowConfig env cd)
  = byPrecedence [ prop cd "deviceFlowClientId"; prop cd "clientId";
                   env_var env "GITHUB_DEVICE_FLOW_CLIENT_ID" ]
                 (JStr "Iv1.b507a08c87ecfe98") /\
  scope (resolveDeviceFlowConfig env cd)
  = byPrecedence [ prop cd "deviceFlowScope"; prop cd "scope";
                   env_var env "GITHUB_DEVICE_FLOW_SCOPE" ]
                 (JStr "read:user workflow repo") /\
  (forall override,
     cd !! "deviceFlowClientId" = Some override -> truthy override = true ->
     clientId (resolveDeviceFlowConfig env cd) = override) /\
  (forall override,
     cd !! "deviceFlowScope" = Some override -> truthy override = true ->
     scope (resolveDeviceFlowConfig env cd) = override) /\
  (forall value,
     truthy (prop cd "deviceFlowClientId") = false -> truthy (prop cd "clientId") = false ->
     env !! "GITHUB_DEVICE_FLOW_CLIENT_ID" = Some value -> value <> "" ->
     clientId (resolveDeviceFlowConfig env cd) = JStr value) /\
  (forall value,
     truthy (prop cd "deviceFlowScope") = false -> truthy (prop cd "scope") = false ->
     env !! "GITHUB_DEVICE_FLOW_SCOPE" = Some value -> value <> "" ->
     scope (resolveDeviceFlowConfig env cd) = JStr value) /\
  (cd !! "deviceFlowClientId" = None -> cd !! "clientId" = None ->
   env !! "GITHUB_DEVICE_FLOW_CLIENT_ID" = None ->
   clientId (resolveDeviceFlowConfig env cd) = JStr "Iv1.b507a08c87ecfe98") /\
  (cd !! "deviceFlowScope" = None -> cd !! "scope" = None ->
   env !! "GITHUB_DEVICE_FLOW_SCOPE" = None ->
   scope (resolveDeviceFlowConfig env cd) = JStr "read:user workflow repo").
Proof.
  unfold resolveDeviceFlowConfig. cbn [clientId scope].
  rewrite !js_or_byPrecedence. unfold env_var, prop. cbn [byPrecedence].
  split; [reflexivity |]. split; [reflexivity |].
  split; [| split; [| split; [| split; [| split]]]].
  - intros override -> Ht. cbn. by rewrite Ht.
  - intros override -> Ht. cbn. by rewrite Ht.
  - intros value -> -> -> Hne. cbn [of_opt_string].
    apply truthy_JStr in Hne. by rewrite Hne.
  - intros value -> -> -> Hne. cbn [of_opt_string].
    apply truthy_JStr in Hne. by rewrite Hne.
  - by intros -> -> ->.
  - by intros -> -> ->.
Qed.

Lemma resolveDeviceFlowConfig_precedence_witness :
  resolveDeviceFlowConfig ∅ ∅
  = mkConfig (JStr "Iv1.b507a08c87ecfe98") (JStr "read:user workflow repo") /\
  clientId (resolveDeviceFlowConfig {[ "GITHUB_DEVICE_FLOW_CLIENT_ID" := "Iv1.env" ]}
                                    {[ "deviceFlowClientId" := JStr "Iv1.mine" ]})
  = JStr "Iv1.mine" /\
  scope (resolveDeviceFlowConfig {[ "GITHUB_DEVICE_FLOW_SCOPE" := "read:org" ]} ∅)
  = JStr "read:org".
Proof.
  split; [| split].
  - pose proof (resolveDeviceFlowConfig_precedence ∅ ∅)
      as (_ & _ & _ & _ & _ & _ & Hid & Hscope).
    specialize (Hid eq_refl eq_refl eq_refl). specialize (Hscope eq_refl eq_refl eq_refl).
    destruct (resolveDeviceFlowConfig ∅ ∅) as [i sc]. cbn in Hid, Hscope.
    by rewrite Hid, Hscope.
  - apply (proj1 (proj2 (proj2 (resolveDeviceFlowConfig_precedence
                                  {[ "GITHUB_DEVICE_FLOW_CLIENT_ID" := "Iv1.env" ]}
                                  {[ "deviceFlowClientId" := JStr "Iv1.mine" ]})))
             (JStr "Iv1.mine")); reflexivity.
  - apply (proj1 (proj2 (proj2 (proj2 (proj2 (proj2
             (resolveDeviceFlowConfig_precedence
                {[ "GITHUB_DEVICE_FLOW_SCOPE" := "read:org" ]} ∅))))))
             "read:org"); try reflexivity.
    discriminate.
Defined.

(** C8. When the body of a poll request carries no device code, neither
    as [deviceCode] nor as [device_code] (missing, empty or otherwise
    falsy), the route answers 400 and makes no call at all: the token
    endpoint is not contacted and the credential store is not accessed. *)
Theorem pollDeviceFlow_missing_deviceCode (pf : ServerPlatform) (w : ServerWorld) (req : Request) :
  truthy (opt_prop (body req) "deviceCode") = false ->
  truthy (opt_prop (body req) "device_code") = false ->
  pollDeviceFlow pf req w
  = (Respond 400 (obj [ ("success", JBool false);
                        ("message", JStr "Missing deviceCode in request body") ]), w) /\
  trace (serve pf) (pollDeviceFlow_try (processEnv pf) req) w = [] /\
  pollDeviceFlow_try (processEnv pf) req
  = Ret (Respond 400 (obj [ ("success", JBool false);
                            ("message", JStr "Missing deviceCode in request body") ])).
Proof.
  intros Hcamel Hsnake.
  assert (truthy (deviceCodeOf req) = false) as Hcode.
  { unfold deviceCodeOf. by rewrite (js_or_falsy _ _ Hcamel). }
  unfold pollDeviceFlow, route, pollDeviceFlow_try. by rewrite Hcode.
Qed.

Lemma pollDeviceFlow_missing_deviceCode_witness :
  fst (pollDeviceFlow (sampleServer ∅ {[ "access_token" := JStr "gho_abc" ]})
         (pollRequest "") sampleWorld)
  = Respond 400 (obj [ ("success", JBool false);
                       ("message", JStr "Missing deviceCode in request body") ]) /\
  trace (serve (sampleServer ∅ {[ "access_token" := JStr "gho_abc" ]}))
    (pollDeviceFlow_try ∅ (mkRequest "cred-1" None)) sampleWorld = [].
Proof.
  split.
  - by rewrite (proj1 (pollDeviceFlow_missing_deviceCode
                         (sampleServer ∅ {[ "access_token" := JStr "gho_abc" ]})
                         sampleWorld (pollRequest "") eq_refl eq_refl)).
  - apply (proj1 (proj2 (pollDeviceFlow_missing_deviceCode
                           (sampleServer ∅ {[ "access_token" := JStr "gho_abc" ]})
                           sampleWorld (mkRequest "cred-1" None) eq_refl eq_refl))).
Defined.

Lemma truthy_clientId (env : gmap string string) (cd : JObj) :
  truthy (clientId (resolveDeviceFlowConfig env cd)) = true.
Proof. unfold resolveDeviceFlowConfig. cbn [clientId]. by apply truthy_js_or_r. Qed.

(** The body of a response, for comparing responses by a property. *)
Lemma Respond_body (s1 s2 : Z) (b1 b2 : JObj) :
  Respond s1 b1 = Respond s2 b2 -> b1 = b2.
Proof. congruence. Qed.

Lemma lookup_obj_cons (k key : string) (v : JVal) (rest : list (string * JVal)) :
  obj ((k, v) :: rest) !! key = if String.eqb k key then Some v else obj rest !! key.
Proof.
  change (obj ((k, v) :: rest)) with (<[k := v]> (obj rest)).
  destruct (String.eqb_spec k key) as [-> | Hne].
  - apply lookup_insert_eq.
  - by apply lookup_insert_ne.
Qed.

Lemma lookup_obj_nil (key : string) : obj [] !! key = None.
Proof. apply lookup_empty. Qed.

Lemma answerWithoutToken_not_missingClientId (tokenData : JObj) :
  answerWithoutToken tokenData <> missingClientId.
Proof.
  unfold answerWithoutToken, missingClientId.
  destruct (_ || _); [discriminate |].
  intros Heq. apply Respond_body in Heq.
  apply (f_equal (fun o : JObj => o !! "status")) in Heq.
  rewrite !lookup_obj_cons, !lookup_obj_nil in Heq. discriminate Heq.
Qed.

Lemma missingDeviceCode_not_missingClientId :
  Respond 400 (obj [ ("success", JBool false);
                     ("message", JStr "Missing deviceCode in request body") ])
  <> missingClientId.
Proof.
  unfold missingClientId. intros Heq. apply Respond_body in Heq.
  apply (f_equal (fun o : JObj => o !! "message")) in Heq.
  rewrite !lookup_obj_cons in Heq. discriminate Heq.
Qed.

(** C10. Whatever the decrypted credential data and the environment,
    [resolveDeviceFlowConfig] returns a client id that is set: it is
    truthy, so neither [undefined] nor the empty string, the built-in
    default being the last resort. Hence the answer
    400 "Missing GitHub device flow client ID" is given by no run of the
    start route and by no run of the poll route. *)
Theorem clientId_always_resolves (env : gmap string string) (cd : JObj)
    (pf : ServerPlatform) (req : Request) (w : ServerWorld) :
  truthy (clientId (resolveDeviceFlowConfig env cd)) = true /\
  clientId (resolveDeviceFlowConfig env cd) <> JStr "" /\
  clientId (resolveDeviceFlowConfig env cd) <> JUndefined /\
  (truthy (prop cd "deviceFlowClientId") = false -> truthy (prop cd "clientId") = false ->
   truthy (env_var env "GITHUB_DEVICE_FLOW_CLIENT_ID") = false ->
   clientId (resolveDeviceFlowConfig env cd) = JStr "Iv1.b507a08c87ecfe98") /\
  fst (startDeviceFlow pf req w) <> missingClientId /\
  fst (pollDeviceFlow pf req w) <> missingClientId.
Proof.
  pose proof (truthy_clientId env cd) as Hset.
  split; [exact Hset |].
  split; [by intros Heq; rewrite Heq in Hset |].
  split; [by intros Heq; rewrite Heq in Hset |].
  split.
  { intros H1 H2 H3. unfold resolveDeviceFlowConfig. cbn [clientId].
    by rewrite (js_or_falsy _ _ H1), (js_or_falsy _ _ H2), (js_or_falsy _ _ H3). }
  split.
  - unfold startDeviceFlow, route, startDeviceFlow_try. cbn.
    destruct (repositoryFault pf); cbn; [discriminate |].
    destruct (findFault pf (params_credentialId req)); cbn; [discriminate |].
    destruct (findOneBy (credentials w) (params_credentialId req)) as [credential |]; cbn;
      [| discriminate].
    destruct (decryptCredentialData pf (encryptedData credential)) as [e | decryptedData];
      [discriminate |].
    rewrite truthy_js_or_r by reflexivity. cbn.
    destruct (axiosPost pf _ _ _); discriminate.
  - unfold pollDeviceFlow, route, pollDeviceFlow_try.
    destruct (truthy (deviceCodeOf req)); cbn;
      [| apply missingDeviceCode_not_missingClientId].
    destruct (repositoryFault pf); cbn; [discriminate |].
    destruct (findFault pf (params_credentialId req)); cbn; [discriminate |].
    destruct (findOneBy (credentials w) (params_credentialId req)) as [credential |]; cbn;
      [| discriminate].
    destruct (decryptCredentialData pf (encryptedData credential)) as [e | decryptedData];
      [discriminate |].
    rewrite truthy_js_or_r by reflexivity. cbn.
    destruct (axiosPost pf _ _ _) as [e | tokenData]; [discriminate |].
    destruct (truthy (prop tokenData "access_token")).
    + unfold persistToken. cbn.
      destruct (encryptCredentialData pf _); cbn; [discriminate |].
      destruct (updateFault pf (id credential)); discriminate.
    + apply answerWithoutToken_not_missingClientId.
Qed.

Lemma clientId_always_resolves_witness :
  clientId (resolveDeviceFlowConfig {[ "GITHUB_DEVICE_FLOW_CLIENT_ID" := "" ]}
                                    {[ "clientId" := JStr "" ]})
  = JStr "Iv1.b507a08c87ecfe98".
Proof.
  apply (proj1 (proj2 (proj2 (proj2
           (clientId_always_resolves {[ "GITHUB_DEVICE_FLOW_CLIENT_ID" := "" ]}
                                     {[ "clientId" := JStr "" ]}
                                     (sampleServer ∅ ∅) (pollRequest "dc-1") sampleWorld)))));
    reflexivity.
Defined.

End DeviceFlowProofs.

(** ** ChatGitHubCopilot.ts: how the token operations compose *)

Module CopilotMore.
Import Copilot.

Local Arguments double : simpl never.
Local Arguments refreshDeadline : simpl never.
Local Arguments normalizeExpiresAt : simpl never.

Lemma run_getCopilotToken_cached (pf : Platform) (w : World) (k gh : string)
    (cd : ICommonObject) (c : CachedToken) :
  copilotTokenCache w !! k = Some c ->
  fresh (clock pf (clockReads w)) (expiresAt c) ->
  token c <> "" ->
  run (handle pf) (getCopilotToken k gh cd) w
  = (inr (token c), mkWorld (copilotTokenCache w) (copilotModelCache w) (S (clockReads w))) /\
  exchangeCalls (trace (handle pf) (getCopilotToken k gh cd) w) = [].
Proof.
  intros Hk Hfresh Hne. unfold getCopilotToken, exchangeCalls.
  rewrite run_bind, trace_bind, List.filter_app.
  fold (exchangeCalls (trace (handle pf) (getCachedCopilotToken k cd) w)).
  rewrite CopilotProofs.no_exchange_in_getCachedCopilotToken. cbn [app].
  rewrite CopilotProofs.run_getCachedCopilotToken, Hk. cbn zeta.
  apply CopilotProofs.fresh_iff in Hfresh. rewrite Hfresh.
  apply truthy_JStr in Hne. rewrite Hne. by split.
Qed.

(** What the lookup leaves in the token cache: nothing changes unless
    it seeds the cache with the stored token, which is never empty. *)
Lemma getCachedCopilotToken_cache (pf : Platform) (w : World) (k : string)
    (cd : ICommonObject) :
  match fst (run (handle pf) (getCachedCopilotToken k cd) w) with
  | inr (Some t) =>
      exists c, token c = t /\
        (copilotTokenCache w !! k = Some c \/ t <> "") /\
        copilotTokenCache (snd (run (handle pf) (getCachedCopilotToken k cd) w))
        = <[k := c]> (copilotTokenCache w)
  | _ =>
      copilotTokenCache (snd (run (handle pf) (getCachedCopilotToken k cd) w))
      = copilotTokenCache w
  end /\
  copilotModelCache (snd (run (handle pf) (getCachedCopilotToken k cd) w))
  = copilotModelCache w.
Proof.
  assert (forall w0 : World,
    match fst (run (handle pf) (storedCopilotToken k cd) w0) with
    | inr (Some t) =>
        exists c, token c = t /\ t <> "" /\
          copilotTokenCache (snd (run (handle pf) (storedCopilotToken k cd) w0))
          = <[k := c]> (copilotTokenCache w0)
    | _ =>
        copilotTokenCache (snd (run (handle pf) (storedCopilotToken k cd) w0))
        = copilotTokenCache w0
    end /\
    copilotModelCache (snd (run (handle pf) (storedCopilotToken k cd) w0))
    = copilotModelCache w0) as Hstored.
  { intros w0. unfold storedCopilotToken.
    destruct (copilotToken cd) as [t |]; [| by cbn].
    destruct (copilotTokenExpiresAt cd) as [e |]; [| by cbn].
    destruct (truthy (JStr t)) eqn:Ht; [| by cbn].
    destruct (truthy (JNum e)); [| by cbn].
    cbn. destruct (Qgtb _ _); cbn; [| done].
    split; [| done]. eexists (mkCachedToken t _). split; [done |].
    split; [by apply truthy_JStr | done]. }
  rewrite CopilotProofs.run_getCachedCopilotToken.
  destruct (copilotTokenCache w !! k) as [c |] eqn:Hk; cbn zeta.
  - destruct (Qgtb (expiresAt c) _); cbn [fst snd].
    + split; [| done]. exists c. split; [done |]. split; [by left |].
      cbn. by rewrite insert_id.
    + pose proof (Hstored (mkWorld (copilotTokenCache w) (copilotModelCache w)
                                   (S (clockReads w)))) as [Hs Hm].
      split; [| exact Hm].
      destruct (fst (run (handle pf) (storedCopilotToken k cd) _)) as [e | [t |]];
        [exact Hs | | exact Hs].
      destruct Hs as (c' & Ht & Hne & Hc). exists c'. by repeat split; [| right |].
  - pose proof (Hstored w) as [Hs Hm]. split; [| exact Hm].
    destruct (fst (run (handle pf) (storedCopilotToken k cd) w)) as [e | [t |]];
      [exact Hs | | exact Hs].
    destruct Hs as (c' & Ht & Hne & Hc). exists c'. by repeat split; [| right |].
Qed.

Lemma run_exchangeAndCache_cache (pf : Platform) (w : World) (k gh : string) :
  match fst (run (handle pf) (exchangeAndCache k gh) w) with
  | inr t =>
      exists c, token c = t /\
        copilotTokenCache (snd (run (handle pf) (exchangeAndCache k gh) w))
        = <[k := c]> (copilotTokenCache w)
  | inl _ =>
      copilotTokenCache (snd (run (handle pf) (exchangeAndCache k gh) w))
      = copilotTokenCache w
  end /\
  copilotModelCache (snd (run (handle pf) (exchangeAndCache k gh) w)) = copilotModelCache w.
Proof.
  unfold exchangeAndCache, fetchCopilotToken. cbn.
  destruct (network pf _) as [e | response]; cbn; [done |].
  destruct (resp_ok response); cbn; [| by destruct (resp_text response)].
  destruct (resp_json response) as [e | data]; cbn; [done |].
  split; [| done]. by eexists (mkCachedToken _ _).
Qed.

Lemma getCopilotToken_cache (pf : Platform) (w : World) (k gh : string)
    (cd : ICommonObject) :
  match fst (run (handle pf) (getCopilotToken k gh cd) w) with
  | inr t =>
      exists c, token c = t /\
        copilotTokenCache (snd (run (handle pf) (getCopilotToken k gh cd) w))
        = <[k := c]> (copilotTokenCache w)
  | inl _ =>
      copilotTokenCache (snd (run (handle pf) (getCopilotToken k gh cd) w))
      = copilotTokenCache w
  end /\
  copilotModelCache (snd (run (handle pf) (getCopilotToken k gh cd) w)) = copilotModelCache w.
Proof.
  unfold getCopilotToken. rewrite run_bind.
  pose proof (getCachedCopilotToken_cache pf w k cd) as [Hcache Hmodels].
  destruct (run (handle pf) (getCachedCopilotToken k cd) w) as [[e | [t |]] w1];
    cbn [fst snd] in Hcache, Hmodels.
  - done.
  - destruct Hcache as (c & Ht & Hwhy & Hc). destruct (truthy (JStr t)) eqn:Htruthy.
    + cbn. split; [| done]. by exists c.
    + assert (copilotTokenCache w1 = copilotTokenCache w) as Hsame.
      { destruct Hwhy as [Hk | Hne]; [by rewrite Hc, insert_id |].
        apply truthy_JStr in Hne. congruence. }
      pose proof (run_exchangeAndCache_cache pf w1 k gh) as [Hx Hm].
      destruct (run (handle pf) (exchangeAndCache k gh) w1) as [[e | t'] w2];
        cbn [fst snd] in Hx, Hm |- *.
      * split; congruence.
      * destruct Hx as (c' & Ht' & Hc'). split; [| congruence].
        exists c'. split; [done |]. by rewrite Hc', Hsame.
  - pose proof (run_exchangeAndCache_cache pf w1 k gh) as [Hx Hm].
    destruct (run (handle pf) (exchangeAndCache k gh) w1) as [[e | t'] w2];
      cbn [fst snd] in Hx, Hm |- *.
    + split; congruence.
    + destruct Hx as (c' & Ht' & Hc'). split; [| congruence].
      exists c'. split; [done |]. by rewrite Hc', Hcache.
Qed.

(** X1. What [getCopilotToken] leaves behind. When it returns a token,
    the token cache holds, under the cache key, an entry with exactly the
    returned token, and every other key is as before. When it throws, the
    token cache is as before. The model cache is never touched. *)
Theorem getCopilotToken_leaves (pf : Platform) (w : World) (k gh : string)
    (cd : ICommonObject) :
  match fst (run (handle pf) (getCopilotToken k gh cd) w) with
  | inr t =>
      exists c, token c = t /\
        copilotTokenCache (snd (run (handle pf) (getCopilotToken k gh cd) w))
        = <[k := c]> (copilotTokenCache w) /\
        forall other, other <> k ->
          copilotTokenCache (snd (run (handle pf) (getCopilotToken k gh cd) w)) !! other
          = copilotTokenCache w !! other
  | inl _ =>
      copilotTokenCache (snd (run (handle pf) (getCopilotToken k gh cd) w))
      = copilotTokenCache w
  end /\
  copilotModelCache (snd (run (handle pf) (getCopilotToken k gh cd) w)) = copilotModelCache w.
Proof.
  pose proof (getCopilotToken_cache pf w k gh cd) as [Hcache Hmodels].
  split; [| exact Hmodels].
  destruct (fst (run (handle pf) (getCopilotToken k gh cd) w)) as [e | t]; [exact Hcache |].
  destruct Hcache as (c & Ht & Hc). exists c. split; [exact Ht |]. split; [exact Hc |].
  intros other Hother. rewrite Hc. by apply lookup_insert_ne.
Qed.

(** X2. A token that [getCopilotToken] has returned is served again
    from the cache: a later call for the same key, made while the cached
    entry is still fresh (its expiry is beyond the binary64 number that
    [now / 1000 + 300] evaluates to at the later call), returns the same
    non-empty token without calling the exchange endpoint, whatever access
    token and credential data the later call is given. *)
Theorem getCopilotToken_reuses (pf : Platform) (w : World) (k gh gh' : string)
    (cd cd' : ICommonObject) (t : string) :
  fst (run (handle pf) (getCopilotToken k gh cd) w) = inr t ->
  t <> "" ->
  (forall c,
     copilotTokenCache (snd (run (handle pf) (getCopilotToken k gh cd) w)) !! k = Some c ->
     fresh (clock pf (clockReads (snd (run (handle pf) (getCopilotToken k gh cd) w))))
           (expiresAt c)) ->
  fst (run (handle pf) (getCopilotToken k gh' cd')
         (snd (run (handle pf) (getCopilotToken k gh cd) w))) = inr t /\
  exchangeCalls (trace (handle pf) (getCopilotToken k gh' cd')
                   (snd (run (handle pf) (getCopilotToken k gh cd) w))) = [].
Proof.
  intros Hret Hne Hfresh.
  pose proof (getCopilotToken_cache pf w k gh cd) as [Hleft _].
  rewrite Hret in Hleft. destruct Hleft as (c & Ht & Hc).
  set (w1 := snd (run (handle pf) (getCopilotToken k gh cd) w)) in *.
  assert (copilotTokenCache w1 !! k = Some c) as Hk.
  { rewrite Hc. apply lookup_insert_eq. }
  destruct (run_getCopilotToken_cached pf w1 k gh' cd' c Hk (Hfresh c Hk)) as [Hrun Htrace].
  { congruence. }
  rewrite Hrun. split; [cbn; congruence | exact Htrace].
Qed.

Lemma getCopilotToken_reuses_witness :
  fst (run (handle (online (mkTokenPayload "new" 2000)))
         (getCopilotToken "cred-1" "gho_other" noStored)
         (snd (run (handle (online (mkTokenPayload "new" 2000)))
                 (getCopilotToken "cred-1" "gho_abc" noStored) emptyWorld)))
  = inr "new".
Proof.
  refine (proj1 (getCopilotToken_reuses (online (mkTokenPayload "new" 2000)) emptyWorld
                   "cred-1" "gho_abc" "gho_other" noStored noStored "new"
                   eq_refl _ _)).
  - discriminate.
  - intros c Hc. change (Some (mkCachedToken "new" 2000) = Some c) in Hc.
    injection Hc as <-. by vm_compute.
Defined.

(** X3. When neither the cache nor the credential data has a fresh
    token and the exchange fails, [getCopilotToken] throws and caches
    nothing. A network error and a rejected [response.json()] are thrown
    as they are. For a response that is not ok, the body is read first:
    when [response.text()] rejects, that rejection is what is thrown;
    otherwise an [Error] is thrown whose message carries the status, the
    status text and the body. *)
Theorem getCopilotToken_exchange_failure (pf : Platform) (w : World) (k gh : string)
    (cd : ICommonObject) :
  noFreshEntry pf w k ->
  noStoredFresh (storedCheckTime pf w k) cd ->
  (forall e,
     network pf (exchangeRequest gh) = inl e ->
     fst (run (handle pf) (getCopilotToken k gh cd) w) = inl e) /\
  (forall response errorText,
     network pf (exchangeRequest gh) = inr response ->
     resp_ok response = false ->
     resp_text response = inr errorText ->
     fst (run (handle pf) (getCopilotToken k gh cd) w)
     = inl (JsError ("Failed to get Copilot token: " ++ resp_status response ++ " "
                     ++ resp_statusText response ++ " - " ++ errorText))) /\
  (forall response e,
     network pf (exchangeRequest gh) = inr response ->
     resp_ok response = false ->
     resp_text response = inl e ->
     fst (run (handle pf) (getCopilotToken k gh cd) w) = inl e) /\
  (forall response e,
     network pf (exchangeRequest gh) = inr response ->
     resp_ok response = true ->
     resp_json response = inl e ->
     fst (run (handle pf) (getCopilotToken k gh cd) w) = inl e) /\
  (forall e,
     fst (run (handle pf) (getCopilotToken k gh cd) w) = inl e ->
     copilotTokenCache (snd (run (handle pf) (getCopilotToken k gh cd) w))
     = copilotTokenCache w).
Proof.
  intros Hno Hstored.
  assert (forall e,
     fst (run (handle pf) (getCopilotToken k gh cd) w) = inl e ->
     copilotTokenCache (snd (run (handle pf) (getCopilotToken k gh cd) w))
     = copilotTokenCache w) as Hkept.
  { intros e He. pose proof (getCopilotToken_cache pf w k gh cd) as [Hcache _].
    by rewrite He in Hcache. }
  destruct (CopilotProofs.run_getCachedCopilotToken_miss pf w k cd Hno Hstored) as [Hr _].
  unfold getCopilotToken in *. rewrite run_bind in *.
  destruct (run (handle pf) (getCachedCopilotToken k cd) w) as [r w1].
  cbn in Hr. subst r. unfold exchangeRequest.
  split; [| split; [| split; [| split]]]; [| | | | exact Hkept].
  - intros e Hnet. unfold exchangeAndCache, fetchCopilotToken. cbn. by rewrite Hnet.
  - intros response errorText Hnet Hok Htext. unfold exchangeAndCache, fetchCopilotToken.
    cbn. rewrite Hnet. cbn. rewrite Hok. cbn. by rewrite Htext.
  - intros response e Hnet Hok Htext. unfold exchangeAndCache, fetchCopilotToken.
    cbn. rewrite Hnet. cbn. rewrite Hok. cbn. by rewrite Htext.
  - intros response e Hnet Hok Hjson. unfold exchangeAndCache, fetchCopilotToken. cbn.
    rewrite Hnet. cbn. rewrite Hok. cbn. by rewrite Hjson.
Qed.

Lemma getCopilotToken_exchange_failure_witness :
  fst (run (handle (mkPlatform (fun _ => 1000000%Z)
                      (fun _ => inr (mkFetchResponse false "401" "Unauthorized"
                                       (inr "Bad credentials")
                                       (inl (JsError "body used already"))))))
         (getCopilotToken "cred-1" "gho_abc" noStored)
         (holding "cred-1" (mkCachedToken "old" 1300)))
  = inl (JsError "Failed to get Copilot token: 401 Unauthorized - Bad credentials") /\
  fst (run (handle (mkPlatform (fun _ => 1000000%Z)
                      (fun _ => inr (mkFetchResponse false "502" "Bad Gateway"
                                       (inl (JsError "socket hang up"))
                                       (inl (JsError "socket hang up"))))))
         (getCopilotToken "cred-1" "gho_abc" noStored)
         (holding "cred-1" (mkCachedToken "old" 1300)))
  = inl (JsError "socket hang up") /\
  copilotTokenCache
    (snd (run (handle offline) (getCopilotToken "cred-1" "gho_abc" noStored)
            (holding "cred-1" (mkCachedToken "old" 1300)))) !! "cred-1"
  = Some (mkCachedToken "old" 1300).
Proof.
  assert (forall net,
            noFreshEntry (mkPlatform (fun _ => 1000000%Z) net)
              (holding "cred-1" (mkCachedToken "old" 1300)) "cred-1") as Hno.
  { intros net c Hc. change (Some (mkCachedToken "old" 1300) = Some c) in Hc.
    injection Hc as <-. by vm_compute. }
  assert (forall net,
            noStoredFresh
              (storedCheckTime (mkPlatform (fun _ => 1000000%Z) net)
                 (holding "cred-1" (mkCachedToken "old" 1300)) "cred-1")
              noStored) as Hstored.
  { intros net t e [Ht _]. discriminate Ht. }
  split; [| split].
  - exact (proj1 (proj2 (getCopilotToken_exchange_failure
                           (mkPlatform (fun _ => 1000000%Z)
                              (fun _ => inr (mkFetchResponse false "401" "Unauthorized"
                                               (inr "Bad credentials")
                                               (inl (JsError "body used already")))))
                           (holding "cred-1" (mkCachedToken "old" 1300)) "cred-1" "gho_abc"
                           noStored (Hno _) (Hstored _)))
             (mkFetchResponse false "401" "Unauthorized" (inr "Bad credentials")
                (inl (JsError "body used already")))
             "Bad credentials" eq_refl eq_refl eq_refl).
  - exact (proj1 (proj2 (proj2 (getCopilotToken_exchange_failure
                           (mkPlatform (fun _ => 1000000%Z)
                              (fun _ => inr (mkFetchResponse false "502" "Bad Gateway"
                                               (inl (JsError "socket hang up"))
                                               (inl (JsError "socket hang up")))))
                           (holding "cred-1" (mkCachedToken "old" 1300)) "cred-1" "gho_abc"
                           noStored (Hno _) (Hstored _))))
             (mkFetchResponse false "502" "Bad Gateway" (inl (JsError "socket hang up"))
                (inl (JsError "socket hang up")))
             (JsError "socket hang up") eq_refl eq_refl eq_refl).
  - pose proof (getCopilotToken_exchange_failure offline
                  (holding "cred-1" (mkCachedToken "old" 1300)) "cred-1" "gho_abc" noStored
                  (Hno _) (Hstored _)) as (Hnet & _ & _ & _ & Hkept).
    rewrite (Hkept (JsError "network down") (Hnet (JsError "network down") eq_refl)).
    reflexivity.
Defined.

Lemma Qgtb_inject_Z (a b : Z) : Qgtb (inject_Z a) (inject_Z b) = true <-> (b < a)%Z.
Proof. by rewrite Qgtb_true, <- Zlt_Qlt. Qed.

(** X4. The model cache serves what was cached for 15 minutes. After
    [cacheCopilotModels] has stored a non-empty list at clock reading
    [t0], [getCachedCopilotModels] at reading [t1] returns that list when
    [t1 < t0 + 900000] ms; from [t0 + 900000] on it returns [undefined]
    and deletes the entry. An empty list is not cached at all. *)
Theorem model_cache_round_trip (pf : Platform) (w : World) (k : string)
    (ms : list INodeOptionsValue) :
  (ms <> [] ->
   (clock pf (S (clockReads w)) < clock pf (clockReads w) + 900000)%Z ->
   fst (run (handle pf) (getCachedCopilotModels k)
          (snd (run (handle pf) (cacheCopilotModels k ms) w))) = inr (Some ms)) /\
  (ms <> [] ->
   (clock pf (clockReads w) + 900000 <= clock pf (S (clockReads w)))%Z ->
   fst (run (handle pf) (getCachedCopilotModels k)
          (snd (run (handle pf) (cacheCopilotModels k ms) w))) = inr None /\
   copilotModelCache
     (snd (run (handle pf) (getCachedCopilotModels k)
             (snd (run (handle pf) (cacheCopilotModels k ms) w)))) !! k = None) /\
  (ms = [] -> run (handle pf) (cacheCopilotModels k ms) w = (inr tt, w)).
Proof.
  split; [| split].
  - intros Hne Hlt. destruct ms as [| m ms]; [done |].
    cbn. rewrite lookup_insert_eq. cbn.
    assert (Qgtb (inject_Z (clock pf (clockReads w) + COPILOT_MODEL_CACHE_TTL_MS))
                 (inject_Z (clock pf (S (clockReads w)))) = true) as ->; [| done].
    apply Qgtb_inject_Z. exact Hlt.
  - intros Hne Hge. destruct ms as [| m ms]; [done |].
    cbn. rewrite lookup_insert_eq. cbn.
    assert (Qgtb (inject_Z (clock pf (clockReads w) + COPILOT_MODEL_CACHE_TTL_MS))
                 (inject_Z (clock pf (S (clockReads w)))) = false) as ->.
    { apply not_true_is_false. rewrite Qgtb_inject_Z.
      change COPILOT_MODEL_CACHE_TTL_MS with 900000%Z. lia. }
    cbn. split; [done |]. apply lookup_delete_eq.
  - by intros ->.
Qed.

Lemma model_cache_round_trip_witness :
  fst (run (handle offline) (getCachedCopilotModels "m")
         (snd (run (handle offline) (cacheCopilotModels "m" [mkOption "GPT-4o" "gpt-4o"])
                 emptyWorld)))
  = inr (Some [mkOption "GPT-4o" "gpt-4o"]) /\
  run (handle offline) (cacheCopilotModels "m" []) emptyWorld = (inr tt, emptyWorld).
Proof.
  split.
  - apply (proj1 (model_cache_round_trip offline emptyWorld "m" [mkOption "GPT-4o" "gpt-4o"])).
    + discriminate.
    + reflexivity.
  - apply (proj2 (proj2 (model_cache_round_trip offline emptyWorld "m" []))). reflexivity.
Defined.

(** X5. Normalisation never moves an expiry later: the result of
    [normalizeExpiresAt] is at most its argument, so a token that is
    fresh after normalisation is fresh by its raw expiry too. Up to
    10^15 the result is at most 10^12 and normalising it again changes
    nothing. *)
Theorem normalizeExpiresAt_never_later (e : Q) :
  (normalizeExpiresAt e <= e)%Q /\
  (forall now, fresh now (normalizeExpiresAt e) -> fresh now e) /\
  ((e <= 1000000000000000)%Q ->
   (normalizeExpiresAt e <= 1000000000000)%Q /\
   normalizeExpiresAt (normalizeExpiresAt e) = normalizeExpiresAt e).
Proof.
  assert ((1000000000000 < e)%Q -> (1 <= e / 1000)%Q) as Hone.
  { intros Hbig. apply Qle_shift_div_l; [reflexivity |]. apply Qlt_le_weak.
    eapply Qle_lt_trans; [| exact Hbig]. discriminate. }
  assert ((normalizeExpiresAt e <= e)%Q) as Hle.
  { unfold normalizeExpiresAt.
    destruct (Qgtb e 1000000000000) eqn:Hbig; [| apply Qle_refl].
    apply Qgtb_true in Hbig.
    destruct (double_relative (e / 1000) (Hone Hbig)) as [_ Hu].
    pose proof (Qfloor_le (double (e / 1000))) as Hf.
    assert (pow2 (-53) <= 1)%Q as Hp by discriminate.
    assert (e / 1000 == e * (1 # 1000))%Q as Hx by reflexivity.
    assert (e / 1000 * (1 + pow2 (-53)) <= e / 1000 * 2)%Q as Hq.
    { apply Qmult_le_l; lra. }
    lra. }
  split; [exact Hle |]. split.
  - intros now Hfresh. unfold fresh in *. eapply Qlt_le_trans; [exact Hfresh | exact Hle].
  - intros Hbound.
    assert ((normalizeExpiresAt e <= 1000000000000)%Q) as Hsmall.
    { unfold normalizeExpiresAt.
      destruct (Qgtb e 1000000000000) eqn:Hbig; [| by apply Qgtb_false].
      apply Qgtb_true in Hbig.
      assert (e / 1000 == e * (1 # 1000))%Q as Hx by reflexivity.
      assert (pow2 53 == 9007199254740992)%Q as Hp by reflexivity.
      pose proof (Qfloor_le (double (e / 1000))) as Hf.
      pose proof (double_le_int (e / 1000) 1000000000000) as Hd.
      change (inject_Z 1000000000000) with 1000000000000%Q in Hd.
      specialize (Hd ltac:(lra) ltac:(lra) ltac:(lra)). lra. }
    split; [exact Hsmall |].
    unfold normalizeExpiresAt at 1. apply Qgtb_false in Hsmall. by rewrite Hsmall.
Qed.

Lemma normalizeExpiresAt_never_later_witness :
  normalizeExpiresAt (normalizeExpiresAt 1893456000000) = normalizeExpiresAt 1893456000000.
Proof.
  apply (proj2 (proj2 (normalizeExpiresAt_never_later 1893456000000))). discriminate.
Defined.

End CopilotMore.

(** ** routes/github-copilot/index.ts: the other outcomes of the routes *)

Module DeviceFlowMore.
Import DeviceFlow.

Local Arguments persistToken : simpl never.
Local Arguments answerWithoutToken : simpl never.

(** X6. For a credential id that the repository does not know, both
    routes answer 404 "Credential not found" after the lookup alone:
    nothing is decrypted, nothing is sent upstream, nothing is written. *)
Theorem unknown_credential (pf : ServerPlatform) (w : ServerWorld) (req : Request) :
  repositoryFault pf = None ->
  findFault pf (params_credentialId req) = None ->
  findOneBy (credentials w) (params_credentialId req) = None ->
  (startDeviceFlow pf req w = (credentialNotFound, w) /\
   trace (serve pf) (startDeviceFlow_try (processEnv pf) req) w
   = [ logged GetRepository; logged (FindOneBy (params_credentialId req)) ]) /\
  (truthy (deviceCodeOf req) = true ->
   pollDeviceFlow pf req w = (credentialNotFound, w) /\
   trace (serve pf) (pollDeviceFlow_try (processEnv pf) req) w
   = [ logged GetRepository; logged (FindOneBy (params_credentialId req)) ]).
Proof.
  intros Hrepo Hfind Hrow. split.
  - unfold startDeviceFlow, route, startDeviceFlow_try. cbn.
    rewrite Hrepo, Hfind. cbn. by rewrite Hrow.
  - intros Hcode. unfold pollDeviceFlow, route, pollDeviceFlow_try. rewrite Hcode. cbn.
    rewrite Hrepo, Hfind. cbn. by rewrite Hrow.
Qed.

Lemma unknown_credential_witness :
  fst (startDeviceFlow (sampleServer ∅ ∅) (mkRequest "cred-2" None) sampleWorld)
  = credentialNotFound /\
  fst (pollDeviceFlow (sampleServer ∅ ∅)
         (mkRequest "cred-2" (Some {[ "device_code" := JStr "dc-1" ]})) sampleWorld)
  = credentialNotFound.
Proof.
  split.
  - by rewrite (proj1 (proj1 (unknown_credential (sampleServer ∅ ∅) sampleWorld
                                (mkRequest "cred-2" None) eq_refl eq_refl eq_refl))).
  - destruct (proj2 (unknown_credential (sampleServer ∅ ∅) sampleWorld
                        (mkRequest "cred-2" (Some {[ "device_code" := JStr "dc-1" ]}))
                        eq_refl eq_refl eq_refl)) as [Hpoll _]; [reflexivity |].
    by rewrite Hpoll.
Defined.

(** X7. A successful start: the route posts the resolved client id and
    scope to the device code endpoint and answers 200 with every property
    of the upstream answer as it came; [success: true] and the credential
    id are added, but a property of the same name in the upstream answer
    takes their place. The server state is left as it was. *)
Theorem startDeviceFlow_answer (pf : ServerPlatform) (w : ServerWorld) (req : Request)
    (credential : Credential) (decryptedData response : JObj) :
  repositoryFault pf = None ->
  findFault pf (params_credentialId req) = None ->
  findOneBy (credentials w) (params_credentialId req) = Some credential ->
  decryptCredentialData pf (encryptedData credential) = inr decryptedData ->
  axiosPost pf DEVICE_CODE_URL
    (obj [ ("client_id", clientId (resolveDeviceFlowConfig (processEnv pf) decryptedData));
           ("scope", scope (resolveDeviceFlowConfig (processEnv pf) decryptedData)) ])
    JSON_HEADERS = inr response ->
  exists answer : JObj,
    startDeviceFlow pf req w = (Respond 200 answer, w) /\
    (forall key value, response !! key = Some value -> answer !! key = Some value) /\
    (response !! "success" = None -> answer !! "success" = Some (JBool true)) /\
    (response !! "credentialId" = None ->
     answer !! "credentialId" = Some (JStr (params_credentialId req))) /\
    (forall key, key <> "success" -> key <> "credentialId" ->
                 answer !! key = response !! key).
Proof.
  intros Hrepo Hfind Hrow Hdec Hpost.
  exists (response ∪ obj [ ("success", JBool true);
                           ("credentialId", JStr (params_credentialId req)) ]).
  split.
  { unfold startDeviceFlow, route, startDeviceFlow_try. cbn.
    rewrite Hrepo, Hfind. cbn. rewrite Hrow. cbn. rewrite Hdec.
    rewrite DeviceFlowProofs.truthy_js_or_r by reflexivity. cbn.
    unfold resolveDeviceFlowConfig in Hpost. cbn in Hpost. rewrite Hpost. reflexivity. }
  split; [| split; [| split]].
  - intros key value Hkey. apply lookup_union_Some_l. exact Hkey.
  - intros Hnone. rewrite lookup_union_r by exact Hnone.
    by rewrite !DeviceFlowProofs.lookup_obj_cons.
  - intros Hnone. rewrite lookup_union_r by exact Hnone.
    by rewrite !DeviceFlowProofs.lookup_obj_cons.
  - intros key Hs Hc. rewrite lookup_union.
    rewrite !DeviceFlowProofs.lookup_obj_cons, DeviceFlowProofs.lookup_obj_nil.
    apply String.eqb_neq in Hs, Hc. rewrite String.eqb_sym in Hs. rewrite String.eqb_sym in Hc.
    rewrite Hs, Hc. by destruct (response !! key).
Qed.

Lemma startDeviceFlow_answer_witness :
  exists answer : JObj,
    fst (startDeviceFlow
           (sampleServer ∅ {[ "device_code" := JStr "dc-1"; "user_code" := JStr "AB-12" ]})
           (mkRequest "cred-1" None) sampleWorld) = Respond 200 answer /\
    answer !! "user_code" = Some (JStr "AB-12") /\
    answer !! "credentialId" = Some (JStr "cred-1").
Proof.
  destruct (startDeviceFlow_answer
              (sampleServer ∅ {[ "device_code" := JStr "dc-1"; "user_code" := JStr "AB-12" ]})
              sampleWorld (mkRequest "cred-1" None)
              (mkCredential "cred-1" "blob" (sampleDate 0)) ∅
              {[ "device_code" := JStr "dc-1"; "user_code" := JStr "AB-12" ]}
              eq_refl eq_refl eq_refl eq_refl eq_refl)
    as (answer & Hrun & Hkeep & _ & Hid & _).
  exists answer. split; [by rewrite Hrun |]. split.
  - apply Hkeep. reflexivity.
  - apply Hid. reflexivity.
Defined.

Lemma run_persistToken_credentials (pf : ServerPlatform) (w : ServerWorld) (cid : string)
    (credential : Credential) (decryptedData tokenData : JObj) :
  match fst (run (serve pf) (persistToken cid credential decryptedData tokenData) w) with
  | inl _ =>
      credentials (snd (run (serve pf)
                          (persistToken cid credential decryptedData tokenData) w))
      = credentials w
  | inr answer =>
      answer = Respond 200 (obj [ ("success", JBool true); ("status", JStr "authorized");
                                  ("credentialId", JStr cid) ])
  end.
Proof.
  unfold persistToken. cbn -[obj].
  destruct (encryptCredentialData pf _) as [e | encrypted]; cbn -[obj]; [done |].
  by destruct (updateFault pf (id credential)).
Qed.

(** X8. The routes write to the credential table on one path only. The
    start route leaves the whole server state as it found it, whatever
    happens. The poll route leaves the credential table as it found it
    unless it answers 200 "authorized": no error answer, no pending
    answer and no thrown error goes with a change of a credential. *)
Theorem credentials_change_only_when_authorized (pf : ServerPlatform) (w : ServerWorld)
    (req : Request) :
  snd (startDeviceFlow pf req w) = w /\
  (fst (pollDeviceFlow pf req w)
   <> Respond 200 (obj [ ("success", JBool true); ("status", JStr "authorized");
                         ("credentialId", JStr (params_credentialId req)) ]) ->
   credentials (snd (pollDeviceFlow pf req w)) = credentials w).
Proof.
  split.
  - unfold startDeviceFlow, route, startDeviceFlow_try. cbn.
    destruct (repositoryFault pf); cbn; [done |].
    destruct (findFault pf (params_credentialId req)); cbn; [done |].
    destruct (findOneBy (credentials w) (params_credentialId req)) as [credential |]; cbn;
      [| done].
    destruct (decryptCredentialData pf (encryptedData credential)) as [e | decryptedData];
      [done |].
    rewrite DeviceFlowProofs.truthy_js_or_r by reflexivity. cbn.
    by destruct (axiosPost pf _ _ _).
  - unfold pollDeviceFlow, route, pollDeviceFlow_try.
    destruct (truthy (deviceCodeOf req)); cbn; [| done].
    destruct (repositoryFault pf); cbn; [done |].
    destruct (findFault pf (params_credentialId req)); cbn; [done |].
    destruct (findOneBy (credentials w) (params_credentialId req)) as [credential |]; cbn;
      [| done].
    destruct (decryptCredentialData pf (encryptedData credential)) as [e | decryptedData];
      [done |].
    rewrite DeviceFlowProofs.truthy_js_or_r by reflexivity. cbn.
    destruct (axiosPost pf _ _ _) as [e | tokenData]; [done |].
    destruct (truthy (prop tokenData "access_token")); [| done].
    pose proof (run_persistToken_credentials pf w (params_credentialId req) credential
                  decryptedData tokenData) as Hpersist.
    destruct (run (serve pf) (persistToken _ _ _ _) w) as [[e | answer] w1];
      cbn [fst snd] in *; [done |].
    intros Hother. by subst answer.
Qed.

Lemma credentials_change_only_when_authorized_witness :
  credentials (snd (pollDeviceFlow (sampleServer ∅ {[ "error" := JStr "access_denied" ]})
                      (pollRequest "dc-1") sampleWorld))
  = credentials sampleWorld.
Proof.
  apply (proj2 (credentials_change_only_when_authorized
                  (sampleServer ∅ {[ "error" := JStr "access_denied" ]}) sampleWorld
                  (pollRequest "dc-1"))).
  vm_compute. discriminate.
Defined.

(** X9. When the upstream POST fails, the route hands the error to
    [next] as an internal server error (500) whose message is the route's
    prefix followed by the error's message, or by "Unknown error" when
    what was thrown is not an [Error]; the server state is untouched. *)
Theorem upstream_failure (pf : ServerPlatform) (w : ServerWorld) (req : Request)
    (credential : Credential) (decryptedData : JObj) (e : Exn) :
  repositoryFault pf = None ->
  findFault pf (params_credentialId req) = None ->
  findOneBy (credentials w) (params_credentialId req) = Some credential ->
  decryptCredentialData pf (encryptedData credential) = inr decryptedData ->
  (axiosPost pf DEVICE_CODE_URL
     (obj [ ("client_id", clientId (resolveDeviceFlowConfig (processEnv pf) decryptedData));
            ("scope", scope (resolveDeviceFlowConfig (processEnv pf) decryptedData)) ])
     JSON_HEADERS = inl e ->
   startDeviceFlow pf req w
   = (Next 500 ("GitHub device flow init error: " ++ errorMessage e), w)) /\
  (truthy (deviceCodeOf req) = true ->
   axiosPost pf ACCESS_TOKEN_URL
     (tokenRequest (clientId (resolveDeviceFlowConfig (processEnv pf) decryptedData))
                   (deviceCodeOf req))
     JSON_HEADERS = inl e ->
   pollDeviceFlow pf req w
   = (Next 500 ("GitHub device flow polling error: " ++ errorMessage e), w)) /\
  errorMessage JsThrown = "Unknown error".
Proof.
  intros Hrepo Hfind Hrow Hdec. split; [| split; [| reflexivity]].
  - intros Hpost. unfold startDeviceFlow, route, startDeviceFlow_try. cbn.
    rewrite Hrepo, Hfind. cbn. rewrite Hrow. cbn. rewrite Hdec.
    rewrite DeviceFlowProofs.truthy_js_or_r by reflexivity. cbn.
    unfold resolveDeviceFlowConfig in Hpost. cbn in Hpost. by rewrite Hpost.
  - intros Hcode Hpost. unfold pollDeviceFlow, route, pollDeviceFlow_try.
    rewrite Hcode. cbn.
    rewrite Hrepo, Hfind. cbn. rewrite Hrow. cbn. rewrite Hdec.
    rewrite DeviceFlowProofs.truthy_js_or_r by reflexivity. cbn.
    unfold resolveDeviceFlowConfig in Hpost. cbn in Hpost. by rewrite Hpost.
Qed.

Lemma upstream_failure_witness :
  pollDeviceFlow
    (mkServerPlatform ∅ sampleDate (fun _ => inr ∅) (fun _ => inr "sealed")
       (fun _ _ _ => inl (JsError "connect ETIMEDOUT")) None (fun _ => None) (fun _ => None))
    (pollRequest "dc-1") sampleWorld
  = (Next 500 "GitHub device flow polling error: connect ETIMEDOUT", sampleWorld).
Proof.
  apply (proj1 (proj2 (upstream_failure
           (mkServerPlatform ∅ sampleDate (fun _ => inr ∅) (fun _ => inr "sealed")
              (fun _ _ _ => inl (JsError "connect ETIMEDOUT")) None (fun _ => None)
              (fun _ => None))
           sampleWorld (pollRequest "dc-1") (mkCredential "cred-1" "blob" (sampleDate 0)) ∅
           (JsError "connect ETIMEDOUT") eq_refl eq_refl eq_refl eq_refl)));
    reflexivity.
Defined.

(** X10. A token that cannot be stored is not reported as stored. When
    the token endpoint has answered with an access token but encrypting
    the updated bag fails, or the repository update fails, the poll route
    ends in a 500 through [next] and the credential table is as before:
    the caller never sees "authorized" for a token that was not written. *)
Theorem token_not_stored (pf : ServerPlatform) (w : ServerWorld) (req : Request)
    (credential : Credential) (decryptedData tokenData : JObj) (e : Exn) :
  DeviceFlow.tokenEndpointAnswers pf w req credential decryptedData tokenData ->
  truthy (prop tokenData "access_token") = true ->
  (encryptCredentialData pf
     (updatedCredentialData decryptedData tokenData (serverClock pf (datesTaken w)))
   = inl e ->
   fst (pollDeviceFlow pf req w)
   = Next 500 ("GitHub device flow polling error: " ++ errorMessage e) /\
   credentials (snd (pollDeviceFlow pf req w)) = credentials w) /\
  (forall encrypted,
     encryptCredentialData pf
       (updatedCredentialData decryptedData tokenData (serverClock pf (datesTaken w)))
     = inr encrypted ->
     updateFault pf (id credential) = Some e ->
     fst (pollDeviceFlow pf req w)
     = Next 500 ("GitHub device flow polling error: " ++ errorMessage e) /\
     credentials (snd (pollDeviceFlow pf req w)) = credentials w).
Proof.
  intros Hreach Htruthy. unfold pollDeviceFlow, route.
  rewrite (DeviceFlowProofs.run_pollDeviceFlow_try pf w req credential decryptedData
             tokenData Hreach).
  rewrite Htruthy. unfold persistToken. split.
  - intros Henc. cbn. by rewrite Henc.
  - intros encrypted Henc Hupd. cbn. rewrite Henc. cbn. by rewrite Hupd.
Qed.

Lemma token_not_stored_witness :
  fst (pollDeviceFlow
         (mkServerPlatform ∅ sampleDate (fun _ => inr ∅) (fun _ => inr "sealed")
            (fun _ _ _ => inr {[ "access_token" := JStr "gho_abc" ]}) None (fun _ => None)
            (fun _ => Some (JsError "database is locked")))
         (pollRequest "dc-1") sampleWorld)
  = Next 500 "GitHub device flow polling error: database is locked".
Proof.
  apply (proj2 (token_not_stored
           (mkServerPlatform ∅ sampleDate (fun _ => inr ∅) (fun _ => inr "sealed")
              (fun _ _ _ => inr {[ "access_token" := JStr "gho_abc" ]}) None (fun _ => None)
              (fun _ => Some (JsError "database is locked")))
           sampleWorld (pollRequest "dc-1") (mkCredential "cred-1" "blob" (sampleDate 0)) ∅
           {[ "access_token" := JStr "gho_abc" ]} (JsError "database is locked")
           ltac:(repeat split) eq_refl) "sealed" eq_refl eq_refl).
Defined.

(** X11. Storing a token does not change the device flow configuration
    of a credential: the bag that a successful poll writes resolves to
    the same client id and scope as the bag it was made from, in every
    environment. *)
Theorem updatedCredentialData_keeps_config (env : gmap string string)
    (decryptedData tokenData : JObj) (receivedAt : Date) :
  resolveDeviceFlowConfig env (updatedCredentialData decryptedData tokenData receivedAt)
  = resolveDeviceFlowConfig env decryptedData.
Proof.
  assert (forall key,
            key ∉ tokenFields ->
            prop (updatedCredentialData decryptedData tokenData receivedAt) key
            = prop decryptedData key) as Hprop.
  { intros key Hkey. unfold prop.
    by rewrite DeviceFlowProofs.lookup_updatedCredentialData_other. }
  unfold resolveDeviceFlowConfig.
  rewrite !Hprop; [reflexivity | | | |];
    unfold tokenFields; rewrite !not_elem_of_cons;
    (repeat split; [apply String.eqb_neq; reflexivity .. | apply not_elem_of_nil]).
Qed.

(** X12. The poll route accepts the device code under either name.
    The request it posts to the token endpoint carries the resolved
    client id, the fixed device-code grant type and, as [device_code],
    the body's [deviceCode] when that is set and the body's
    [device_code] otherwise; it is the only request sent upstream up to
    that point. *)
Theorem token_request_sent (pf : ServerPlatform) (w : ServerWorld) (req : Request)
    (credential : Credential) (decryptedData tokenData : JObj) :
  DeviceFlow.tokenEndpointAnswers pf w req credential decryptedData tokenData ->
  exists code rest,
    trace (serve pf) (pollDeviceFlow_try (processEnv pf) req) w
    = logged GetRepository ::
      logged (FindOneBy (params_credentialId req)) ::
      logged (DecryptCredentialData (encryptedData credential)) ::
      logged (AxiosPost ACCESS_TOKEN_URL
                (obj [ ("client_id",
                        clientId (resolveDeviceFlowConfig (processEnv pf) decryptedData));
                       ("device_code", code);
                       ("grant_type", JStr "urn:ietf:params:oauth:grant-type:device_code") ])
                JSON_HEADERS) :: rest /\
    truthy code = true /\
    (truthy (opt_prop (body req) "deviceCode") = true ->
     code = opt_prop (body req) "deviceCode") /\
    (truthy (opt_prop (body req) "deviceCode") = false ->
     code = opt_prop (body req) "device_code").
Proof.
  intros Hreach. exists (deviceCodeOf req). eexists. split.
  { exact (DeviceFlowProofs.trace_pollDeviceFlow_try pf w req credential decryptedData
             tokenData Hreach). }
  destruct Hreach as (Hcode & _). split; [exact Hcode |].
  unfold deviceCodeOf. split; intros H.
  - by apply DeviceFlowProofs.js_or_truthy.
  - by apply DeviceFlowProofs.js_or_falsy.
Qed.

Lemma token_request_sent_witness :
  exists rest,
    trace (serve (sampleServer ∅ {[ "error" := JStr "slow_down" ]}))
      (pollDeviceFlow_try ∅ (mkRequest "cred-1" (Some {[ "device_code" := JStr "dc-9" ]})))
      sampleWorld
    = logged GetRepository ::
      logged (FindOneBy "cred-1") ::
      logged (DecryptCredentialData "blob") ::
      logged (AxiosPost ACCESS_TOKEN_URL
                (obj [ ("client_id", JStr "Iv1.b507a08c87ecfe98");
                       ("device_code", JStr "dc-9");
                       ("grant_type", JStr "urn:ietf:params:oauth:grant-type:device_code") ])
                JSON_HEADERS) :: rest.
Proof.
  destruct (token_request_sent (sampleServer ∅ {[ "error" := JStr "slow_down" ]}) sampleWorld
              (mkRequest "cred-1" (Some {[ "device_code" := JStr "dc-9" ]}))
              (mkCredential "cred-1" "blob" (sampleDate 0)) ∅
              {[ "error" := JStr "slow_down" ]})
    as (code & rest & Htrace & _ & _ & Hsnake).
  { repeat split. }
  exists rest. rewrite (Hsnake ltac:(reflexivity)) in Htrace. exact Htrace.
Defined.

End DeviceFlowMore.

(** ** ChatGitHubCopilot.ts: base URL, cache key and model list *)

Module CopilotModelsProofs.
Import Copilot CopilotModels.

Lemma stripTrailingSlashes_cons (c : ascii) (rest : string) :
  stripTrailingSlashes (String c rest)
  = if Ascii.eqb c "/"%char && String.eqb (stripTrailingSlashes rest) ""
    then "" else String c (stripTrailingSlashes rest).
Proof. reflexivity. Qed.

Lemma stripTrailingSlashes_app_slash (front : string) :
  stripTrailingSlashes (front ++ "/") = stripTrailingSlashes front.
Proof.
  induction front as [| c front IH]; [reflexivity |].
  change (String c front ++ "/") with (String c (front ++ "/")).
  by rewrite !stripTrailingSlashes_cons, IH.
Qed.

Lemma stripTrailingSlashes_idem (s : string) :
  stripTrailingSlashes (stripTrailingSlashes s) = stripTrailingSlashes s.
Proof.
  induction s as [| c s IH]; [reflexivity |].
  rewrite stripTrailingSlashes_cons.
  destruct (Ascii.eqb c "/"%char && String.eqb (stripTrailingSlashes s) "") eqn:Hc;
    [reflexivity |].
  by rewrite stripTrailingSlashes_cons, IH, Hc.
Qed.

Lemma stripTrailingSlashes_length (s : string) :
  String.length (stripTrailingSlashes s) <= String.length s.
Proof.
  induction s as [| c s IH]; [reflexivity |].
  rewrite stripTrailingSlashes_cons.
  destruct (Ascii.eqb c "/"%char && String.eqb (stripTrailingSlashes s) ""); cbn; lia.
Qed.

Lemma length_append (a b : string) :
  String.length (a ++ b) = String.length a + String.length b.
Proof.
  induction a as [| c a IH]; [reflexivity |].
  change (String c a ++ b) with (String c (a ++ b)). cbn [String.length]. by rewrite IH.
Qed.

Lemma stripTrailingSlashes_no_slash (s : string) :
  ~ endsWithSlash (stripTrailingSlashes s).
Proof.
  intros [front Hfront].
  pose proof (stripTrailingSlashes_idem s) as Hidem.
  rewrite Hfront, stripTrailingSlashes_app_slash in Hidem.
  pose proof (stripTrailingSlashes_length front) as Hlen.
  rewrite Hidem, length_append in Hlen. cbn in Hlen. lia.
Qed.

Lemma append_empty_l (s : string) : "" ++ s = s.
Proof. reflexivity. Qed.

Lemma append_cons (c : ascii) (a b : string) : String c a ++ b = String c (a ++ b).
Proof. reflexivity. Qed.

Lemma stripTrailingSlashes_slashes (s : string) :
  exists n, s = stripTrailingSlashes s ++ slashes n.
Proof.
  induction s as [| c s [n IH]]; [by exists 0 |].
  rewrite stripTrailingSlashes_cons.
  destruct (Ascii.eqb c "/"%char) eqn:Hc; cbn [andb].
  - apply Ascii.eqb_eq in Hc. subst c.
    destruct (String.eqb (stripTrailingSlashes s) "") eqn:Hs.
    + apply String.eqb_eq in Hs. rewrite Hs, append_empty_l in IH.
      exists (S n). rewrite append_empty_l. cbn [slashes]. congruence.
    + exists n. rewrite append_cons. congruence.
  - exists n. rewrite append_cons. congruence.
Qed.

(** X13. [normalizeBaseUrl] never returns a URL that ends with a
    slash. Without a URL, or with one that trims to the empty string, it
    returns the default base URL; otherwise it returns the trimmed URL
    without its trailing slashes, and nothing else is removed. The result
    is the empty string exactly when the trimmed URL consists of slashes
    only. *)
Theorem normalizeBaseUrl_no_trailing_slash (trim : string -> string)
    (baseUrl : option string) :
  ~ endsWithSlash (normalizeBaseUrl trim baseUrl) /\
  (baseUrl = None -> normalizeBaseUrl trim baseUrl = "https://api.githubcopilot.com") /\
  (forall url, baseUrl = Some url -> trim url = "" ->
               normalizeBaseUrl trim baseUrl = "https://api.githubcopilot.com") /\
  (forall url, baseUrl = Some url -> trim url <> "" ->
               (exists n, trim url = normalizeBaseUrl trim baseUrl ++ slashes n) /\
               (normalizeBaseUrl trim baseUrl = "" <-> exists n, trim url = slashes (S n))).
Proof.
  assert (~ endsWithSlash DEFAULT_BASE_URL) as Hdefault.
  { change DEFAULT_BASE_URL with (stripTrailingSlashes DEFAULT_BASE_URL).
    apply stripTrailingSlashes_no_slash. }
  split; [| split; [| split]].
  - unfold normalizeBaseUrl. destruct baseUrl as [url |]; [| exact Hdefault].
    destruct (negb (truthy (JStr (trim url)))); [exact Hdefault |].
    apply stripTrailingSlashes_no_slash.
  - by intros ->.
  - intros url -> Hempty. unfold normalizeBaseUrl. by rewrite Hempty.
  - intros url -> Hne. unfold normalizeBaseUrl.
    apply truthy_JStr in Hne as Htruthy. rewrite Htruthy. cbn [negb].
    destruct (stripTrailingSlashes_slashes (trim url)) as [n Hn].
    split; [by exists n |]. split.
    + intros Hempty. rewrite Hempty, append_empty_l in Hn.
      destruct n as [| n]; [done | by exists n].
    + intros [m Hm]. rewrite Hm. clear. induction m as [| m IH]; [reflexivity |].
      change (slashes (S (S m))) with (String "/"%char (slashes (S m))).
      by rewrite stripTrailingSlashes_cons, IH.
Qed.

Lemma normalizeBaseUrl_no_trailing_slash_witness :
  normalizeBaseUrl trimSpaces (Some "  ") = "https://api.githubcopilot.com" /\
  exists n, trimSpaces " https://proxy.example/v1// "
            = normalizeBaseUrl trimSpaces (Some " https://proxy.example/v1// ") ++ slashes n.
Proof.
  split.
  - apply (proj1 (proj2 (proj2 (normalizeBaseUrl_no_trailing_slash trimSpaces (Some "  "))))
             "  " eq_refl eq_refl).
  - refine (proj1 (proj2 (proj2 (proj2 (normalizeBaseUrl_no_trailing_slash trimSpaces
                                          (Some " https://proxy.example/v1// "))))
                     " https://proxy.example/v1// " eq_refl _)).
    discriminate.
Defined.

Lemma leb_trans (a b c : string) :
  String.leb a b = true -> String.leb b c = true -> String.leb a c = true.
Proof.
  unfold String.leb. revert b c.
  induction a as [| x a IH]; intros [| y b] [| z c]; cbn; try done.
  unfold Ascii.compare.
  destruct (N.compare_spec (N_of_ascii x) (N_of_ascii y)) as [Hxy | Hxy | Hxy];
    destruct (N.compare_spec (N_of_ascii y) (N_of_ascii z)) as [Hyz | Hyz | Hyz];
    destruct (N.compare_spec (N_of_ascii x) (N_of_ascii z)) as [Hxz | Hxz | Hxz];
    try done; try lia.
  apply IH.
Qed.

#[local] Instance codeUnitLe_trans : Transitive codeUnitLe.
Proof. intros a b c. apply leb_trans. Qed.

#[local] Instance codeUnitLe_total : Total codeUnitLe.
Proof. intros a b. apply String.leb_total. Qed.

#[local] Instance codeUnitLe_antisym : AntiSymm eq codeUnitLe.
Proof. intros a b. apply String.leb_antisym. Qed.

Lemma sorted_keys_Permutation (keys1 keys2 : list string) :
  keys1 ≡ₚ keys2 -> merge_sort codeUnitLe keys1 = merge_sort codeUnitLe keys2.
Proof.
  intros Hperm. apply (StronglySorted_unique codeUnitLe).
  - apply StronglySorted_merge_sort; apply _.
  - apply StronglySorted_merge_sort; apply _.
  - by rewrite !merge_sort_Permutation.
Qed.

Lemma headerValue_In (h : Headers) (key value : string) :
  NoDup (List.map fst h) -> In (key, value) h -> headerValue h key = value.
Proof.
  induction h as [| [k v] h IH]; cbn; [done |].
  intros Hnodup [Heq | Hin].
  - injection Heq as -> ->. by rewrite String.eqb_refl.
  - apply NoDup_cons in Hnodup as [Hfresh Hnodup].
    destruct (String.eqb_spec k key) as [-> | Hne]; [| by apply IH].
    exfalso. apply Hfresh. apply list_elem_of_In.
    change key with (fst (key, value)). by apply List.in_map.
Qed.

Lemma headerValue_Permutation (h1 h2 : Headers) (key : string) :
  h1 ≡ₚ h2 -> NoDup (List.map fst h1) -> In key (List.map fst h1) ->
  headerValue h1 key = headerValue h2 key.
Proof.
  intros Hperm Hnodup Hkey.
  apply List.in_map_iff in Hkey as ([k v] & Hk & Hin). cbn in Hk. subst k.
  rewrite (headerValue_In h1 key v Hnodup Hin).
  symmetry. apply headerValue_In.
  - assert (List.map fst h1 ≡ₚ List.map fst h2) as Hkeys by (by apply Permutation_map).
    by rewrite <- Hkeys.
  - eapply Permutation_in; [exact Hperm | exact Hin].
Qed.

(** X14. The model cache key does not depend on the order in which
    the additional headers were written: two header objects with the same
    properties give the same key. An empty header object, however, does
    not give the key of no headers at all. *)
Theorem buildModelCacheKey_order_independent (tokenCacheKey baseUrl : string)
    (h1 h2 : Headers) :
  (h1 ≡ₚ h2 -> NoDup (List.map fst h1) ->
   buildModelCacheKey tokenCacheKey baseUrl (Some h1)
   = buildModelCacheKey tokenCacheKey baseUrl (Some h2)) /\
  buildModelCacheKey tokenCacheKey baseUrl (Some [])
  <> buildModelCacheKey tokenCacheKey baseUrl None.
Proof.
  split.
  - intros Hperm Hnodup. unfold buildModelCacheKey.
    rewrite <- (sorted_keys_Permutation (List.map fst h1) (List.map fst h2))
      by (by apply Permutation_map).
    assert (List.map (fun key : string => key ++ ":" ++ headerValue h1 key)
              (merge_sort codeUnitLe (List.map fst h1))
            = List.map (fun key : string => key ++ ":" ++ headerValue h2 key)
                (merge_sort codeUnitLe (List.map fst h1))) as ->; [| reflexivity].
    apply List.map_ext_in. intros key Hkey. do 2 f_equal.
    apply headerValue_Permutation; [exact Hperm | exact Hnodup |].
    eapply Permutation_in; [| exact Hkey]. apply merge_sort_Permutation.
  - unfold buildModelCacheKey. intros Heq.
    apply (f_equal String.length) in Heq. rewrite !length_append in Heq.
    cbn in Heq. lia.
Qed.

Lemma buildModelCacheKey_order_independent_witness :
  buildModelCacheKey "cred-1" "https://api.githubcopilot.com"
    (Some [ ("X-Team", "a"); ("Accept-Language", "en") ])
  = buildModelCacheKey "cred-1" "https://api.githubcopilot.com"
      (Some [ ("Accept-Language", "en"); ("X-Team", "a") ]).
Proof.
  apply (proj1 (buildModelCacheKey_order_independent "cred-1" "https://api.githubcopilot.com"
                  [ ("X-Team", "a"); ("Accept-Language", "en") ]
                  [ ("Accept-Language", "en"); ("X-Team", "a") ])).
  - apply perm_swap.
  - apply (bool_decide_unpack _). vm_compute. reflexivity.
Defined.

Lemma normalizeCopilotModels_listed (trim : string -> string) (payload : JVal) :
  normalizeCopilotModels trim payload = collect trim (listed payload).
Proof.
  unfold normalizeCopilotModels, listed.
  destruct payload as [| | b | n | s | items | fields]; try reflexivity.
  cbn [member].
  by destruct (assoc fields "data"), (assoc fields "models"), (assoc fields "items").
Qed.

Lemma wellCollected_empty : wellCollected (mkCollected [] ∅).
Proof.
  split; [constructor |]. split; [| constructor].
  intros n. cbn. split; intros H; [by apply elem_of_empty in H | by apply elem_of_nil in H].
Qed.

Lemma wellCollected_push (st : Collected) (shown trimmed : string) :
  wellCollected st -> trimmed <> "" -> shown <> "" -> trimmed ∉ seen st ->
  wellCollected (mkCollected (options st ++ [mkOption shown trimmed])
                             ({[ trimmed ]} ∪ seen st)).
Proof.
  intros (Hnodup & Hseen & Hne) Htrimmed Hshown Hfresh. unfold wellCollected. cbn.
  rewrite fmap_app. cbn. split; [| split].
  - apply NoDup_app. split; [exact Hnodup |]. split; [| apply NoDup_singleton].
    intros n Hn Hn'. apply list_elem_of_singleton in Hn'. subst n.
    apply Hfresh. by apply Hseen.
  - intros n. rewrite elem_of_union, elem_of_singleton, elem_of_app, list_elem_of_singleton.
    rewrite Hseen. tauto.
  - apply Forall_app. split; [exact Hne |]. by repeat constructor.
Qed.

Lemma addModel_wellCollected (trim : string -> string) (nm lbl : JVal) (st st' : Collected) :
  wellCollected st -> addModel trim nm lbl st = inr st' -> wellCollected st'.
Proof.
  intros Hst. unfold addModel.
  destruct (negb (truthy nm)); [by intros [= <-] |].
  destruct nm as [| | | | n | |]; try discriminate.
  destruct (truthy (JStr (trim n))) eqn:Htrimmed; cbn [negb orb]; [| by intros [= <-]].
  apply truthy_JStr in Htrimmed.
  destruct (bool_decide (trim n ∈ seen st)) eqn:Hseen; [by intros [= <-] |].
  apply bool_decide_eq_false in Hseen.
  destruct lbl as [| | | | l | |]; try discriminate; intros [= <-].
  - by apply wellCollected_push.
  - by apply wellCollected_push.
  - apply wellCollected_push; try done.
    cbn [truthy]. by destruct (String.eqb_spec (trim l) "").
Qed.

Lemma readItem_wellCollected (trim : string -> string) (item : JVal) (st st' : Collected) :
  wellCollected st -> readItem trim item st = inr st' -> wellCollected st'.
Proof.
  intros Hst. unfold readItem.
  destruct (negb (truthy item)); [by intros [= <-] |].
  destruct item; try (by intros [= <-]); by apply addModel_wellCollected.
Qed.

Lemma forEach_wellCollected (trim : string -> string) (items : list JVal)
    (st st' : Collected) :
  wellCollected st -> forEach trim items st = inr st' -> wellCollected st'.
Proof.
  revert st. induction items as [| item items IH]; intros st Hst; cbn.
  - by intros [= <-].
  - destruct (readItem trim item st) as [e | st1] eqn:Hread; [discriminate |].
    apply IH. by eapply readItem_wellCollected.
Qed.

(** X15. Whatever the payload and whatever [trim] does, the options
    that [normalizeCopilotModels] returns have pairwise distinct names,
    and none of them has an empty name or an empty label. *)
Theorem normalizeCopilotModels_distinct (trim : string -> string) (payload : JVal)
    (opts : list INodeOptionsValue) :
  normalizeCopilotModels trim payload = inr opts ->
  NoDup (name <$> opts) /\
  Forall (fun o => name o <> "" /\ label o <> "") opts.
Proof.
  rewrite normalizeCopilotModels_listed. unfold collect.
  destruct (forEach trim (listed payload) (mkCollected [] ∅)) as [e | st] eqn:Hrun;
    [discriminate |].
  intros [= <-].
  destruct (forEach_wellCollected trim _ _ _ wellCollected_empty Hrun) as (Hnodup & _ & Hne).
  by split.
Qed.

Lemma normalizeCopilotModels_distinct_witness :
  normalizeCopilotModels trimSpaces
    (JObject [ ("data",
       JArray [ JObject [ ("id", JStr "gpt-4o"); ("label", JStr " GPT-4o ") ];
                JStr "o1"; JStr " gpt-4o"; JNull ]) ])
  = inr [ mkOption "GPT-4o" "gpt-4o"; mkOption "o1" "o1" ] /\
  NoDup (name <$> [ mkOption "GPT-4o" "gpt-4o"; mkOption "o1" "o1" ]).
Proof.
  split; [reflexivity |].
  apply (proj1 (normalizeCopilotModels_distinct trimSpaces
                  (JObject [ ("data",
                     JArray [ JObject [ ("id", JStr "gpt-4o"); ("label", JStr " GPT-4o ") ];
                              JStr "o1"; JStr " gpt-4o"; JNull ]) ])
                  [ mkOption "GPT-4o" "gpt-4o"; mkOption "o1" "o1" ] eq_refl)).
Defined.

Lemma readItem_readable (trim : string -> string) (item : JVal) (st : Collected) :
  readable item -> exists st', readItem trim item st = inr st'.
Proof.
  assert (forall nm lbl,
            (truthy nm = false \/ exists n, nm = JStr n) ->
            (nullish lbl = true \/ exists l, lbl = JStr l) ->
            exists st', addModel trim nm lbl st = inr st') as Hadd.
  { intros nm lbl Hnm Hlbl. unfold addModel.
    destruct (truthy nm) eqn:Htruthy; cbn [negb]; [| by eexists].
    destruct Hnm as [Hfalse | [n ->]]; [congruence |].
    destruct (negb (truthy (JStr (trim n))) || bool_decide (trim n ∈ seen st));
      [by eexists |].
    destruct Hlbl as [Hnull | [l ->]]; [| by eexists].
    destruct lbl; try discriminate; by eexists. }
  intros Hreadable. unfold readItem.
  destruct (negb (truthy item)); [by eexists |].
  destruct item as [| | b | n | s | items | fields]; try (by eexists).
  - apply Hadd; [right; by eexists | by left].
  - destruct Hreadable as [Hnm Hlbl]. by apply Hadd.
Qed.

Lemma forEach_readable (trim : string -> string) (items : list JVal) (st : Collected) :
  Forall readable items -> exists st', forEach trim items st = inr st'.
Proof.
  intros Hitems. revert st.
  induction Hitems as [| item items Hitem _ IH]; intros st; cbn; [by eexists |].
  destruct (readItem_readable trim item st Hitem) as [st1 ->]. apply IH.
Qed.

Lemma forEach_app (trim : string -> string) (front back : list JVal) (st : Collected) :
  forEach trim (front ++ back)%list st
  = match forEach trim front st with
    | inl e => inl e
    | inr st' => forEach trim back st'
    end.
Proof.
  revert st. induction front as [| item front IH]; intros st; cbn; [reflexivity |].
  by destruct (readItem trim item st).
Qed.

(** X16. [normalizeCopilotModels] throws only on a badly typed item.
    When every item of the array it reads offers, as name, a string or
    something falsy and, as label, a string or nothing, it returns a list.
    When the first item that does not is an object whose name is truthy
    and not a string (a number, say), it throws the type error of calling
    [trim] on that name, and nothing is returned. *)
Theorem normalizeCopilotModels_type_error (trim : string -> string) (payload : JVal) :
  (Forall readable (listed payload) ->
   exists opts, normalizeCopilotModels trim payload = inr opts) /\
  (forall good fields rest,
     listed payload = (good ++ JObject fields :: rest)%list ->
     Forall readable good ->
     truthy (offeredName (JObject fields)) = true ->
     (forall n, offeredName (JObject fields) <> JStr n) ->
     normalizeCopilotModels trim payload = inl (JsTypeError "name.trim is not a function")).
Proof.
  rewrite normalizeCopilotModels_listed. unfold collect. split.
  - intros Hitems.
    destruct (forEach_readable trim (listed payload) (mkCollected [] ∅) Hitems) as [st ->].
    by eexists.
  - intros good fields rest -> Hgood Htruthy Hnot.
    rewrite forEach_app.
    destruct (forEach_readable trim good (mkCollected [] ∅) Hgood) as [st ->].
    cbn [forEach]. unfold readItem. cbn [truthy negb].
    fold (offeredName (JObject fields)). unfold addModel. rewrite Htruthy. cbn [negb].
    destruct (offeredName (JObject fields)) as [| | b | n | s | items | fs];
      try reflexivity.
    by destruct (Hnot s).
Qed.

Lemma normalizeCopilotModels_type_error_witness :
  (exists opts,
     normalizeCopilotModels trimSpaces (JArray [ JStr "o1"; JNum 7; JObject [] ]) = inr opts) /\
  normalizeCopilotModels trimSpaces
    (JObject [ ("models", JArray [ JStr "o1"; JObject [ ("id", JNum 7) ] ]) ])
  = inl (JsTypeError "name.trim is not a function").
Proof.
  split.
  - apply (proj1 (normalizeCopilotModels_type_error trimSpaces
                    (JArray [ JStr "o1"; JNum 7; JObject [] ]))).
    repeat constructor; cbn; by left.
  - apply (proj2 (normalizeCopilotModels_type_error trimSpaces
                    (JObject [ ("models", JArray [ JStr "o1"; JObject [ ("id", JNum 7) ] ]) ]))
             [ JStr "o1" ] [ ("id", JNum 7) ] []).
    + reflexivity.
    + by repeat constructor.
    + reflexivity.
    + discriminate.
Defined.

Lemma readItem_string (trim : string -> string) (s : string) (st : Collected) :
  readItem trim (JStr s) st
  = inr (if bool_decide (s <> "" /\ trim s <> "" /\ trim s ∉ seen st)
         then mkCollected (options st ++ [mkOption (trim s) (trim s)])
                          ({[ trim s ]} ∪ seen st)
         else st).
Proof.
  unfold readItem, addModel. cbn [truthy].
  destruct (String.eqb_spec s "") as [-> | Hs]; cbn [negb].
  { rewrite bool_decide_eq_false_2; [reflexivity | tauto]. }
  destruct (String.eqb_spec (trim s) "") as [Ht | Ht]; cbn [negb orb].
  { rewrite bool_decide_eq_false_2; [reflexivity | tauto]. }
  destruct (bool_decide (trim s ∈ seen st)) eqn:Hseen.
  - apply bool_decide_eq_true in Hseen.
    rewrite bool_decide_eq_false_2; [reflexivity | tauto].
  - apply bool_decide_eq_false in Hseen. by rewrite bool_decide_eq_true_2.
Qed.

Lemma forEach_strings (trim : string -> string) (l : list string) (st : Collected) :
  wellCollected st ->
  exists st' new,
    forEach trim (JStr <$> l) st = inr st' /\
    options st' = (options st ++ new)%list /\
    wellCollected st' /\
    Forall (fun o => label o = name o) new /\
    sublist (name <$> new) (trim <$> l) /\
    (forall n, n ∈ (name <$> new) -> exists s, s ∈ l /\ s <> "" /\ n = trim s) /\
    (forall s, s ∈ l -> s <> "" -> trim s <> "" -> trim s ∈ (name <$> options st')).
Proof.
  revert st. induction l as [| s l IH]; intros st Hst.
  - exists st, []. cbn. rewrite app_nil_r.
    split; [reflexivity |]. split; [reflexivity |]. split; [exact Hst |].
    split; [constructor |]. split; [constructor |]. split.
    + intros n Hn. by apply elem_of_nil in Hn.
    + intros s Hs. by apply elem_of_nil in Hs.
  - cbn [fmap list_fmap forEach]. rewrite readItem_string.
    destruct (bool_decide (s <> "" /\ trim s <> "" /\ trim s ∉ seen st)) eqn:Hnew.
    + apply bool_decide_eq_true in Hnew as (Hs & Ht & Hfresh).
      destruct (IH (mkCollected (options st ++ [mkOption (trim s) (trim s)])
                                ({[ trim s ]} ∪ seen st)))
        as (st' & new & Hrun & Hopts & Hwell & Hlabels & Hsub & Hfrom & Hall).
      { by apply wellCollected_push. }
      cbn [options] in Hopts.
      exists st', (mkOption (trim s) (trim s) :: new).
      split; [exact Hrun |]. split; [by rewrite Hopts, <- app_assoc |].
      split; [exact Hwell |]. split; [by constructor |].
      split; [by apply sublist_skip |]. split.
      * intros n Hn. cbn in Hn. apply elem_of_cons in Hn as [-> | Hn].
        -- exists s. split; [by left | done].
        -- destruct (Hfrom n Hn) as (s' & Hs' & Hrest). exists s'. split; [by right | done].
      * intros s' Hs' Hne Htrim. apply elem_of_cons in Hs' as [-> | Hs'].
        -- rewrite Hopts, !fmap_app, !elem_of_app. left. right. apply list_elem_of_here.
        -- by apply Hall.
    + apply bool_decide_eq_false in Hnew.
      destruct (IH st Hst) as (st' & new & Hrun & Hopts & Hwell & Hlabels & Hsub & Hfrom & Hall).
      exists st', new.
      split; [exact Hrun |]. split; [exact Hopts |]. split; [exact Hwell |].
      split; [exact Hlabels |]. split; [by apply sublist_cons |]. split.
      * intros n Hn. destruct (Hfrom n Hn) as (s' & Hs' & Hrest).
        exists s'. split; [by right | done].
      * intros s' Hs' Hne Htrim. apply elem_of_cons in Hs' as [-> | Hs']; [| by apply Hall].
        destruct Hst as (_ & Hseen & _).
        assert (trim s ∈ seen st) as Hin.
        { destruct (decide (trim s ∈ seen st)) as [Hin | Hout]; [exact Hin |].
          exfalso. apply Hnew. by repeat split. }
        apply Hseen in Hin. rewrite Hopts, fmap_app, elem_of_app. by left.
Qed.

(** X17. For a payload that is an array of strings,
    [normalizeCopilotModels] never throws; it returns one option for each
    distinct non-empty trimmed string, named and labelled by the trimmed
    string, and the names are a subsequence of the trimmed strings of the
    array. *)
Theorem normalizeCopilotModels_strings (trim : string -> string) (l : list string) :
  exists opts,
    normalizeCopilotModels trim (JArray (JStr <$> l)) = inr opts /\
    (forall n, n ∈ (name <$> opts) <->
               n <> "" /\ exists s, s ∈ l /\ s <> "" /\ n = trim s) /\
    NoDup (name <$> opts) /\
    Forall (fun o => label o = name o) opts /\
    sublist (name <$> opts) (trim <$> l).
Proof.
  destruct (forEach_strings trim l (mkCollected [] ∅) wellCollected_empty)
    as (st & new & Hrun & Hopts & (Hnodup & _ & Hne) & Hlabels & Hsub & Hfrom & Hall).
  cbn in Hopts. subst new.
  exists (options st). split.
  { cbn [normalizeCopilotModels]. unfold collect. by rewrite Hrun. }
  split; [| by repeat split].
  intros n. split.
  - intros Hn. split; [| by apply Hfrom].
    apply list_elem_of_fmap in Hn as (o & -> & Ho).
    rewrite Forall_forall in Hne. by destruct (Hne o Ho).
  - intros (Hn & s & Hs & Hs' & ->). by apply Hall.
Qed.

End CopilotModelsProofs.

(** ** modelLoader.ts: where the model list comes from *)

Module ModelLoaderProofs.
Import CopilotModels ModelLoader.

Lemma strict_eq_str_false (v : JVal) (lit : string) :
  v <> JStr lit -> strict_eq_str v lit = false.
Proof.
  intros Hne. apply not_true_is_false. intros Heq.
  by apply DeviceFlowProofs.strict_eq_str_true in Heq.
Qed.

Lemma run_getModelsJSONPath (out : Outside) (rt : Runtime) (path : string) :
  defaultModelsPath out rt path ->
  run (load out) (getModelsJSONPath rt) tt = (inr path, tt).
Proof.
  unfold getModelsJSONPath. cbn.
  intros [[Hnear ->] | [(Hnear & Hfar & ->) | (Hnear & Hfar & ->)]]; rewrite Hnear; cbn;
    [reflexivity | |]; by rewrite Hfar.
Qed.

Lemma run_loadConfiguredModelFile_fails (out : Outside) (rt : Runtime) :
  configuredFileFails out rt ->
  exists e,
    fst (run (load out)
           (loadConfiguredModelFile rt
              (default DEFAULT_MODEL_LIST_URL (MODEL_LIST_CONFIG_JSON rt))) tt)
    = inr (inl e).
Proof.
  unfold configuredFileFails, loadConfiguredModelFile.
  set (modelFile := default DEFAULT_MODEL_LIST_URL (MODEL_LIST_CONFIG_JSON rt)).
  intros [[Hurl Hweb] | [Hurl Hdisk]]; rewrite Hurl; cbn.
  - destruct Hweb as [[e ->] | (r & -> & Hbad)]; cbn; [by eexists |].
    assert (Z.eqb (http_status r) 200 && truthy (http_data r) = false) as ->; [| by eexists].
    destruct Hbad as [Hstatus | Hdata].
    + apply Z.eqb_neq in Hstatus. by rewrite Hstatus.
    + rewrite Hdata. apply andb_false_r.
  - destruct Hdisk as [-> | [-> Hread]]; cbn; [by eexists |].
    destruct Hread as [[e ->] | [-> | (text & e & -> & Hne & Hparse)]]; cbn;
      [by eexists | by eexists |].
    apply truthy_JStr in Hne. cbn [truthy] in Hne. rewrite Hne. cbn. rewrite Hparse.
    by eexists.
Qed.

(** X18. As its comment promises, [getRawModelFile] falls back to the
    [models.json] on disk whenever the configured model file cannot be
    loaded, whatever the reason: the result is then the parsed content of
    the first candidate path that exists, an empty object when that file
    is empty, and the read or parse error of that file when there is one,
    which is the only way [getRawModelFile] can throw. When the
    configured file is a URL that answers 200 with data, the data is
    returned and the disk is not touched. *)
Theorem getRawModelFile_falls_back (out : Outside) (rt : Runtime) (path : string) :
  (configuredFileFails out rt ->
   defaultModelsPath out rt path ->
   result out (getRawModelFile rt)
   = inr match readFile out path with
         | inl e => inl e
         | inr text => if String.eqb text "" then inr (JObject []) else JSON_parse rt text
         end) /\
  (forall r,
     isValidUrl rt (default DEFAULT_MODEL_LIST_URL (MODEL_LIST_CONFIG_JSON rt)) = true ->
     web out (default DEFAULT_MODEL_LIST_URL (MODEL_LIST_CONFIG_JSON rt)) = inr r ->
     http_status r = 200%Z ->
     truthy (http_data r) = true ->
     result out (getRawModelFile rt) = inr (inr (http_data r)) /\
     calls out (getRawModelFile rt)
     = [ logged (AxiosGet (default DEFAULT_MODEL_LIST_URL (MODEL_LIST_CONFIG_JSON rt))) ]).
Proof.
  split.
  - intros Hfails Hpath. unfold result, getRawModelFile. rewrite run_bind.
    destruct (run_loadConfiguredModelFile_fails out rt Hfails) as [e He].
    destruct (run (load out) (loadConfiguredModelFile rt _) tt) as [r []].
    cbn in He. subst r. rewrite run_bind, (run_getModelsJSONPath out rt path Hpath). cbn.
    destruct (readFile out path) as [e' | text]; [reflexivity |]. cbn.
    by destruct (String.eqb text "").
  - intros r Hurl Hweb Hstatus Hdata.
    unfold result, calls, getRawModelFile, loadConfiguredModelFile. rewrite Hurl. cbn.
    rewrite Hweb. cbn. rewrite Hstatus, Hdata. by cbn.
Qed.

Lemma getRawModelFile_falls_back_witness :
  result offlineMachine (getRawModelFile (sampleRuntime sampleModelFile))
  = inr (inr sampleModelFile).
Proof.
  apply (proj1 (getRawModelFile_falls_back offlineMachine (sampleRuntime sampleModelFile)
                  "/app/models.json")).
  - left. split; [reflexivity |]. left. by eexists.
  - right. left. by repeat split.
Defined.

Lemma run_result {R : Type} (out : Outside) (p : Prog LoaderE R) :
  run (load out) p tt = (result out p, tt).
Proof. unfold result. by destruct (run (load out) p tt) as [r []]. Qed.

Lemma findByName_found (front back : list JVal) (fields : list (string * JVal))
    (name : string) :
  noNullEntry front ->
  Forall (fun model => member model "name" <> JStr name) front ->
  member (JObject fields) "name" = JStr name ->
  findByName (front ++ JObject fields :: back)%list name = inr (JObject fields).
Proof.
  intros Hnull Hother Hname.
  induction front as [| model front IH]; cbn [app findByName].
  - rewrite Hname. cbn. by rewrite String.eqb_refl.
  - apply Forall_cons in Hnull as [[Hn Hu] Hnull]. apply Forall_cons in Hother as [Hm Hother].
    rewrite (strict_eq_str_false _ _ Hm), (IH Hnull Hother).
    by destruct model.
Qed.

Lemma findByName_none (models : list JVal) (name : string) :
  noNullEntry models ->
  Forall (fun model => member model "name" <> JStr name) models ->
  findByName models name = inr JUndefined.
Proof.
  intros Hnull Hother. induction models as [| model models IH]; [reflexivity |].
  apply Forall_cons in Hnull as [[Hn Hu] Hnull]. apply Forall_cons in Hother as [Hm Hother].
  cbn [findByName]. rewrite (strict_eq_str_false _ _ Hm), (IH Hnull Hother).
  by destruct model.
Qed.

Lemma findByName_null (front back : list JVal) (name : string) :
  noNullEntry front ->
  Forall (fun model => member model "name" <> JStr name) front ->
  findByName (front ++ JNull :: back)%list name
  = inl (JsTypeError "Cannot read properties of null (reading 'name')").
Proof.
  intros Hnull Hother. induction front as [| model front IH]; [reflexivity |].
  apply Forall_cons in Hnull as [[Hn Hu] Hnull]. apply Forall_cons in Hother as [Hm Hother].
  cbn [app findByName]. rewrite (strict_eq_str_false _ _ Hm), (IH Hnull Hother).
  by destruct model.
Qed.

(** X19. [getModels] returns the [models] array of the first entry
    of the category whose name is the one asked for (an empty list when
    that entry has no array under [models]). When the configured model
    file has such an entry, nothing more is loaded: the calls of
    [getModels] are those of [getRawModelFile]. *)
Theorem getModels_from_configured_file (out : Outside) (rt : Runtime)
    (category : MODEL_TYPE) (name : string) (primary : JVal) (front back : list JVal)
    (fields : list (string * JVal)) :
  result out (getRawModelFile rt) = inr (inr primary) ->
  getCategoryModels primary category = (front ++ JObject fields :: back)%list ->
  noNullEntry front ->
  Forall (fun model => member model "name" <> JStr name) front ->
  member (JObject fields) "name" = JStr name ->
  (forall models, member (JObject fields) "models" = JArray models ->
                  result out (getModels rt category name) = inr (inr models)) /\
  ((forall models, member (JObject fields) "models" <> JArray models) ->
   result out (getModels rt category name) = inr (inr [])) /\
  calls out (getModels rt category name) = calls out (getRawModelFile rt).
Proof.
  intros Hraw Hlist Hnull Hother Hname.
  pose proof (findByName_found front back fields name Hnull Hother Hname) as Hfind.
  rewrite <- Hlist in Hfind.
  assert (result out (getModelConfig rt category name) = inr (inr (JObject fields))) as Hcfg.
  { unfold result, getModelConfig. rewrite run_bind, run_result, Hraw. cbn [fst snd run].
    by rewrite Hfind. }
  split; [| split].
  - intros models Hmodels. unfold result, getModels.
    rewrite run_bind, run_result, Hcfg. cbn [truthy negb]. by rewrite Hmodels.
  - intros Hno. unfold result, getModels.
    rewrite run_bind, run_result, Hcfg. cbn [truthy negb].
    destruct (member (JObject fields) "models") as [| | | | | models |]; try done.
    by destruct (Hno models).
  - unfold calls, getModels. rewrite trace_bind, run_result, Hcfg. cbn [truthy negb].
    assert (trace (load out) (getModelConfig rt category name) tt
            = trace (load out) (getRawModelFile rt) tt) as ->.
    { unfold getModelConfig. rewrite trace_bind, run_result, Hraw, Hfind.
      cbn [truthy negb trace]. by rewrite app_nil_r. }
    destruct (member (JObject fields) "models"); cbn [trace]; by rewrite app_nil_r.
Qed.

Lemma getModels_from_configured_file_witness :
  result (onlineMachine sampleModelFile)
    (getModels (sampleRuntime JNull) CHAT "chatGitHubCopilot")
  = inr (inr [ JObject [ ("label", JStr "gpt-4o"); ("name", JStr "gpt-4o") ] ]).
Proof.
  apply (proj1 (getModels_from_configured_file (onlineMachine sampleModelFile)
                  (sampleRuntime JNull) CHAT "chatGitHubCopilot" sampleModelFile
                  [ JObject [ ("name", JStr "chatOpenAI"); ("models", JArray [ JStr "gpt-4o" ]) ] ]
                  []
                  [ ("name", JStr "chatGitHubCopilot");
                    ("models", JArray [ JObject [ ("label", JStr "gpt-4o");
                                                  ("name", JStr "gpt-4o") ] ]) ]
                  eq_refl eq_refl
                  ltac:(repeat constructor; discriminate)
                  ltac:(repeat constructor; discriminate)
                  eq_refl)).
  reflexivity.
Defined.

Lemma throwFree_bind {E : Type -> Type} {A B : Type} (p : Prog E A) (f : A -> Prog E B) :
  throwFree p -> (forall a, throwFree (f a)) -> throwFree (bind p f).
Proof.
  intros Hp Hf. induction p as [a | e | X ev k IH]; cbn in *; [apply Hf | done |].
  intros x. apply IH, Hp.
Qed.

(** On the machine no call throws, so a program without a [throw] of
    its own returns. *)
Lemma result_throwFree {R : Type} (out : Outside) (p : Prog LoaderE R) :
  throwFree p -> exists r, result out p = inr r.
Proof.
  unfold result. induction p as [r | e | X ev k IH]; cbn; [by eexists | done |].
  intros Hk. destruct ev; cbn; apply IH, Hk.
Qed.

Lemma throwFree_getModelsJSONPath (rt : Runtime) : throwFree (getModelsJSONPath rt).
Proof. unfold getModelsJSONPath. cbn. intros [|]; cbn; [done |]. by intros [|]. Qed.

Lemma throwFree_getRawModelFile (rt : Runtime) : throwFree (getRawModelFile rt).
Proof.
  unfold getRawModelFile. apply throwFree_bind.
  - unfold loadConfiguredModelFile. destruct (isValidUrl rt _); cbn.
    + intros [e | r]; cbn; [done |]. by destruct (_ && _).
    + intros [|]; cbn; [| done]. intros [e | text]; cbn; [done |].
      by destruct (negb _).
  - intros [e | models]; [| done]. apply throwFree_bind; [apply throwFree_getModelsJSONPath |].
    intros path. cbn. intros [e' | text]; cbn; [done |]. by destruct (negb _).
Qed.

Lemma throwFree_getDefaultModelFile (rt : Runtime) : throwFree (getDefaultModelFile rt).
Proof.
  unfold getDefaultModelFile. apply throwFree_bind; [apply throwFree_getModelsJSONPath |].
  intros path. cbn. intros [e | text]; cbn; [done |].
  destruct (negb _); [| done]. by destruct (JSON_parse rt text).
Qed.

Lemma throwFree_getModelConfig (rt : Runtime) (category : MODEL_TYPE) (name : string) :
  throwFree (getModelConfig rt category name).
Proof.
  unfold getModelConfig. apply throwFree_bind; [apply throwFree_getRawModelFile |].
  intros [e | models]; [done |].
  destruct (findByName _ _) as [e | modelConfig]; [done |].
  destruct (negb (truthy modelConfig)); [| done].
  apply throwFree_bind; [apply throwFree_getDefaultModelFile | done].
Qed.

(** What [getDefaultModelFile] gives: the parsed [models.json] on
    disk, and an empty object when that file cannot be read, is empty or
    is not JSON. *)
Lemma result_getDefaultModelFile (out : Outside) (rt : Runtime) (path : string) :
  defaultModelsPath out rt path ->
  result out (getDefaultModelFile rt)
  = inr match readFile out path with
        | inl _ => JObject []
        | inr text =>
            if String.eqb text "" then JObject []
            else match JSON_parse rt text with
                 | inl _ => JObject []
                 | inr parsed => parsed
                 end
        end.
Proof.
  intros Hpath. unfold result, getDefaultModelFile.
  rewrite run_bind, (run_getModelsJSONPath out rt path Hpath). cbn.
  destruct (readFile out path) as [e | text]; [reflexivity |]. cbn.
  destruct (String.eqb text ""); [reflexivity |]. cbn.
  by destruct (JSON_parse rt text).
Qed.

(** [getModels] when the configured file has no entry of the name. *)
Lemma result_getModels_fallback (out : Outside) (rt : Runtime)
    (category : MODEL_TYPE) (name : string) (primary fallback : JVal) :
  result out (getRawModelFile rt) = inr (inr primary) ->
  noNullEntry (getCategoryModels primary category) ->
  Forall (fun model => member model "name" <> JStr name)
         (getCategoryModels primary category) ->
  result out (getDefaultModelFile rt) = inr fallback ->
  result out (getModelConfig rt category name)
  = inr (findByName (getCategoryModels fallback category) name).
Proof.
  intros Hraw Hnull Hother Hdefault.
  pose proof (findByName_none _ name Hnull Hother) as Hmiss.
  unfold result, getModelConfig.
  rewrite !run_bind, run_result, Hraw. cbn [fst snd run].
  rewrite Hmiss. cbn [truthy negb]. by rewrite run_bind, run_result, Hdefault.
Qed.

Lemma result_getModels (out : Outside) (rt : Runtime) (category : MODEL_TYPE)
    (name : string) :
  result out (getModels rt category name)
  = match result out (getModelConfig rt category name) with
    | inl e => inl e
    | inr (inl e) => inr (inl (JsError ("Error: getModels - " ++ toString rt e)))
    | inr (inr modelConfig) =>
        inr (inr (if negb (truthy modelConfig) then []
                  else match member modelConfig "models" with
                       | JArray models => models
                       | _ => []
                       end))
    end.
Proof.
  unfold result at 1, getModels. rewrite run_bind, run_result.
  destruct (result out (getModelConfig rt category name)) as [e | [e | modelConfig]];
    [reflexivity | reflexivity |].
  cbn [fst snd]. destruct (negb (truthy modelConfig)); [reflexivity |].
  by destruct (member modelConfig "models").
Qed.

(** X20. When the configured model file has no entry of that name in
    the category, [getModels] looks in the [models.json] on disk, the
    first of the two candidate paths that exists. When that file parses,
    [getModels] returns the [models] array of the first entry of that name
    in it, and an empty list when it has no such entry. When the file
    cannot be read, is empty, or is not JSON, nothing is thrown:
    [getModels] returns an empty list. *)
Theorem getModels_from_default_file (out : Outside) (rt : Runtime)
    (category : MODEL_TYPE) (name : string) (primary : JVal) (path : string) :
  result out (getRawModelFile rt) = inr (inr primary) ->
  noNullEntry (getCategoryModels primary category) ->
  Forall (fun model => member model "name" <> JStr name)
         (getCategoryModels primary category) ->
  defaultModelsPath out rt path ->
  (forall text fallback,
     readFile out path = inr text ->
     text <> "" ->
     JSON_parse rt text = inr fallback ->
     (forall front fields back models,
        getCategoryModels fallback category = (front ++ JObject fields :: back)%list ->
        noNullEntry front ->
        Forall (fun model => member model "name" <> JStr name) front ->
        member (JObject fields) "name" = JStr name ->
        member (JObject fields) "models" = JArray models ->
        result out (getModels rt category name) = inr (inr models)) /\
     (noNullEntry (getCategoryModels fallback category) ->
      Forall (fun model => member model "name" <> JStr name)
             (getCategoryModels fallback category) ->
      result out (getModels rt category name) = inr (inr []))) /\
  ((exists e, readFile out path = inl e) \/
   readFile out path = inr "" \/
   (exists text e, readFile out path = inr text /\ JSON_parse rt text = inl e) ->
   result out (getModels rt category name) = inr (inr [])).
Proof.
  intros Hraw Hnull Hother Hpath.
  pose proof (result_getDefaultModelFile out rt path Hpath) as Hdefault.
  split.
  - intros text fallback Hread Hne Hparse.
    rewrite Hread, Hparse in Hdefault. apply String.eqb_neq in Hne. rewrite Hne in Hdefault.
    rewrite result_getModels,
      (result_getModels_fallback out rt category name primary fallback Hraw Hnull Hother
         Hdefault).
    split.
    + intros front fields back models Hlist Hn Ho Hname Hmodels.
      rewrite Hlist, (findByName_found front back fields name Hn Ho Hname).
      cbn [truthy negb]. by rewrite Hmodels.
    + intros Hn Ho. by rewrite (findByName_none _ name Hn Ho).
  - intros Hbad.
    assert (result out (getDefaultModelFile rt) = inr (JObject [])) as Hempty.
    { rewrite Hdefault.
      destruct Hbad as [[e ->] | [-> | (text & e & -> & Hparse)]]; [done | done |].
      rewrite Hparse. by destruct (String.eqb text ""). }
    by rewrite result_getModels,
      (result_getModels_fallback out rt category name primary _ Hraw Hnull Hother Hempty).
Qed.

Lemma getModels_from_default_file_witness :
  result (onlineMachine (JObject [ ("chat", JArray []) ]))
    (getModels (sampleRuntime sampleModelFile) CHAT "chatGitHubCopilot")
  = inr (inr [ JObject [ ("label", JStr "gpt-4o"); ("name", JStr "gpt-4o") ] ]) /\
  result (mkOutside (fun _ => inr (mkHttpResponse 200 (JObject [ ("chat", JArray []) ])))
            (fun _ => false)
            (fun _ => inl (JsError "ENOENT: no such file or directory")))
    (getModels (sampleRuntime sampleModelFile) CHAT "chatGitHubCopilot")
  = inr (inr []).
Proof.
  split.
  - refine (proj1 (proj1 (getModels_from_default_file
                            (onlineMachine (JObject [ ("chat", JArray []) ]))
                            (sampleRuntime sampleModelFile) CHAT "chatGitHubCopilot"
                            (JObject [ ("chat", JArray []) ]) "/app/models.json"
                            eq_refl _ _ _)
                     "{...}" sampleModelFile eq_refl _ eq_refl)
              [ JObject [ ("name", JStr "chatOpenAI"); ("models", JArray [ JStr "gpt-4o" ]) ] ]
              [ ("name", JStr "chatGitHubCopilot");
                ("models", JArray [ JObject [ ("label", JStr "gpt-4o");
                                              ("name", JStr "gpt-4o") ] ]) ]
              [] _ eq_refl _ _ eq_refl eq_refl).
    + constructor.
    + constructor.
    + right. left. by repeat split.
    + discriminate.
    + repeat constructor; discriminate.
    + repeat constructor; discriminate.
  - refine (proj2 (getModels_from_default_file
                     (mkOutside
                        (fun _ => inr (mkHttpResponse 200 (JObject [ ("chat", JArray []) ])))
                        (fun _ => false)
                        (fun _ => inl (JsError "ENOENT: no such file or directory")))
                     (sampleRuntime sampleModelFile) CHAT "chatGitHubCopilot"
                     (JObject [ ("chat", JArray []) ]) ""
                     eq_refl _ _ _) _).
    + constructor.
    + constructor.
    + right. right. by repeat split.
    + left. by eexists.
Defined.

(** X21. [getModels] has one way to fail: whatever [getModelConfig]
    throws, it throws an [Error] whose message is "Error: getModels - "
    followed by the text of what was caught, and it throws nothing else.
    That happens when loading the model file throws, and when the list of
    the category, in the configured file or in the file on disk, holds a
    [null] before the entry asked for, which makes the search for the
    entry a [TypeError]. *)
Theorem getModels_wraps_errors (out : Outside) (rt : Runtime)
    (category : MODEL_TYPE) (name : string) :
  (exists r, result out (getModels rt category name) = inr r) /\
  (forall e,
     result out (getModels rt category name) = inr (inl e) ->
     exists caught,
       result out (getModelConfig rt category name) = inr (inl caught) /\
       e = JsError ("Error: getModels - " ++ toString rt caught)) /\
  (forall e,
     result out (getRawModelFile rt) = inr (inl e) ->
     result out (getModels rt category name)
     = inr (inl (JsError ("Error: getModels - " ++ toString rt e)))) /\
  (forall primary front back,
     result out (getRawModelFile rt) = inr (inr primary) ->
     getCategoryModels primary category = (front ++ JNull :: back)%list ->
     noNullEntry front ->
     Forall (fun model => member model "name" <> JStr name) front ->
     result out (getModels rt category name)
     = inr (inl (JsError ("Error: getModels - "
                          ++ toString rt (JsTypeError
                               "Cannot read properties of null (reading 'name')"))))) /\
  (forall primary path text fallback front back,
     result out (getRawModelFile rt) = inr (inr primary) ->
     noNullEntry (getCategoryModels primary category) ->
     Forall (fun model => member model "name" <> JStr name)
            (getCategoryModels primary category) ->
     defaultModelsPath out rt path ->
     readFile out path = inr text ->
     text <> "" ->
     JSON_parse rt text = inr fallback ->
     getCategoryModels fallback category = (front ++ JNull :: back)%list ->
     noNullEntry front ->
     Forall (fun model => member model "name" <> JStr name) front ->
     result out (getModels rt category name)
     = inr (inl (JsError ("Error: getModels - "
                          ++ toString rt (JsTypeError
                               "Cannot read properties of null (reading 'name')"))))).
Proof.
  rewrite result_getModels.
  destruct (result_throwFree out _ (throwFree_getModelConfig rt category name)) as [r Hr].
  split; [| split; [| split; [| split]]].
  - rewrite Hr. destruct r as [e | modelConfig]; by eexists.
  - intros e. destruct (result out (getModelConfig rt category name)) as [e' | [e' | m]];
      [discriminate | | discriminate].
    intros [= <-]. by exists e'.
  - intros e Hraw.
    assert (result out (getModelConfig rt category name) = inr (inl e)) as ->; [| done].
    unfold result, getModelConfig. by rewrite run_bind, run_result, Hraw.
  - intros primary front back Hraw Hlist Hnull Hother.
    assert (result out (getModelConfig rt category name)
            = inr (inl (JsTypeError "Cannot read properties of null (reading 'name')")))
      as ->; [| done].
    unfold result, getModelConfig. rewrite run_bind, run_result, Hraw. cbn [fst snd run].
    by rewrite Hlist, (findByName_null front back name Hnull Hother).
  - intros primary path text fallback front back Hraw Hnull Hother Hpath Hread Hne Hparse
      Hlist Hfront Hnames.
    pose proof (result_getDefaultModelFile out rt path Hpath) as Hdefault.
    rewrite Hread, Hparse in Hdefault. apply String.eqb_neq in Hne. rewrite Hne in Hdefault.
    rewrite (result_getModels_fallback out rt category name primary fallback Hraw Hnull
               Hother Hdefault).
    by rewrite Hlist, (findByName_null front back name Hfront Hnames).
Qed.

Lemma getModels_wraps_errors_witness :
  result (onlineMachine (JObject [ ("chat", JArray [ JNull ]) ]))
    (getModels (sampleRuntime JNull) CHAT "chatGitHubCopilot")
  = inr (inl (JsError
       "Error: getModels - TypeError: Cannot read properties of null (reading 'name')")).
Proof.
  apply (proj1 (proj2 (proj2 (proj2 (getModels_wraps_errors
                  (onlineMachine (JObject [ ("chat", JArray [ JNull ]) ]))
                  (sampleRuntime JNull) CHAT "chatGitHubCopilot"))))
           (JObject [ ("chat", JArray [ JNull ]) ]) [] [] eq_refl eq_refl);
    constructor.
Defined.

End ModelLoaderProofs.

(** ** ChatGitHubCopilot.ts: listing the models *)

Module CopilotListProofs.
Import Copilot CopilotModels CopilotList.

Lemma run_listModels (lp : ListPlatform) (nodeData : INodeData) (w : World)
    (fallbackModels : list JVal) (credentialId : string) (credentialData : ICommonObject)
    (githubAccessToken : string) (additionalHeaders : option Headers) :
  listsWith lp nodeData fallbackModels credentialId credentialData githubAccessToken
            additionalHeaders ->
  listModels lp nodeData w
  = match run (handle (core lp))
              (getCachedCopilotModels
                 (modelCacheKey lp nodeData credentialId additionalHeaders)) w with
    | (inr (Some cachedModels), w1) => (inr (optionValue <$> cachedModels), w1)
    | (_, w1) =>
        let '(models, w2) :=
          listFetchedModels lp fallbackModels credentialId githubAccessToken credentialData
            (normalizeBaseUrl (trim lp) (inputs_basepath nodeData)) additionalHeaders
            (modelCacheKey lp nodeData credentialId additionalHeaders) w1 in
        (inr models, w2)
    end.
Proof.
  intros (Hfb & Hid & Hne & Hdata & Htoken & Htne & Hheaders).
  unfold listModels, modelCacheKey. rewrite Hfb, Hid.
  apply truthy_JStr in Hne. rewrite Hne. cbn [negb].
  rewrite Hdata, Htoken. apply truthy_JStr in Htne. rewrite Htne. cbn [negb].
  by rewrite Hheaders.
Qed.

(** X22. [listModels] does not throw because of the network: whatever
    the token exchange and the model list endpoint do, an exception of
    [listModels] is one thrown by [getModels] for the fallback list, by
    [getCredentialData], or by [parseAdditionalHeaders]. *)
Theorem listModels_throws_only (lp : ListPlatform) (nodeData : INodeData) (w : World)
    (e : Exn) :
  fst (listModels lp nodeData w) = inl e ->
  fallbackList lp = inl e \/
  (exists credentialId, getCredentialData lp credentialId = inl e) \/
  parseAdditionalHeaders lp (inputs_baseOptions nodeData) = inl e.
Proof.
  unfold listModels.
  destruct (fallbackList lp) as [e0 | fallbackModels]; [intros [= <-]; by left |].
  destruct (js_or _ _) as [| | | | credentialId | |]; try discriminate.
  destruct (negb (truthy (JStr credentialId))); [discriminate |].
  destruct (getCredentialData lp credentialId) as [e0 | credentialData] eqn:Hdata.
  { intros [= <-]. right. left. by exists credentialId. }
  destruct (githubAccessTokenOf lp credentialData nodeData) as [githubAccessToken |];
    [| discriminate].
  destruct (negb (truthy (JStr githubAccessToken))); [discriminate |].
  destruct (parseAdditionalHeaders lp (inputs_baseOptions nodeData)) as [e0 | headers].
  { intros [= <-]. by right; right. }
  destruct (run (handle (core lp)) (getCachedCopilotModels _) w) as [[e0 | [cached |]] w1].
  - by destruct (listFetchedModels _ _ _ _ _ _ _ _ _).
  - discriminate.
  - by destruct (listFetchedModels _ _ _ _ _ _ _ _ _).
Qed.

Lemma listModels_throws_only_witness :
  parseAdditionalHeaders
    (mkListPlatform offline trimSpaces (fun _ => inl (JsError "Unexpected token"))
       (fun _ => "SyntaxError: Unexpected token") (inr []) (fun _ => inr noStored)
       (fun _ _ => Some "gho_abc") (fun _ => inl JsThrown))
    (HeadersText "{oops")
  = inl (JsError
      "Invalid JSON in the GitHub Copilot's Additional Headers: SyntaxError: Unexpected token").
Proof.
  destruct (listModels_throws_only
              (mkListPlatform offline trimSpaces (fun _ => inl (JsError "Unexpected token"))
                 (fun _ => "SyntaxError: Unexpected token") (inr []) (fun _ => inr noStored)
                 (fun _ _ => Some "gho_abc") (fun _ => inl JsThrown))
              (mkNodeData None (Some "cred-1") None (HeadersText "{oops")) emptyWorld
              (JsError "Invalid JSON in the GitHub Copilot's Additional Headers: SyntaxError: Unexpected token")
              eq_refl) as [Hfb | [[cid Hdata] | Hparse]].
  - discriminate Hfb.
  - discriminate Hdata.
  - exact Hparse.
Defined.

Lemma run_getCachedCopilotModels_fresh (pf : Platform) (w : World) (k : string)
    (m : CachedModels) :
  copilotModelCache w !! k = Some m ->
  (inject_Z (clock pf (clockReads w)) < modelsExpiresAt m)%Q ->
  run (handle pf) (getCachedCopilotModels k) w =
  (inr (Some (models m)),
   mkWorld (copilotTokenCache w) (copilotModelCache w) (S (clockReads w))).
Proof.
  intros Hk Hfresh. unfold getCachedCopilotModels. cbn. rewrite Hk. cbn.
  apply Qgtb_true in Hfresh. by rewrite Hfresh.
Qed.

Lemma run_getCachedCopilotModels_none (pf : Platform) (w : World) (k : string) :
  (forall m, copilotModelCache w !! k = Some m ->
             (modelsExpiresAt m <= inject_Z (clock pf (clockReads w)))%Q) ->
  exists w1,
    run (handle pf) (getCachedCopilotModels k) w = (inr None, w1) /\
    copilotTokenCache w1 = copilotTokenCache w /\
    copilotModelCache w1 !! k = None.
Proof.
  intros Hstale. destruct (copilotModelCache w !! k) as [m |] eqn:Hk.
  - eexists. split; [apply (CopilotProofs.run_getCachedCopilotModels_stale pf w k m Hk (Hstale m eq_refl)) |].
    split; [done |]. apply lookup_delete_eq.
  - exists w. unfold getCachedCopilotModels. cbn. by rewrite Hk.
Qed.

Lemma listFetchedModels_result (lp : ListPlatform) (fallbackModels : list JVal)
    (k gh : string) (cd : ICommonObject) (baseUrl : string) (headers : option Headers)
    (cacheKey : string) (w : World) :
  copilotModelCache w !! cacheKey = None ->
  (fst (listFetchedModels lp fallbackModels k gh cd baseUrl headers cacheKey w)
   = fallbackModels /\
   copilotModelCache
     (snd (listFetchedModels lp fallbackModels k gh cd baseUrl headers cacheKey w))
   !! cacheKey = None) \/
  (exists copilotToken fetched c,
     fetchCopilotModels lp copilotToken baseUrl headers = inr fetched /\
     fetched <> [] /\
     fst (listFetchedModels lp fallbackModels k gh cd baseUrl headers cacheKey w)
     = optionValue <$> fetched /\
     copilotModelCache
       (snd (listFetchedModels lp fallbackModels k gh cd baseUrl headers cacheKey w))
     !! cacheKey = Some c /\
     models c = fetched).
Proof.
  intros Hnone. unfold listFetchedModels.
  pose proof (CopilotMore.getCopilotToken_cache (core lp) w k gh cd) as [_ Hmodels].
  destruct (run (handle (core lp)) (getCopilotToken k gh cd) w) as [[e | copilotToken] w1];
    cbn [snd] in Hmodels.
  - left. cbn [fst snd]. by rewrite Hmodels.
  - destruct (fetchCopilotModels lp copilotToken baseUrl headers) as [e | [| m fetched]] eqn:Hf.
    + left. cbn [fst snd]. by rewrite Hmodels.
    + left. cbn [fst snd]. by rewrite Hmodels.
    + right. exists copilotToken, (m :: fetched). eexists. split; [done |].
      split; [done |]. split; [done |]. cbn. split; [apply lookup_insert_eq | done].
Qed.

(** X23. A fresh cached list is served as it is. When the node data
    names a credential with an access token and the model cache holds,
    for the key of this credential, base URL and headers, a list that has
    not expired, [listModels] returns that list; it reads the clock once
    and leaves both caches alone, whatever the two endpoints would
    answer. *)
Theorem listModels_serves_cache (lp : ListPlatform) (nodeData : INodeData) (w : World)
    (fallbackModels : list JVal) (credentialId : string) (credentialData : ICommonObject)
    (githubAccessToken : string) (additionalHeaders : option Headers) (c : CachedModels) :
  listsWith lp nodeData fallbackModels credentialId credentialData githubAccessToken
            additionalHeaders ->
  copilotModelCache w !! modelCacheKey lp nodeData credentialId additionalHeaders = Some c ->
  (inject_Z (clock (core lp) (clockReads w)) < modelsExpiresAt c)%Q ->
  forall exchange endpoint,
    listModels (withNetwork lp exchange endpoint) nodeData w
    = (inr (optionValue <$> models c),
       mkWorld (copilotTokenCache w) (copilotModelCache w) (S (clockReads w))).
Proof.
  intros Hlists Hc Hfresh exchange endpoint.
  rewrite (run_listModels (withNetwork lp exchange endpoint) nodeData w fallbackModels
             credentialId credentialData githubAccessToken additionalHeaders Hlists).
  change (modelCacheKey (withNetwork lp exchange endpoint) nodeData credentialId
            additionalHeaders)
    with (modelCacheKey lp nodeData credentialId additionalHeaders).
  by rewrite (run_getCachedCopilotModels_fresh (core (withNetwork lp exchange endpoint))
               w _ c Hc Hfresh).
Qed.

Lemma listModels_serves_cache_witness :
  listModels (withNetwork unplugged (fun _ => inl JsThrown) (fun _ => inl JsThrown))
    (nodeOf "cred-1")
    (holdingModels
       (modelCacheKey unplugged (nodeOf "cred-1") "cred-1" None)
       (mkCachedModels [mkOption "Claude" "claude-3.5-sonnet"] 1000001))
  = (inr [optionValue (mkOption "Claude" "claude-3.5-sonnet")],
     mkWorld ∅
       {[ modelCacheKey unplugged (nodeOf "cred-1") "cred-1" None
          := mkCachedModels [mkOption "Claude" "claude-3.5-sonnet"] 1000001 ]} 1).
Proof.
  refine (listModels_serves_cache unplugged (nodeOf "cred-1")
            (holdingModels (modelCacheKey unplugged (nodeOf "cred-1") "cred-1" None)
               (mkCachedModels [mkOption "Claude" "claude-3.5-sonnet"] 1000001))
            [ JObject [ ("label", JStr "gpt-4o"); ("name", JStr "gpt-4o") ] ]
            "cred-1" noStored "gho_abc" None
            (mkCachedModels [mkOption "Claude" "claude-3.5-sonnet"] 1000001)
            _ _ _ (fun _ => inl JsThrown) (fun _ => inl JsThrown)).
  - repeat split; discriminate.
  - apply lookup_singleton_eq.
  - reflexivity.
Defined.

(** X24. What [listModels] returns on a cache miss, and what it leaves in
    the cache. When the model cache has no unexpired list for the key,
    [listModels] returns either the fallback list, and then the cache has
    no entry for the key afterwards (a failure is not cached: the next
    call tries again), or a non-empty list that [fetchCopilotModels]
    returned, and then the cache holds exactly this list for the key. *)
Theorem listModels_miss (lp : ListPlatform) (nodeData : INodeData) (w : World)
    (fallbackModels : list JVal) (credentialId : string) (credentialData : ICommonObject)
    (githubAccessToken : string) (additionalHeaders : option Headers) :
  listsWith lp nodeData fallbackModels credentialId credentialData githubAccessToken
            additionalHeaders ->
  (forall c,
     copilotModelCache w !! modelCacheKey lp nodeData credentialId additionalHeaders = Some c ->
     (modelsExpiresAt c <= inject_Z (clock (core lp) (clockReads w)))%Q) ->
  (fst (listModels lp nodeData w) = inr fallbackModels /\
   copilotModelCache (snd (listModels lp nodeData w))
   !! modelCacheKey lp nodeData credentialId additionalHeaders = None) \/
  (exists copilotToken fetched c,
     fetchCopilotModels lp copilotToken
       (normalizeBaseUrl (trim lp) (inputs_basepath nodeData)) additionalHeaders
     = inr fetched /\
     fetched <> [] /\
     fst (listModels lp nodeData w) = inr (optionValue <$> fetched) /\
     copilotModelCache (snd (listModels lp nodeData w))
     !! modelCacheKey lp nodeData credentialId additionalHeaders = Some c /\
     models c = fetched).
Proof.
  intros Hlists Hstale.
  rewrite (run_listModels lp nodeData w fallbackModels credentialId credentialData
             githubAccessToken additionalHeaders Hlists).
  destruct (run_getCachedCopilotModels_none (core lp) w _ Hstale) as (w1 & -> & _ & Hnone).
  pose proof (listFetchedModels_result lp fallbackModels credentialId githubAccessToken
                credentialData (normalizeBaseUrl (trim lp) (inputs_basepath nodeData))
                additionalHeaders _ w1 Hnone) as Hres.
  destruct (listFetchedModels _ _ _ _ _ _ _ _ _) as [l w2]. cbn [fst snd] in *.
  destruct Hres as [[-> Hw2] | (copilotToken & fetched & c & Hf & Hne & -> & Hw2 & Hc)].
  - by left.
  - right. by exists copilotToken, fetched, c.
Qed.

Lemma listModels_miss_witness :
  (fst (listModels unplugged (nodeOf "cred-1") emptyWorld)
   = inr [ JObject [ ("label", JStr "gpt-4o"); ("name", JStr "gpt-4o") ] ] /\
   copilotModelCache (snd (listModels unplugged (nodeOf "cred-1") emptyWorld))
   !! modelCacheKey unplugged (nodeOf "cred-1") "cred-1" None = None) \/
  (exists copilotToken fetched c,
     fetchCopilotModels unplugged copilotToken
       (normalizeBaseUrl (trim unplugged) (inputs_basepath (nodeOf "cred-1"))) None
     = inr fetched /\
     fetched <> [] /\
     fst (listModels unplugged (nodeOf "cred-1") emptyWorld) = inr (optionValue <$> fetched) /\
     copilotModelCache (snd (listModels unplugged (nodeOf "cred-1") emptyWorld))
     !! modelCacheKey unplugged (nodeOf "cred-1") "cred-1" None = Some c /\
     models c = fetched).
Proof.
  refine (listModels_miss unplugged (nodeOf "cred-1") emptyWorld
            [ JObject [ ("label", JStr "gpt-4o"); ("name", JStr "gpt-4o") ] ]
            "cred-1" noStored "gho_abc" None _ _).
  - repeat split; discriminate.
  - intros c Hc. change (copilotModelCache emptyWorld) with (∅ : gmap string CachedModels) in Hc.
    rewrite lookup_empty in Hc. discriminate Hc.
Defined.

(** X25. A list that [listModels] fetched or served is served again.
    When a call of [listModels] returned something else than the
    fallback list, a second call for the same node data, made before the
    cached list expires, returns the same list, whatever the token
    exchange and the model list endpoint answer by then. *)
Theorem listModels_repeat (lp : ListPlatform) (nodeData : INodeData) (w : World)
    (fallbackModels : list JVal) (credentialId : string) (credentialData : ICommonObject)
    (githubAccessToken : string) (additionalHeaders : option Headers) :
  listsWith lp nodeData fallbackModels credentialId credentialData githubAccessToken
            additionalHeaders ->
  fst (listModels lp nodeData w) <> inr fallbackModels ->
  (forall c,
     copilotModelCache (snd (listModels lp nodeData w))
     !! modelCacheKey lp nodeData credentialId additionalHeaders = Some c ->
     (inject_Z (clock (core lp) (clockReads (snd (listModels lp nodeData w))))
      < modelsExpiresAt c)%Q) ->
  forall exchange endpoint,
    fst (listModels (withNetwork lp exchange endpoint) nodeData (snd (listModels lp nodeData w)))
    = fst (listModels lp nodeData w).
Proof.
  intros Hlists Hnot Hfresh exchange endpoint.
  rewrite (run_listModels (withNetwork lp exchange endpoint) nodeData _ fallbackModels
             credentialId credentialData githubAccessToken additionalHeaders Hlists).
  change (modelCacheKey (withNetwork lp exchange endpoint) nodeData credentialId
            additionalHeaders)
    with (modelCacheKey lp nodeData credentialId additionalHeaders).
  revert Hnot Hfresh.
  rewrite (run_listModels lp nodeData w fallbackModels credentialId credentialData
             githubAccessToken additionalHeaders Hlists).
  set (key := modelCacheKey lp nodeData credentialId additionalHeaders).
  assert ((exists c, copilotModelCache w !! key = Some c /\
                     (inject_Z (clock (core lp) (clockReads w)) < modelsExpiresAt c)%Q) \/
          (forall c, copilotModelCache w !! key = Some c ->
                     (modelsExpiresAt c <= inject_Z (clock (core lp) (clockReads w)))%Q))
    as [(c & Hc & Hlt) | Hstale].
  { destruct (copilotModelCache w !! key) as [c |]; [| by right].
    destruct (Qlt_le_dec (inject_Z (clock (core lp) (clockReads w))) (modelsExpiresAt c)).
    - left. by exists c.
    - right. by intros ? [= <-]. }
  - rewrite (run_getCachedCopilotModels_fresh (core lp) w key c Hc Hlt). cbn [fst snd].
    intros _ Hfresh.
    by rewrite (run_getCachedCopilotModels_fresh (core (withNetwork lp exchange endpoint))
                  (mkWorld (copilotTokenCache w) (copilotModelCache w) (S (clockReads w)))
                  key c Hc (Hfresh c Hc)).
  - destruct (run_getCachedCopilotModels_none (core lp) w key Hstale) as (w1 & -> & _ & Hnone).
    pose proof (listFetchedModels_result lp fallbackModels credentialId githubAccessToken
                  credentialData (normalizeBaseUrl (trim lp) (inputs_basepath nodeData))
                  additionalHeaders key w1 Hnone) as Hres.
    destruct (listFetchedModels _ _ _ _ _ _ _ _ _) as [l w2]. cbn [fst snd] in *.
    destruct Hres as [[-> Hw2] | (copilotToken & fetched & c & Hf & Hne & -> & Hw2 & Hc)].
    + by intros Hnot.
    + intros _ Hfresh.
      rewrite (run_getCachedCopilotModels_fresh (core (withNetwork lp exchange endpoint))
                 w2 key c Hw2 (Hfresh c Hw2)).
      cbn [fst]. by rewrite Hc.
Qed.

Lemma listModels_repeat_witness :
  fst (listModels
         (withNetwork (listing (JArray [ JStr "claude-3.5-sonnet" ]))
            (fun _ => inl (JsError "network down")) (fun _ => inl (JsError "network down")))
         (nodeOf "cred-1")
         (snd (listModels (listing (JArray [ JStr "claude-3.5-sonnet" ])) (nodeOf "cred-1")
                 emptyWorld)))
  = inr [ optionValue (mkOption "claude-3.5-sonnet" "claude-3.5-sonnet") ].
Proof.
  refine (eq_trans
            (listModels_repeat (listing (JArray [ JStr "claude-3.5-sonnet" ]))
               (nodeOf "cred-1") emptyWorld
               [ JObject [ ("label", JStr "gpt-4o"); ("name", JStr "gpt-4o") ] ]
               "cred-1" noStored "gho_abc" None _ _ _
               (fun _ => inl (JsError "network down"))
               (fun _ => inl (JsError "network down")))
            _).
  - repeat split; discriminate.
  - vm_compute. discriminate.
  - intros c Hc. vm_compute in Hc. injection Hc as <-. reflexivity.
  - vm_compute. reflexivity.
Defined.

Lemma headerValue_assign (h : Headers) (k v key : string) :
  headerValue (assign h k v) key = if String.eqb k key then v else headerValue h key.
Proof.
  induction h as [| [k0 v0] h IH]; cbn; [done |].
  destruct (String.eqb_spec k0 k) as [-> | Hk0]; cbn.
  - by destruct (String.eqb k key).
  - rewrite IH. destruct (String.eqb_spec k0 key) as [-> | _]; [| done].
    by apply String.eqb_neq in Hk0; rewrite String.eqb_sym, Hk0.
Qed.

Lemma headerValue_spread (h more : Headers) (key : string) :
  NoDup more.*1 ->
  headerValue (spread h more) key
  = if bool_decide (key ∈ more.*1) then headerValue more key else headerValue h key.
Proof.
  unfold spread. revert h. induction more as [| [k v] more IH]; intros h Hnodup; cbn.
  { rewrite bool_decide_eq_false_2; [done | apply not_elem_of_nil]. }
  apply NoDup_cons in Hnodup as [Hk Hnodup]. rewrite (IH _ Hnodup), headerValue_assign.
  destruct (String.eqb_spec k key) as [-> | Hne].
  - rewrite (bool_decide_eq_false_2 _ Hk).
    rewrite bool_decide_eq_true_2; [done | apply list_elem_of_here].
  - destruct (bool_decide (key ∈ more.*1)) eqn:Hin.
    + apply bool_decide_eq_true_1 in Hin.
      rewrite bool_decide_eq_true_2; [done | by apply list_elem_of_further].
    + apply bool_decide_eq_false_1 in Hin.
      rewrite bool_decide_eq_false_2; [done |].
      by intros [? | ?]%elem_of_cons.
Qed.

(** X26. The headers of the model list request. A header that the
    additional headers of the node name is sent with the value given
    there, also [Authorization]: the Copilot token is then not sent. Every
    other header has the value of the fixed ones: the bearer token,
    [Accept] and the Copilot editor headers. *)
Theorem modelsRequest_headers (lp : ListPlatform) (copilotToken baseUrl : string)
    (h : Headers) (key : string) :
  NoDup h.*1 ->
  headerValue (req_headers (modelsRequest lp copilotToken baseUrl (Some h))) key
  = if bool_decide (key ∈ h.*1) then headerValue h key
    else headerValue (("Authorization", "Bearer " ++ copilotToken)
                      :: ("Accept", "application/json") :: COPILOT_HEADERS) key.
Proof.
  intros Hnodup. unfold modelsRequest. cbn [req_headers default].
  by rewrite (headerValue_spread _ h key Hnodup).
Qed.

Lemma modelsRequest_headers_witness :
  headerValue
    (req_headers (modelsRequest unplugged "tid=1" "https://api.githubcopilot.com"
                    (Some [ ("Authorization", "Bearer mine"); ("X-Team", "a") ])))
    "Authorization"
  = "Bearer mine".
Proof.
  refine (modelsRequest_headers unplugged "tid=1" "https://api.githubcopilot.com"
            [ ("Authorization", "Bearer mine"); ("X-Team", "a") ] "Authorization" _).
  apply (bool_decide_unpack _). vm_compute. reflexivity.
Defined.

End CopilotListProofs.
